(** * credcred: LLM orchestration and credentialing pipeline

    A shallow embedding of the Python sources under [backend/]:

    - [utils/llm_async/llm.py]            pricing table, response envelope,
                                          default batch scheduler
    - [utils/llm_async/bedrock_llm.py]    Bedrock adapter (UID-correlated batch)
    - [utils/llm_async/unified_llm.py]    adapter selection
    - [models/provider.py]                provider model
    - [models/credentialing_result.py]    result records and their serialisation
    - [services/credentialing_service.py] the credentialing orchestrator
    - [utils/logger.py]                   session logger, as far as the
                                          orchestrator depends on it
    - [services/report_service.py]        the audit events of the report step

    Python [str] values are Rocq strings, one byte per character: the
    string functions are Python's on ASCII text.  Python floats are read as
    exact rationals ([Q]) where only thresholds, ranges and defaults matter;
    the arithmetic of the overall score is also given on IEEE binary64
    floats, which is what a Python float is ([FloatScore]).  Dictionaries
    used as maps are stdpp [gmap]s, and the pricing table, whose iteration
    order the code depends on, is an association list.  Exceptions are the instances of
    [Exception]; calls into libraries and services the repository does not
    implement (the LLM vendors, [json], [re], the file system, the clock)
    are fields of an environment record. *)

From Stdlib Require Import ZArith QArith Qround Qabs String Ascii List Lia Permutation.
From Corelib Require PrimFloat FloatOps SpecFloat.
From stdpp Require Import base option gmap strings list pretty.

Set Warnings "-register-all".
Set Warnings "-inexact-float".

Open Scope string_scope.

(* ================================================================== *)
(** ** Python string primitives *)
(* ================================================================== *)

(** Strings hold one byte per character, so these functions are
    Python's on ASCII text ([str.isascii()]).  On other text Python's
    [str.lower] also folds letters beyond [A-Z] and [str.strip] also
    strips Unicode white space such as U+00A0, which is not modelled. *)
Module PyStr.

(** [c.lower()] on one character: only the ASCII letters [A-Z] move. *)
Definition lower_char (c : ascii) : ascii :=
  let n := nat_of_ascii c in
  if (65 <=? n)%nat && (n <=? 90)%nat then ascii_of_nat (n + 32) else c.

(** [s.lower()] *)
Fixpoint lower (s : string) : string :=
  match s with
  | EmptyString => EmptyString
  | String c s' => String (lower_char c) (lower s')
  end.

(** [c.isspace()] for a one-byte character: TAB, LF, VT, FF, CR, the
    separators FS, GS, RS, US and the blank. *)
Definition is_space (c : ascii) : bool :=
  let n := nat_of_ascii c in
  ((9 <=? n)%nat && (n <=? 13)%nat) || ((28 <=? n)%nat && (n <=? 32)%nat).

Definition is_empty (s : string) : bool :=
  match s with EmptyString => true | String _ _ => false end.

(** [s.lstrip()] *)
Fixpoint lstrip (s : string) : string :=
  match s with
  | EmptyString => EmptyString
  | String c s' => if is_space c then lstrip s' else s
  end.

(** [s.rstrip()] *)
Fixpoint rstrip (s : string) : string :=
  match s with
  | EmptyString => EmptyString
  | String c s' =>
      let r := rstrip s' in
      if is_space c && is_empty r then EmptyString else String c r
  end.

(** [s.strip()] *)
Definition strip (s : string) : string := rstrip (lstrip s).

(** [s.startswith(p)] *)
Definition startswith (p s : string) : bool := String.prefix p s.

(** [needle in hay] for two strings. *)
Fixpoint contains (needle hay : string) : bool :=
  String.prefix needle hay
  || match hay with
     | EmptyString => false
     | String _ hay' => contains needle hay'
     end.

(** The last character of [t], if any, is not stripped by [rstrip]. *)
Fixpoint last_nonspace (t : string) : bool :=
  match t with
  | EmptyString => true
  | String c EmptyString => negb (is_space c)
  | String _ t' => last_nonspace t'
  end.

Definition first_nonspace (t : string) : bool :=
  match t with
  | EmptyString => true
  | String c _ => negb (is_space c)
  end.

(** [tok] occurs in [text] up to letter case. *)
Definition occurs_ci (tok text : string) : Prop :=
  exists pre mid post, text = pre +:+ mid +:+ post /\ lower mid = tok.

End PyStr.

(* ================================================================== *)
(** ** Exceptions *)
(* ================================================================== *)

(** A raised exception: its class name and [str(e)]. *)
Record exn := Exn { exn_class : string; exn_msg : string }.

(* ================================================================== *)
(** ** Pricing table ([utils/llm_async/llm.py]) *)
(* ================================================================== *)

Module Pricing.
Import PyStr.
Local Open Scope Q_scope.

(** [LLM_PRICING]: per-1K-token (input, output) rates, in insertion order. *)
Definition LLM_PRICING : list (string * (Q * Q)) :=
  [ ("gpt-4.1", (0.002, 0.008));
    ("gpt-4", (0.03, 0.06));
    ("gpt-4-turbo", (0.01, 0.03));
    ("gpt-4-turbo-preview", (0.01, 0.03));
    ("gpt-4o", (0.005, 0.015));
    ("gpt-4o-mini", (0.00015, 0.0006));
    ("gpt-3.5-turbo", (0.0015, 0.002));
    ("gpt-3.5-turbo-16k", (0.003, 0.004));
    ("anthropic.claude-3-sonnet-20240229-v1:0", (0.003, 0.015));
    ("anthropic.claude-3-haiku-20240307-v1:0", (0.00025, 0.00125));
    ("anthropic.claude-3-opus-20240229-v1:0", (0.015, 0.075));
    ("anthropic.claude-3-5-sonnet-20240620-v1:0", (0.003, 0.015));
    ("anthropic.claude-v2", (0.008, 0.024));
    ("anthropic.claude-v2:1", (0.008, 0.024));
    ("anthropic.claude-instant-v1", (0.0008, 0.0024));
    ("amazon.titan-text-lite-v1", (0.0003, 0.0004));
    ("amazon.titan-text-express-v1", (0.0008, 0.0016));
    ("default", (0.003, 0.015)) ].

(** [d.get(key)] on the table. *)
Fixpoint table_get (key : string) (d : list (string * (Q * Q))) : option (Q * Q) :=
  match d with
  | [] => None
  | (k, v) :: d' => if String.eqb k key then Some v else table_get key d'
  end.

(** [LLM_PRICING[key]] for a key written in the source. *)
Definition price (key : string) : Q * Q :=
  default (0, 0) (table_get key LLM_PRICING).

(** The [for model_key, pricing in LLM_PRICING.items()] loop: the first
    entry, in table order, whose key is not ["default"] and occurs in the
    name. *)
Fixpoint family_scan (model_name : string) (d : list (string * (Q * Q)))
  : option (string * (Q * Q)) :=
  match d with
  | [] => None
  | (model_key, pricing) :: d' =>
      if negb (String.eqb model_key "default") && contains model_key model_name
      then Some (model_key, pricing)
      else family_scan model_name d'
  end.

(** The chain of [if]/[elif] tests on common model patterns. *)
Definition common_patterns (model_name : string) : Q * Q :=
  if contains "gpt-4" model_name then
    if contains "turbo" model_name || contains "preview" model_name
    then price "gpt-4-turbo"
    else if contains "mini" model_name then price "gpt-4o-mini"
    else price "gpt-4"
  else if contains "gpt-3.5" model_name then
    if contains "16k" model_name then price "gpt-3.5-turbo-16k"
    else price "gpt-3.5-turbo"
  else if contains "claude-3-5" model_name then
    price "anthropic.claude-3-5-sonnet-20240620-v1:0"
  else if contains "claude-3" model_name then
    if contains "opus" model_name then price "anthropic.claude-3-opus-20240229-v1:0"
    else if contains "haiku" model_name then price "anthropic.claude-3-haiku-20240307-v1:0"
    else price "anthropic.claude-3-sonnet-20240229-v1:0"
  else if contains "claude" model_name then
    if contains "instant" model_name then price "anthropic.claude-instant-v1"
    else price "anthropic.claude-v2"
  else if contains "titan" model_name then
    if contains "express" model_name then price "amazon.titan-text-express-v1"
    else price "amazon.titan-text-lite-v1"
  else price "default".

(** [get_model_pricing(model_name)] *)
Definition get_model_pricing (model_name : string) : Q * Q :=
  let model_name := strip (lower model_name) in
  match table_get model_name LLM_PRICING with
  | Some pricing => pricing
  | None =>
      match family_scan model_name LLM_PRICING with
      | Some (_, pricing) => pricing
      | None => common_patterns model_name
      end
  end.

End Pricing.

(* ================================================================== *)
(** ** Python values and numbers *)
(* ================================================================== *)

Module Py.

(** JSON-like values held in [Dict[str, Any]] payloads. *)
#[local] Unset Elimination Schemes.
Inductive value :=
| VNone
| VBool (b : bool)
| VInt (z : Z)
| VFloat (q : Q)
| VStr (s : string)
| VList (l : list value)
| VDict (d : gmap string value).
#[local] Set Elimination Schemes.

(** A computation that either raises or returns. *)
Definition res (A : Type) : Type := exn + A.

Definition ret {A} (a : A) : res A := inr a.
Definition raise {A} (cls msg : string) : res A := inl (Exn cls msg).
Definition bind {A B} (m : res A) (f : A -> res B) : res B :=
  match m with inl e => inl e | inr a => f a end.

(** [key in d] *)
Definition has_key {V} (key : string) (d : gmap string V) : bool :=
  bool_decide (is_Some (d !! key)).

(** [v.get(key, dflt)]: only dictionaries have a [get] method. *)
Definition py_get (v : value) (key : string) (dflt : value) : res value :=
  match v with
  | VDict d => ret (default dflt (d !! key))
  | _ => raise "AttributeError" "object has no attribute 'get'"
  end.

(** [len(v)] *)
Definition py_len (v : value) : res Z :=
  match v with
  | VList l => ret (Z.of_nat (List.length l))
  | VStr s => ret (Z.of_nat (String.length s))
  | VDict d => ret (Z.of_nat (size d))
  | _ => raise "TypeError" "object has no len()"
  end.

(** [v != s] for a string literal [s]. *)
Definition ne_str (v : value) (s : string) : bool :=
  match v with
  | VStr s' => negb (String.eqb s' s)
  | _ => true
  end.

(** [bool(d)] for a dictionary. *)
Definition truthy_dict {V} (d : gmap string V) : bool :=
  negb (bool_decide (d = ∅)).

(** [round(q)]: to the nearest integer, ties to the even one. *)
Definition py_round (q : Q) : Z :=
  let f := Qfloor q in
  match Qcompare (q - inject_Z f) (1 # 2) with
  | Lt => f
  | Gt => (f + 1)%Z
  | Eq => if Z.even f then f else (f + 1)%Z
  end.

(** [round(q, 2)] *)
Definition py_round2 (q : Q) : Q :=
  (inject_Z (py_round (q * 100)) / 100)%Q.

(** [sum(...)] over floats. *)
Definition py_sum (l : list Q) : Q := fold_left Qplus l 0%Q.

End Py.

(* ================================================================== *)
(** ** LLM responses ([utils/llm_async/llm.py]) *)
(* ================================================================== *)

Module Llm.
Import Pricing.

Record LLMResponse := {
  content : string;
  input_tokens : Z;
  output_tokens : Z;
  total_tokens : Z;
  model_name : string;
  input_cost : Q;
  output_cost : Q;
  total_cost : Q
}.

(** [LLMResponse.__init__]: costs are derived from the token counts and the
    pricing table when the object is built. *)
Definition mk_LLMResponse (content : string) (input_tokens output_tokens total_tokens : Z)
    (model_name : string) : LLMResponse :=
  let '(input_cost_per_1k, output_cost_per_1k) := get_model_pricing model_name in
  let input_cost := (inject_Z input_tokens / 1000 * input_cost_per_1k)%Q in
  let output_cost := (inject_Z output_tokens / 1000 * output_cost_per_1k)%Q in
  {| content := content;
     input_tokens := input_tokens;
     output_tokens := output_tokens;
     total_tokens := total_tokens;
     model_name := model_name;
     input_cost := input_cost;
     output_cost := output_cost;
     total_cost := (input_cost + output_cost)%Q |}.

End Llm.

(* ================================================================== *)
(** ** Result models ([models/credentialing_result.py]) *)
(* ================================================================== *)

Module Result.
Import Py.

Inductive ComplianceStatus := COMPLIANT | NON_COMPLIANT | PENDING | FAILED.

(** [status.value] *)
Definition status_value (s : ComplianceStatus) : string :=
  match s with
  | COMPLIANT => "COMPLIANT"
  | NON_COMPLIANT => "NON_COMPLIANT"
  | PENDING => "PENDING"
  | FAILED => "FAILED"
  end.

Record HardRegulationResult := {
  hr_regulation_id : string;
  hr_regulation_name : string;
  passed : bool;
  hr_details : gmap string value;
  failure_reason : option string
}.

Record SoftRegulationResult := {
  sr_regulation_id : string;
  sr_regulation_name : string;
  score : Z;
  max_score : Z;
  weight : Q;
  weighted_score : Q;
  sr_details : gmap string value
}.

Record CredentialingResult := {
  provider_id : string;
  timestamp : string;
  cr_score : Z;
  compliance_status : ComplianceStatus;
  hard_regulations : gmap string bool;
  soft_regulations : gmap string Z;
  mapped_data : gmap string value;
  verification_details : gmap string value;
  hard_regulation_results : list HardRegulationResult;
  soft_regulation_results : list SoftRegulationResult;
  llm_usage : gmap string value;
  processing_time : Q;
  errors : list string;
  warnings : list string
}.

(** The [score: int = Field(ge=1, le=5)] check made when a
    [CredentialingResult] is built. *)
Definition validate_CredentialingResult (r : CredentialingResult) : res CredentialingResult :=
  if (1 <=? cr_score r)%Z && (cr_score r <=? 5)%Z then ret r
  else raise "ValidationError" "1 validation error for CredentialingResult".

(** [all(d.values())] *)
Definition all_values (d : gmap string bool) : bool :=
  forallb (fun kv => snd kv) (map_to_list d).

(** [CredentialingResult.is_compliant] *)
Definition is_compliant (self : CredentialingResult) : bool :=
  all_values (hard_regulations self).

(** [CredentialingResult.get_overall_score] *)
Definition get_overall_score (self : CredentialingResult) : Q :=
  match soft_regulation_results self with
  | [] => 0%Q
  | _ =>
      let total_weighted_score := py_sum (map weighted_score (soft_regulation_results self)) in
      let total_weight := py_sum (map weight (soft_regulation_results self)) in
      if Qeq_bool total_weight 0 then 0%Q
      else py_round2 (total_weighted_score / total_weight)
  end.

(** [CredentialingResult.to_dict] *)
Definition to_dict (self : CredentialingResult) : gmap string value :=
  list_to_map
    [ ("provider_id", VStr (provider_id self));
      ("timestamp", VStr (timestamp self));
      ("score", VInt (cr_score self));
      ("compliance_status", VStr (status_value (compliance_status self)));
      ("hard_regulations", VDict (VBool <$> hard_regulations self));
      ("soft_regulations", VDict (VInt <$> soft_regulations self));
      ("mapped_data", VDict (mapped_data self));
      ("verification_details", VDict (verification_details self));
      ("overall_score", VFloat (get_overall_score self));
      ("is_compliant", VBool (is_compliant self));
      ("processing_time", VFloat (processing_time self));
      ("errors", VList (VStr <$> errors self));
      ("warnings", VList (VStr <$> warnings self)) ].

End Result.

(* ================================================================== *)
(** ** Providers ([models/provider.py]) and regulations *)
(* ================================================================== *)

Module Provider.
Import Py.

(** The sub-models whose fields the service reads are typed as declared;
    the remaining ones are kept as the dictionaries [.dict()] yields. *)

Record WorkHistory := {
  employment_history : list (gmap string value);
  years_experience : Z
}.

Record PLIs := {
  malpractice_insurance : string;
  coverage_amount : Z;
  insurance_provider : string;
  policy_number : string;
  expiration_date : string
}.

Record Disclosure := {
  disciplinary_actions : list string;
  criminal_record : string;
  license_suspensions : Z;
  voluntary_surrender : bool
}.

Record BoardCertifications := {
  board_certifications : list string;
  certification_dates : list string;
  expiration_dates : list string;
  recertification_status : string
}.

Record ContinuingEducation := {
  cme_credits : Z;
  education_history : list (gmap string value);
  required_credits : Z;
  ce_compliance_status : string
}.

Record QualityMetrics := {
  patient_satisfaction : Q;
  outcome_metrics : Q;
  readmission_rate : Q;
  mortality_rate : Q;
  quality_score : Q
}.

Record Provider := {
  p_provider_id : string;
  p_PersonalInfo : gmap string value;
  p_ProfessionalIds : gmap string value;
  p_Educations : gmap string value;
  p_Specialties : gmap string value;
  p_HospitalAffiliations : gmap string value;
  p_WorkHistory : WorkHistory;
  p_PLIs : PLIs;
  p_PracticeInformation : gmap string value;
  p_MalpracticeHistory : gmap string value;
  p_Disclosure : Disclosure;
  p_BoardCertifications : BoardCertifications;
  p_ContinuingEducation : ContinuingEducation;
  p_PeerReferences : gmap string value;
  p_FinancialDisclosure : gmap string value;
  p_QualityMetrics : QualityMetrics
}.

Definition strs (l : list string) : value := VList (VStr <$> l).

Definition WorkHistory_dict (w : WorkHistory) : gmap string value :=
  list_to_map
    [ ("employment_history", VList (VDict <$> employment_history w));
      ("years_experience", VInt (years_experience w)) ].

Definition PLIs_dict (p : PLIs) : gmap string value :=
  list_to_map
    [ ("malpractice_insurance", VStr (malpractice_insurance p));
      ("coverage_amount", VInt (coverage_amount p));
      ("insurance_provider", VStr (insurance_provider p));
      ("policy_number", VStr (policy_number p));
      ("expiration_date", VStr (expiration_date p)) ].

Definition Disclosure_dict (d : Disclosure) : gmap string value :=
  list_to_map
    [ ("disciplinary_actions", strs (disciplinary_actions d));
      ("criminal_record", VStr (criminal_record d));
      ("license_suspensions", VInt (license_suspensions d));
      ("voluntary_surrender", VBool (voluntary_surrender d)) ].

Definition BoardCertifications_dict (b : BoardCertifications) : gmap string value :=
  list_to_map
    [ ("board_certifications", strs (board_certifications b));
      ("certification_dates", strs (certification_dates b));
      ("expiration_dates", strs (expiration_dates b));
      ("recertification_status", VStr (recertification_status b)) ].

Definition ContinuingEducation_dict (c : ContinuingEducation) : gmap string value :=
  list_to_map
    [ ("cme_credits", VInt (cme_credits c));
      ("education_history", VList (VDict <$> education_history c));
      ("required_credits", VInt (required_credits c));
      ("compliance_status", VStr (ce_compliance_status c)) ].

Definition QualityMetrics_dict (q : QualityMetrics) : gmap string value :=
  list_to_map
    [ ("patient_satisfaction", VFloat (patient_satisfaction q));
      ("outcome_metrics", VFloat (outcome_metrics q));
      ("readmission_rate", VFloat (readmission_rate q));
      ("mortality_rate", VFloat (mortality_rate q));
      ("quality_score", VFloat (quality_score q)) ].

(** [Provider.get_all_data]: the model as a dictionary. *)
Definition get_all_data (self : Provider) : gmap string value :=
  list_to_map
    [ ("provider_id", VStr (p_provider_id self));
      ("PersonalInfo", VDict (p_PersonalInfo self));
      ("ProfessionalIds", VDict (p_ProfessionalIds self));
      ("Educations", VDict (p_Educations self));
      ("Specialties", VDict (p_Specialties self));
      ("HospitalAffiliations", VDict (p_HospitalAffiliations self));
      ("WorkHistory", VDict (WorkHistory_dict (p_WorkHistory self)));
      ("PLIs", VDict (PLIs_dict (p_PLIs self)));
      ("PracticeInformation", VDict (p_PracticeInformation self));
      ("MalpracticeHistory", VDict (p_MalpracticeHistory self));
      ("Disclosure", VDict (Disclosure_dict (p_Disclosure self)));
      ("BoardCertifications", VDict (BoardCertifications_dict (p_BoardCertifications self)));
      ("ContinuingEducation", VDict (ContinuingEducation_dict (p_ContinuingEducation self)));
      ("PeerReferences", VDict (p_PeerReferences self));
      ("FinancialDisclosure", VDict (p_FinancialDisclosure self));
      ("QualityMetrics", VDict (QualityMetrics_dict (p_QualityMetrics self))) ].

(** One entry of [regulations.json], hard or soft.  The optional fields
    are those the service reads with [regulation.get(key, default)]. *)
Record Regulation := {
  reg_id : string;
  reg_name : string;
  data_fields : option (list string);
  requirements : option value;
  validation_criteria : option (gmap string value);
  scoring_criteria : option (gmap string value);
  reg_weight : Q
}.

End Provider.

(* ================================================================== *)
(** ** The credentialing service ([services/credentialing_service.py]) *)
(* ================================================================== *)

Module Service.
Import PyStr Py Llm Result Provider.

(** *** The world outside the service *)

(** What the service calls but does not implement: the LLM provider, the
    [json] and [re] libraries, the report service and the clock.  Every
    call that can raise returns a [res]. *)
Record Env := {
  (** [self.llm_provider.generate(prompt)] *)
  generate : string -> res LLMResponse;
  (** [await self.llm_provider.generate_batch_async(prompts)] *)
  generate_batch_async : list string -> res (list LLMResponse);
  (** [json.dumps(v, indent=2)] *)
  json_dumps : value -> string;
  (** [re.search(r'\{.*\}', s, re.DOTALL)] followed by [json.loads] of the
      match; [None] when there is no match or the match is not JSON. *)
  json_search : string -> option (gmap string value);
  (** [re.search(r'\b([1-5])\b', s)] followed by [int(m.group(1))]. *)
  score_search : string -> option Z;
  (** [from services.report_service import ReportService] followed by
      [ReportService()] *)
  report_service : res unit;
  (** What [ReportService.generate_credentialing_report(provider_id,
      session_id)] builds before it logs its audit event: the report, or
      the exception raised on the way. *)
  generate_credentialing_report : string -> string -> res (gmap string value);
  (** [logging.FileHandler(path)]: opening the session's log file. *)
  open_log_file : string -> res unit;
  (** [datetime.now()] as text, and three readings of [time.time()]. *)
  now_text : string;
  start_time : Q;
  verification_time : Q;
  end_time : Q
}.

(** The service object: the provider store and the loaded regulations. *)
Record Config := {
  providers : gmap string Provider;
  cfg_hard_regulations : list Regulation;
  cfg_soft_regulations : list Regulation
}.

(** *** Session log, audit trail and result store *)

Inductive log_entry :=
| LogStep (step_name llm_reasoning : string)
| LogDataPoints (step_name : string) (data : gmap string value)
| LogDecision (decision_type : string) (supporting_data : gmap string value) (confidence : Q)
| LogRegulationCheck (regulation_id regulation_name : string) (passed : bool) (reasoning : string)
| LogScoring (regulation_id regulation_name : string) (score max_score : Z) (reasoning : string)
| LogFinalResult (result : gmap string value)
| LogSaved.

Record state := {
  session_log : list log_entry;
  audit_trail : list string;
  credentialing_results : gmap string CredentialingResult
}.

(** Stateful computations that may raise. *)
Definition M (A : Type) : Type := state -> res A * state.

Definition retM {A} (a : A) : M A := fun st => (inr a, st).
Definition raiseM {A} (e : exn) : M A := fun st => (inl e, st).
Definition bindM {A B} (m : M A) (f : A -> M B) : M B :=
  fun st => match m st with
            | (inl e, st') => (inl e, st')
            | (inr a, st') => f a st'
            end.
Definition liftM {A} (r : res A) : M A := fun st => (r, st).

(** [try: body except Exception as e: handler(e)] *)
Definition try_except {A} (body : M A) (handler : exn -> M A) : M A :=
  fun st => match body st with
            | (inl e, st') => handler e st'
            | (inr a, st') => (inr a, st')
            end.

Declare Scope service_scope.
Delimit Scope service_scope with service.
Notation "x <- m ;; k" := (bindM m (fun x => k))
  (at level 100, m at next level, right associativity) : service_scope.
Notation "m ;;; k" := (bindM m (fun _ => k))
  (at level 100, right associativity) : service_scope.
Local Open Scope service_scope.

(** The logger methods append to the in-memory session log; writing the
    log files is best effort there and never raises. *)
Definition logger (e : log_entry) : M unit :=
  fun st => (inr tt, {| session_log := session_log st ++ [e];
                        audit_trail := audit_trail st;
                        credentialing_results := credentialing_results st |}).

(** [audit_logger.log_audit_event(event_type, ...)]: the event is handed
    to the audit logger, which appends it to its file and swallows a
    failed write.  [audit_trail] lists the events handed over, in order. *)
Definition log_audit_event (event_type : string) : M unit :=
  fun st => (inr tt, {| session_log := session_log st;
                        audit_trail := audit_trail st ++ [event_type];
                        credentialing_results := credentialing_results st |}).

(** [self.credentialing_results[provider_id] = result] *)
Definition store_result (provider_id : string) (result : CredentialingResult) : M unit :=
  fun st => (inr tt, {| session_log := session_log st;
                        audit_trail := audit_trail st;
                        credentialing_results := <[provider_id := result]> (credentialing_results st) |}).

(** *** Deterministic rule logic *)

(** [_extract_regulation_data] *)
Definition _extract_regulation_data (regulation : Regulation)
    (provider_data verification_details : gmap string value) : gmap string value :=
  let data_fields := default [] (data_fields regulation) in
  let relevant_data :=
    fold_left (fun (relevant_data : gmap string value) field =>
                 match provider_data !! field with
                 | Some v => <[field := v]> relevant_data
                 | None => relevant_data
                 end) data_fields ∅ in
  if truthy_dict verification_details
  then <["verification" := VDict verification_details]> relevant_data
  else relevant_data.

(** One guarded block of a validator: [Some b] when it executes
    [return b], [None] when control falls through to the next block. *)
Definition or_return (block : res (option bool)) (rest : res bool) : res bool :=
  bind block (fun returned =>
    match returned with Some b => ret b | None => rest end).

Definition check_license_status (validation_criteria data : gmap string value)
  : res (option bool) :=
  if has_key "license_status" validation_criteria && has_key "ProfessionalIds" data
  then ret (Some true) else ret None.

Definition check_disciplinary_actions (validation_criteria data : gmap string value)
  : res (option bool) :=
  if has_key "disciplinary_actions" validation_criteria then
    match data !! "Disclosure" with
    | Some disclosure =>
        bind (py_get disclosure "disciplinary_actions" (VList [])) (fun disciplinary_actions =>
        bind (py_len disciplinary_actions) (fun n =>
        ret (if (0 <? n)%Z then Some false else None)))
    | None => ret None
    end
  else ret None.

Definition check_malpractice_insurance (validation_criteria data : gmap string value)
  : res (option bool) :=
  if has_key "malpractice_insurance" validation_criteria then
    match data !! "PLIs" with
    | Some plis =>
        bind (py_get plis "malpractice_insurance" (VStr "")) (fun insurance_status =>
        ret (if ne_str insurance_status "Active" then Some false else None))
    | None => ret None
    end
  else ret None.

Definition check_board_certification (validation_criteria data : gmap string value)
  : res (option bool) :=
  if has_key "board_certification" validation_criteria then
    match data !! "BoardCertifications" with
    | Some board =>
        bind (py_get board "board_certifications" (VList [])) (fun certifications =>
        bind (py_len certifications) (fun n =>
        ret (if (n =? 0)%Z then Some false else None)))
    | None => ret None
    end
  else ret None.

Definition check_criminal_record (validation_criteria data : gmap string value)
  : res (option bool) :=
  if has_key "criminal_record" validation_criteria then
    match data !! "Disclosure" with
    | Some disclosure =>
        bind (py_get disclosure "criminal_record" (VStr "")) (fun criminal_record =>
        ret (if ne_str criminal_record "Clean" then Some false else None))
    | None => ret None
    end
  else ret None.

(** [_validate_hard_regulation] *)
Definition _validate_hard_regulation (regulation : Regulation) (data : gmap string value)
  : res bool :=
  let validation_criteria := default ∅ (validation_criteria regulation) in
  or_return (check_license_status validation_criteria data)
 (or_return (check_disciplinary_actions validation_criteria data)
 (or_return (check_malpractice_insurance validation_criteria data)
 (or_return (check_board_certification validation_criteria data)
 (or_return (check_criminal_record validation_criteria data)
 (ret true))))).

(** [v >= q] for a number [v]. *)
Definition py_ge (v : value) (q : Q) : res bool :=
  match v with
  | VInt z => ret (Qle_bool q (inject_Z z))
  | VFloat x => ret (Qle_bool q x)
  | VBool b => ret (Qle_bool q (if b then 1 else 0))
  | _ => raise "TypeError" "'>=' not supported between these instances"
  end.

(** The five-step ladder shared by the three scoring rules. *)
Definition ladder (v : value) (t5 t4 t3 t2 : Q) : res Z :=
  bind (py_ge v t5) (fun b5 => if b5 then ret 5%Z else
  bind (py_ge v t4) (fun b4 => if b4 then ret 4%Z else
  bind (py_ge v t3) (fun b3 => if b3 then ret 3%Z else
  bind (py_ge v t2) (fun b2 => if b2 then ret 2%Z else ret 1%Z)))).

Definition score_field (data : gmap string value) (section field : string)
    (t5 t4 t3 t2 : Q) : res Z :=
  match data !! section with
  | Some d => bind (py_get d field (VInt 0)) (fun v => ladder v t5 t4 t3 t2)
  | None => ret 3%Z
  end.

(** [_score_soft_regulation] *)
Definition _score_soft_regulation (regulation : Regulation) (data : gmap string value)
  : res Z :=
  if String.eqb (reg_id regulation) "SR001" then
    score_field data "WorkHistory" "years_experience" 16 11 6 3
  else if String.eqb (reg_id regulation) "SR002" then
    score_field data "ContinuingEducation" "cme_credits" 100 76 51 26
  else if String.eqb (reg_id regulation) "SR003" then
    score_field data "QualityMetrics" "quality_score" 4.1 3.1 2.1 1.1
  else ret 3%Z.

(** [_calculate_overall_score] *)
Definition _calculate_overall_score (soft_regulation_results : list SoftRegulationResult) : Z :=
  match soft_regulation_results with
  | [] => 1%Z
  | _ =>
      let total_weighted_score := py_sum (map weighted_score soft_regulation_results) in
      let total_weight := py_sum (map weight soft_regulation_results) in
      if Qeq_bool total_weight 0 then 1%Z
      else
        let overall_score := (total_weighted_score / total_weight)%Q in
        Z.max 1 (Z.min 5 (py_round overall_score))
  end.

(** [_determine_compliance_status] *)
Definition _determine_compliance_status (hard_regulation_results : list HardRegulationResult)
  : ComplianceStatus :=
  match hard_regulation_results with
  | [] => FAILED
  | _ =>
      let all_passed := forallb passed hard_regulation_results in
      if all_passed then COMPLIANT else NON_COMPLIANT
  end.

(** *** Parsing LLM verdicts *)

(** [_parse_hard_regulation_response] *)
Definition _parse_hard_regulation_response (response_content : string)
    (regulation : Regulation) : res bool :=
  let response_lower := strip (lower response_content) in
  if contains "pass" response_lower && negb (contains "fail" response_lower) then ret true
  else if contains "fail" response_lower then ret false
  else _validate_hard_regulation regulation ∅.

(** [_parse_soft_regulation_response] *)
Definition _parse_soft_regulation_response (env : Env) (response_content : string)
    (regulation : Regulation) : res Z :=
  match score_search env response_content with
  | Some n => ret n
  | None => _score_soft_regulation regulation ∅
  end.

(** *** Prompts *)

Definition nl : string := String (ascii_of_nat 10) EmptyString.
Definition dq : string := String (ascii_of_nat 34) EmptyString.
Definition quoted (s : string) : string := dq +:+ s +:+ dq.

(** [_create_hard_regulation_prompt] *)
Definition _create_hard_regulation_prompt (env : Env) (regulation : Regulation)
    (provider_data relevant_data : gmap string value) : string :=
  let requirements := default (VList []) (requirements regulation) in
  nl +:+ "You are a healthcare credentialing specialist. Analyze the following regulation and provider data to determine if the provider meets the requirements." +:+ nl +:+ nl
  +:+ "REGULATION: " +:+ reg_id regulation +:+ " - " +:+ reg_name regulation +:+ nl
  +:+ "Requirements: " +:+ json_dumps env requirements +:+ nl +:+ nl
  +:+ "PROVIDER DATA:" +:+ nl +:+ json_dumps env (VDict provider_data) +:+ nl +:+ nl
  +:+ "RELEVANT DATA FOR THIS REGULATION:" +:+ nl +:+ json_dumps env (VDict relevant_data) +:+ nl +:+ nl
  +:+ "Based on the regulation requirements and the provider data, determine if the provider PASSES or FAILS this regulation." +:+ nl +:+ nl
  +:+ "Respond with ONLY:" +:+ nl
  +:+ "- " +:+ quoted "PASS" +:+ " if the provider meets all requirements" +:+ nl
  +:+ "- " +:+ quoted "FAIL" +:+ " if the provider does not meet one or more requirements" +:+ nl +:+ nl
  +:+ "Provide a brief explanation of your reasoning after the PASS/FAIL response." +:+ nl.

(** [_create_soft_regulation_prompt] *)
Definition _create_soft_regulation_prompt (env : Env) (regulation : Regulation)
    (provider_data relevant_data : gmap string value) : string :=
  let scoring_criteria := default ∅ (scoring_criteria regulation) in
  nl +:+ "You are a healthcare credentialing specialist. Analyze the following regulation and provider data to score the provider on a scale of 1-5." +:+ nl +:+ nl
  +:+ "REGULATION: " +:+ reg_id regulation +:+ " - " +:+ reg_name regulation +:+ nl
  +:+ "Scoring Criteria: " +:+ json_dumps env (VDict scoring_criteria) +:+ nl +:+ nl
  +:+ "PROVIDER DATA:" +:+ nl +:+ json_dumps env (VDict provider_data) +:+ nl +:+ nl
  +:+ "RELEVANT DATA FOR THIS REGULATION:" +:+ nl +:+ json_dumps env (VDict relevant_data) +:+ nl +:+ nl
  +:+ "Based on the scoring criteria and the provider data, assign a score from 1 to 5:" +:+ nl
  +:+ "- 1: Poor performance/does not meet basic requirements" +:+ nl
  +:+ "- 2: Below average performance" +:+ nl
  +:+ "- 3: Average performance/meets basic requirements" +:+ nl
  +:+ "- 4: Above average performance" +:+ nl
  +:+ "- 5: Excellent performance/exceeds requirements" +:+ nl +:+ nl
  +:+ "Respond with ONLY the number (1, 2, 3, 4, or 5) followed by a brief explanation of your reasoning." +:+ nl.

(** A regulation as the dictionary [json.dumps] receives. *)
Definition Regulation_dict (regulation : Regulation) : value :=
  VDict (list_to_map
    [ ("id", VStr (reg_id regulation));
      ("name", VStr (reg_name regulation));
      ("data_fields", strs (default [] (data_fields regulation)));
      ("requirements", default (VList []) (requirements regulation));
      ("validation_criteria", VDict (default ∅ (validation_criteria regulation)));
      ("scoring_criteria", VDict (default ∅ (scoring_criteria regulation)));
      ("weight", VFloat (reg_weight regulation)) ]).

(** [_create_mapping_prompt] *)
Definition _create_mapping_prompt (env : Env) (provider_data : gmap string value)
    (regulations : list Regulation) : string :=
  nl +:+ "You are a healthcare credentialing specialist. Map the provider data fields to the regulatory requirements." +:+ nl +:+ nl
  +:+ "PROVIDER DATA:" +:+ nl +:+ json_dumps env (VDict provider_data) +:+ nl +:+ nl
  +:+ "REGULATIONS:" +:+ nl +:+ json_dumps env (VList (Regulation_dict <$> regulations)) +:+ nl +:+ nl
  +:+ "For each regulation, identify which provider data fields are relevant and how they map to the regulation requirements." +:+ nl +:+ nl
  +:+ "Respond with a JSON object where:" +:+ nl
  +:+ "- Keys are regulation IDs" +:+ nl
  +:+ "- Values are objects with:" +:+ nl
  +:+ "  - " +:+ quoted "data_fields" +:+ ": list of relevant provider data field names" +:+ nl
  +:+ "  - " +:+ quoted "mapping_confidence" +:+ ": confidence score (0-1)" +:+ nl
  +:+ "  - " +:+ quoted "reasoning" +:+ ": brief explanation of the mapping" +:+ nl +:+ nl
  +:+ "Example format:" +:+ nl
  +:+ "{" +:+ nl
  +:+ "  " +:+ quoted "HR001" +:+ ": {" +:+ nl
  +:+ "    " +:+ quoted "data_fields" +:+ ": [" +:+ quoted "ProfessionalIds.license_number"
        +:+ ", " +:+ quoted "ProfessionalIds.license_status" +:+ "]," +:+ nl
  +:+ "    " +:+ quoted "mapping_confidence" +:+ ": 0.95," +:+ nl
  +:+ "    " +:+ quoted "reasoning" +:+ ": "
        +:+ quoted "License number and status directly map to medical license requirement" +:+ nl
  +:+ "  }" +:+ nl
  +:+ "}" +:+ nl.

(** The prompt of [_generate_regulation_reasoning]. *)
Definition regulation_reasoning_prompt (env : Env) (regulation : Regulation)
    (provider_data : gmap string value) (result : bool) (data_used : gmap string value) : string :=
  nl +:+ "You are a healthcare credentialing specialist. Provide detailed reasoning for the compliance decision." +:+ nl +:+ nl
  +:+ "REGULATION: " +:+ reg_id regulation +:+ " - " +:+ reg_name regulation +:+ nl
  +:+ "COMPLIANCE RESULT: " +:+ (if result then "PASS" else "FAIL") +:+ nl
  +:+ "PROVIDER DATA: " +:+ json_dumps env (VDict provider_data) +:+ nl
  +:+ "DATA USED: " +:+ json_dumps env (VDict data_used) +:+ nl +:+ nl
  +:+ "Provide a comprehensive explanation of:" +:+ nl
  +:+ "1. How the regulation requirements were evaluated" +:+ nl
  +:+ "2. Which specific data points were considered" +:+ nl
  +:+ "3. Why the provider passed or failed" +:+ nl
  +:+ "4. Any relevant context or considerations" +:+ nl +:+ nl
  +:+ "Write in a professional, detailed manner suitable for credentialing documentation." +:+ nl.

(** The prompt of [_generate_scoring_reasoning]. *)
Definition scoring_reasoning_prompt (env : Env) (regulation : Regulation)
    (provider_data : gmap string value) (score : Z) (data_used : gmap string value) : string :=
  nl +:+ "You are a healthcare credentialing specialist. Provide detailed reasoning for the scoring decision." +:+ nl +:+ nl
  +:+ "REGULATION: " +:+ reg_id regulation +:+ " - " +:+ reg_name regulation +:+ nl
  +:+ "SCORE: " +:+ pretty score +:+ "/5" +:+ nl
  +:+ "PROVIDER DATA: " +:+ json_dumps env (VDict provider_data) +:+ nl
  +:+ "DATA USED: " +:+ json_dumps env (VDict data_used) +:+ nl +:+ nl
  +:+ "Provide a comprehensive explanation of:" +:+ nl
  +:+ "1. How the regulation was scored" +:+ nl
  +:+ "2. Which specific criteria were evaluated" +:+ nl
  +:+ "3. Why this score was assigned" +:+ nl
  +:+ "4. What factors contributed to the score" +:+ nl
  +:+ "5. Any areas for improvement" +:+ nl +:+ nl
  +:+ "Write in a professional, detailed manner suitable for credentialing documentation." +:+ nl.

(** The prompt of [_process_credentialing_api_response]. *)
Definition api_response_prompt (api_response : string) : string :=
  nl +:+ "You are a healthcare credentialing specialist. Analyze the following API response and extract relevant verification information." +:+ nl +:+ nl
  +:+ "API RESPONSE:" +:+ nl +:+ api_response +:+ nl +:+ nl
  +:+ "Extract and structure the following information:" +:+ nl
  +:+ "1. Verification status for each field" +:+ nl
  +:+ "2. Confidence scores" +:+ nl
  +:+ "3. Any discrepancies or issues" +:+ nl
  +:+ "4. Additional verification details" +:+ nl +:+ nl
  +:+ "Respond with a JSON object containing the structured verification data." +:+ nl.

(** *** Single LLM calls with their local fallbacks *)

(** [_generate_regulation_reasoning] *)
Definition _generate_regulation_reasoning (env : Env) (regulation : Regulation)
    (provider_data : gmap string value) (result : bool) (data_used : gmap string value) : string :=
  match generate env (regulation_reasoning_prompt env regulation provider_data result data_used) with
  | inr response => content response
  | inl e => "Reasoning generation failed: " +:+ exn_msg e
  end.

(** [_generate_scoring_reasoning] *)
Definition _generate_scoring_reasoning (env : Env) (regulation : Regulation)
    (provider_data : gmap string value) (score : Z) (data_used : gmap string value) : string :=
  match generate env (scoring_reasoning_prompt env regulation provider_data score data_used) with
  | inr response => content response
  | inl e => "Scoring reasoning generation failed: " +:+ exn_msg e
  end.

(** [_parse_mapping_response] *)
Definition _parse_mapping_response (env : Env) (response_content : string)
  : gmap string value :=
  default ∅ (json_search env response_content).

(** [_fallback_mapping] *)
Definition _fallback_mapping (regulations : list Regulation) : gmap string value :=
  fold_left (fun (mapped_data : gmap string value) regulation =>
               <[reg_id regulation :=
                   VDict (list_to_map
                     [ ("data_fields", strs (default [] (data_fields regulation)));
                       ("mapping_confidence", VFloat 0.5);
                       ("reasoning", VStr "Fallback mapping based on regulation data_fields") ])]>
               mapped_data)
            regulations ∅.

(** [_map_data_to_regulations] *)
Definition _map_data_to_regulations (env : Env) (provider_data : gmap string value)
    (regulations : list Regulation) : gmap string value :=
  let prompt := _create_mapping_prompt env provider_data regulations in
  match generate env prompt with
  | inr response => _parse_mapping_response env (content response)
  | inl _ => _fallback_mapping regulations
  end.

(** [_process_credentialing_api_response] *)
Definition _process_credentialing_api_response (env : Env) (api_response : string)
  : gmap string value :=
  let fallback : gmap string value :=
    list_to_map [ ("verification_status", VStr "processed");
                  ("confidence", VFloat 0.5);
                  ("raw_response", VStr api_response) ] in
  match generate env (api_response_prompt api_response) with
  | inr response => default fallback (json_search env (content response))
  | inl _ => fallback
  end.

(** The simulated answer of the external credentialing API. *)
Definition api_response : gmap string value :=
  list_to_map
    [ ("license_verification", VStr "Verified");
      ("disciplinary_check", VStr "Clean");
      ("malpractice_verification", VStr "Active");
      ("board_certification", VStr "Verified");
      ("background_check", VStr "Passed");
      ("education_verification", VStr "Verified");
      ("hospital_privileges", VStr "Confirmed");
      ("insurance_verification", VStr "Active") ].

(** [_verify_with_credentialing_api] *)
Definition _verify_with_credentialing_api (env : Env) (mapped_data : gmap string value)
  : gmap string value :=
  let processed_response :=
    _process_credentialing_api_response env (json_dumps env (VDict api_response)) in
  list_to_map
    [ ("api_response", VDict api_response);
      ("processed_response", VDict processed_response);
      ("verification_timestamp", VFloat (verification_time env)) ].

(** *** Hard-regulation phase *)

Definition mk_HardRegulationResult (regulation : Regulation) (passed : bool)
    (relevant_data : gmap string value) : HardRegulationResult :=
  {| hr_regulation_id := reg_id regulation;
     hr_regulation_name := reg_name regulation;
     passed := passed;
     hr_details := relevant_data;
     failure_reason :=
       if passed then None
       else Some ("Failed to meet " +:+ reg_name regulation +:+ " requirements") |}.

(** The [for i, response in enumerate(llm_responses)] loop.  [results] is
    the list the loop appends to; when an iteration raises, the exception
    comes back together with what was appended before it. *)
Fixpoint process_hard_responses (env : Env) (provider_data : gmap string value)
    (regulation_data : list (Regulation * gmap string value))
    (i : nat) (llm_responses : list LLMResponse)
    (results : list HardRegulationResult) (st : state)
  : option exn * list HardRegulationResult * state :=
  match llm_responses with
  | [] => (None, results, st)
  | response :: rest =>
      match regulation_data !! i with
      | None => (Some (Exn "IndexError" "list index out of range"), results, st)
      | Some (regulation, relevant_data) =>
          match _parse_hard_regulation_response (content response) regulation with
          | inl e => (Some e, results, st)
          | inr passed =>
              let reasoning :=
                _generate_regulation_reasoning env regulation provider_data passed relevant_data in
              let '(_, st') :=
                logger (LogRegulationCheck (reg_id regulation) (reg_name regulation)
                          passed reasoning) st in
              process_hard_responses env provider_data regulation_data (S i) rest
                (results ++ [mk_HardRegulationResult regulation passed relevant_data]) st'
          end
      end
  end.

(** The sequential loop of the [except] branch: the deterministic rule on
    each configured regulation, appending to the same [results]. *)
Fixpoint validate_sequentially (env : Env)
    (provider_data verification_details : gmap string value)
    (hard_regulations : list Regulation) (results : list HardRegulationResult)
  : M (list HardRegulationResult) :=
  match hard_regulations with
  | [] => retM results
  | regulation :: rest =>
      let relevant_data :=
        _extract_regulation_data regulation provider_data verification_details in
      passed <- liftM (_validate_hard_regulation regulation relevant_data) ;;
      let reasoning :=
        _generate_regulation_reasoning env regulation provider_data passed relevant_data in
      logger (LogRegulationCheck (reg_id regulation) (reg_name regulation) passed reasoning) ;;;
      validate_sequentially env provider_data verification_details rest
        (results ++ [mk_HardRegulationResult regulation passed relevant_data])
  end.

Definition hard_regulation_data (cfg : Config)
    (provider_data verification_details : gmap string value)
  : list (Regulation * gmap string value) :=
  map (fun regulation =>
         (regulation, _extract_regulation_data regulation provider_data verification_details))
      (cfg_hard_regulations cfg).

Definition hard_regulation_prompts (env : Env) (cfg : Config)
    (provider_data verification_details : gmap string value) : list string :=
  map (fun '(regulation, relevant_data) =>
         _create_hard_regulation_prompt env regulation provider_data relevant_data)
      (hard_regulation_data cfg provider_data verification_details).

(** [_check_hard_regulations] *)
Definition _check_hard_regulations (env : Env) (cfg : Config)
    (provider_data verification_details : gmap string value)
  : M (list HardRegulationResult) :=
  fun st =>
    let regulation_data := hard_regulation_data cfg provider_data verification_details in
    let regulation_prompts := hard_regulation_prompts env cfg provider_data verification_details in
    let '(raised, results, st1) :=
      match generate_batch_async env regulation_prompts with
      | inl e => (Some e, [], st)
      | inr llm_responses =>
          process_hard_responses env provider_data regulation_data 0 llm_responses [] st
      end in
    match raised with
    | None => (inr results, st1)
    | Some e =>
        (logger (LogStep "hard_regulations_batch_failed"
                   ("Batch processing failed, falling back to sequential processing: "
                    +:+ exn_msg e)) ;;;
         validate_sequentially env provider_data verification_details
           (cfg_hard_regulations cfg) results) st1
    end.

(** *** Soft-regulation phase *)

Definition mk_SoftRegulationResult (regulation : Regulation) (score : Z)
    (relevant_data : gmap string value) : SoftRegulationResult :=
  let weight := reg_weight regulation in
  {| sr_regulation_id := reg_id regulation;
     sr_regulation_name := reg_name regulation;
     score := score;
     max_score := 5;
     weight := weight;
     weighted_score := (inject_Z score * weight)%Q;
     sr_details := relevant_data |}.

Fixpoint process_soft_responses (env : Env) (provider_data : gmap string value)
    (regulation_data : list (Regulation * gmap string value))
    (i : nat) (llm_responses : list LLMResponse)
    (results : list SoftRegulationResult) (st : state)
  : option exn * list SoftRegulationResult * state :=
  match llm_responses with
  | [] => (None, results, st)
  | response :: rest =>
      match regulation_data !! i with
      | None => (Some (Exn "IndexError" "list index out of range"), results, st)
      | Some (regulation, relevant_data) =>
          match _parse_soft_regulation_response env (content response) regulation with
          | inl e => (Some e, results, st)
          | inr score =>
              let reasoning :=
                _generate_scoring_reasoning env regulation provider_data score relevant_data in
              let '(_, st') :=
                logger (LogScoring (reg_id regulation) (reg_name regulation) score 5 reasoning) st in
              process_soft_responses env provider_data regulation_data (S i) rest
                (results ++ [mk_SoftRegulationResult regulation score relevant_data]) st'
          end
      end
  end.

Fixpoint score_sequentially (env : Env) (provider_data : gmap string value)
    (soft_regulations : list Regulation) (results : list SoftRegulationResult)
  : M (list SoftRegulationResult) :=
  match soft_regulations with
  | [] => retM results
  | regulation :: rest =>
      let relevant_data := _extract_regulation_data regulation provider_data ∅ in
      score <- liftM (_score_soft_regulation regulation relevant_data) ;;
      let reasoning :=
        _generate_scoring_reasoning env regulation provider_data score relevant_data in
      logger (LogScoring (reg_id regulation) (reg_name regulation) score 5 reasoning) ;;;
      score_sequentially env provider_data rest
        (results ++ [mk_SoftRegulationResult regulation score relevant_data])
  end.

(** [_score_soft_regulations] *)
Definition _score_soft_regulations (env : Env) (cfg : Config)
    (provider_data : gmap string value) : M (list SoftRegulationResult) :=
  fun st =>
    let regulation_data :=
      map (fun regulation => (regulation, _extract_regulation_data regulation provider_data ∅))
          (cfg_soft_regulations cfg) in
    let regulation_prompts :=
      map (fun '(regulation, relevant_data) =>
             _create_soft_regulation_prompt env regulation provider_data relevant_data)
          regulation_data in
    let '(raised, results, st1) :=
      match generate_batch_async env regulation_prompts with
      | inl e => (Some e, [], st)
      | inr llm_responses =>
          process_soft_responses env provider_data regulation_data 0 llm_responses [] st
      end in
    match raised with
    | None => (inr results, st1)
    | Some e =>
        (logger (LogStep "soft_regulations_batch_failed"
                   ("Batch processing failed, falling back to sequential processing: "
                    +:+ exn_msg e)) ;;;
         score_sequentially env provider_data (cfg_soft_regulations cfg) results) st1
    end.

(** *** The orchestrator *)

(** [a / b] on numbers. *)
Definition py_div (a b : Q) : res Q :=
  if Qeq_bool b 0 then raise "ZeroDivisionError" "division by zero"
  else ret (a / b)%Q.

Definition of_nat (n : nat) : Q := inject_Z (Z.of_nat n).

(** The session identifier built by [CredentialingLogger.__init__]. *)
Definition session_id (env : Env) (provider_id : string) : string :=
  provider_id +:+ "_" +:+ now_text env.

(** [settings.LOGS_DIR] *)
Definition LOGS_DIR : string := "logs".

(** [CredentialingLogger(provider_id)]: a fresh in-memory session log and
    a file handler on [logs/credentialing_<session_id>.log], opened at
    once. *)
Definition CredentialingLogger (env : Env) (provider_id : string) : M unit :=
  fun st =>
    match open_log_file env
            (LOGS_DIR +:+ "/credentialing_" +:+ session_id env provider_id +:+ ".log") with
    | inl e => (inl e, st)
    | inr _ => (inr tt, {| session_log := [];
                           audit_trail := audit_trail st;
                           credentialing_results := credentialing_results st |})
    end.

(** [{result.regulation_id: result.passed for result in ...}] *)
Definition hard_regulations_map (results : list HardRegulationResult) : gmap string bool :=
  fold_left (fun (m : gmap string bool) result =>
               <[hr_regulation_id result := passed result]> m) results ∅.

(** [{result.regulation_id: result.score for result in ...}] *)
Definition soft_regulations_map (results : list SoftRegulationResult) : gmap string Z :=
  fold_left (fun (m : gmap string Z) result =>
               <[sr_regulation_id result := score result]> m) results ∅.

(** The [llm_usage] placeholder both results carry. *)
Definition no_llm_usage : gmap string value :=
  list_to_map [ ("total_requests", VInt 0); ("total_tokens", VInt 0);
                ("total_cost", VFloat 0) ].

(** [ReportService.generate_credentialing_report]
    ([services/report_service.py]): the method logs an audit event of its
    own, on the same audit logger, before it returns the report or raises
    again. *)
Definition ReportService_generate_credentialing_report (env : Env)
    (provider_id session_id : string) : M (gmap string value) :=
  match generate_credentialing_report env provider_id session_id with
  | inr report =>
      log_audit_event "comprehensive_report_generated" ;;;
      retM report
  | inl e =>
      log_audit_event "comprehensive_report_generation_failed" ;;;
      raiseM (Exn "Exception"
                ("Failed to generate comprehensive report for session "
                 +:+ session_id +:+ ": " +:+ exn_msg e))
  end.

(** The report step, with its own [try]/[except]: the service is
    imported and built, the report generated, and an audit event logged
    that reads the report; a failure of any of these is recorded as an
    audit event and nothing else. *)
Definition generate_report (env : Env) (provider_id : string) : M unit :=
  try_except
    (liftM (report_service env) ;;;
     report <- ReportService_generate_credentialing_report env provider_id
                 (session_id env provider_id) ;;
     liftM (py_get (default (VDict ∅) (report !! "report_metadata")) "report_id" VNone) ;;;
     log_audit_event "comprehensive_report_generated")
    (fun _ => log_audit_event "comprehensive_report_generation_failed").

(** The body of the [try] block of [credential_provider]. *)
Definition pipeline (env : Env) (cfg : Config) (provider_id : string)
  : M CredentialingResult :=
  (* Step 0: Get provider data *)
  logger (LogStep "provider_data_retrieval"
            ("Retrieving provider data for " +:+ provider_id)) ;;;
  match providers cfg !! provider_id with
  | None => raiseM (Exn "ValueError" ("Provider " +:+ provider_id +:+ " not found"))
  | Some provider =>
      let provider_data := get_all_data provider in
      let hard := cfg_hard_regulations cfg in
      let soft := cfg_soft_regulations cfg in
      logger (LogDataPoints "provider_data_retrieval"
                {[ "provider_experience" := VInt (years_experience (p_WorkHistory provider)) ]}) ;;;
      (* Step 1: Map data to regulations using LLM *)
      logger (LogStep "data_mapping_initiation"
                "Starting LLM-powered data mapping to match provider data with regulatory requirements") ;;;
      let mapped_data := _map_data_to_regulations env provider_data (hard ++ soft) in
      mapping_quality <- liftM (py_div (of_nat (size mapped_data))
                                       (of_nat (List.length hard + List.length soft))) ;;
      logger (LogDataPoints "data_mapping_complete"
                {[ "mapping_quality" := VFloat mapping_quality ]}) ;;;
      (* Step 2: Send data to credentialing API for verification *)
      logger (LogStep "api_verification_initiation"
                "Initiating external credentialing API verification for mapped data") ;;;
      let verification_details := _verify_with_credentialing_api env mapped_data in
      logger (LogDataPoints "api_verification_complete" ∅) ;;;
      (* Step 3: Check hard regulations *)
      logger (LogStep "hard_regulation_check_initiation"
                "Starting hard regulation compliance checks") ;;;
      hard_regulation_results <-
        _check_hard_regulations env cfg provider_data verification_details ;;
      let passed_hard_regs := List.length (filter (fun r => passed r = true) hard_regulation_results) in
      let total_hard_regs := List.length hard_regulation_results in
      logger (LogDecision "hard_regulations_summary"
                {[ "passed_count" := VInt (Z.of_nat passed_hard_regs);
                   "total_count" := VInt (Z.of_nat total_hard_regs) ]}
                (if (0 <? total_hard_regs)%nat
                 then (of_nat passed_hard_regs / of_nat total_hard_regs)%Q else 0%Q)) ;;;
      (* Step 4: Score soft regulations *)
      logger (LogStep "soft_regulation_scoring_initiation"
                "Starting soft regulation scoring") ;;;
      soft_regulation_results <- _score_soft_regulations env cfg provider_data ;;
      let avg_soft_score :=
        match soft_regulation_results with
        | [] => 0%Q
        | _ => (inject_Z (fold_left Z.add (map score soft_regulation_results) 0%Z)
                / of_nat (List.length soft_regulation_results))%Q
        end in
      logger (LogDecision "soft_regulations_summary"
                {[ "average_score" := VFloat avg_soft_score ]} (avg_soft_score / 5)%Q) ;;;
      (* Step 5: Calculate overall score and compliance status *)
      let overall_score := _calculate_overall_score soft_regulation_results in
      let compliance_status := _determine_compliance_status hard_regulation_results in
      logger (LogDecision "final_compliance_decision"
                {[ "compliance_status" := VStr (status_value compliance_status);
                   "overall_score" := VInt overall_score ]}
                (match compliance_status with COMPLIANT => 1%Q | _ => 0%Q end)) ;;;
      (* Step 6: Create result *)
      let processing_time := (end_time env - start_time env)%Q in
      result <- liftM (validate_CredentialingResult
        {| provider_id := provider_id;
           timestamp := now_text env;
           cr_score := overall_score;
           compliance_status := compliance_status;
           hard_regulations := hard_regulations_map hard_regulation_results;
           soft_regulations := soft_regulations_map soft_regulation_results;
           mapped_data := mapped_data;
           verification_details := verification_details;
           hard_regulation_results := hard_regulation_results;
           soft_regulation_results := soft_regulation_results;
           llm_usage := no_llm_usage;
           processing_time := processing_time;
           errors := [];
           warnings := [] |}) ;;
      logger (LogFinalResult (to_dict result)) ;;;
      logger LogSaved ;;;
      store_result provider_id result ;;;
      log_audit_event "credentialing_completed" ;;;
      logger LogSaved ;;;
      generate_report env provider_id ;;;
      retM result
  end.

(** The [except Exception as e] branch of [credential_provider]. *)
Definition error_handler (env : Env) (provider_id : string) (e : exn)
  : M CredentialingResult :=
  let processing_time := (end_time env - start_time env)%Q in
  logger (LogStep "credentialing_error"
            ("Credentialing process failed: " +:+ exn_msg e)) ;;;
  log_audit_event "credentialing_failed" ;;;
  error_result <- liftM (validate_CredentialingResult
    {| provider_id := provider_id;
       timestamp := now_text env;
       cr_score := 1;
       compliance_status := FAILED;
       hard_regulations := ∅;
       soft_regulations := ∅;
       mapped_data := ∅;
       verification_details := ∅;
       hard_regulation_results := [];
       soft_regulation_results := [];
       llm_usage := no_llm_usage;
       processing_time := processing_time;
       errors := [exn_msg e];
       warnings := [] |}) ;;
  logger (LogFinalResult (to_dict error_result)) ;;;
  logger LogSaved ;;;
  retM error_result.

(** [credential_provider]: the session logger and the first audit event
    come before the [try] block. *)
Definition credential_provider (env : Env) (cfg : Config) (provider_id : string)
  : M CredentialingResult :=
  CredentialingLogger env provider_id ;;;
  log_audit_event "credentialing_started" ;;;
  try_except (pipeline env cfg provider_id) (error_handler env provider_id).

End Service.

(* ================================================================== *)
(** ** Batch scheduling ([utils/llm_async/llm.py], [bedrock_llm.py]) *)
(* ================================================================== *)

Module Batch.
Import PyStr Py.
Local Open Scope list_scope.

(** How an awaited computation ends: with a value, with an exception, or
    never (a call that does not complete hangs the gather). *)
Inductive outcome (A : Type) : Type :=
| Returned (a : A)
| Raised (e : exn)
| Hung.
Arguments Returned {A} a.
Arguments Raised {A} e.
Arguments Hung {A}.

(** What the event loop observes of the vendor calls; a call is named by
    its launch ordinal. *)
Inductive event :=
| Launch (call : nat)
| Done (call : nat)
| Failed (call : nat).

(** Counters of the running process: calls launched and UUIDs drawn. *)
Record loop := { launched : nat; drawn : nat }.

Section Scheduler.
Context {Prompt Response : Type}.

(** The world the scheduler runs in. *)
Record World := {
  (** what [generate_async(prompt)] yields for the call with this ordinal *)
  vendor : nat -> Prompt -> exn + Response;
  (** for the gather that starts at ordinal [base] over [n] tasks: the
      task indices in the order in which the tasks complete *)
  completion : nat -> nat -> list nat;
  (** the [k]-th value of [str(uuid.uuid4())] *)
  uuid4 : nat -> string
}.

(** An awaitable, given the loop counters: its outcome, the counters
    afterwards and the events it adds to the trace. *)
Definition Aw (A : Type) : Type := loop -> outcome A * loop * list event.

Definition retA {A} (a : A) : Aw A := fun st => (Returned a, st, []).

Definition bindA {A B} (m : Aw A) (f : A -> Aw B) : Aw B :=
  fun st =>
    match m st with
    | (Returned a, st', evs) =>
        let '(o, st'', evs') := f a st' in (o, st'', evs ++ evs')
    | (Raised e, st', evs) => (Raised e, st', evs)
    | (Hung, st', evs) => (Hung, st', evs)
    end.

(** A coroutine that awaits one [generate_async] call and then applies
    [k] to its response. *)
Definition task (A : Type) : Type := Prompt * (Response -> A).

(** Tasks finishing one after the other in the given order.  A task that
    returns fills its slot; the first one that raises ends the gather. *)
Fixpoint collect {A} (w : World) (base : nat) (tasks : list (task A))
    (order : list nat) (slots : gmap nat A) : (exn + gmap nat A) * list event :=
  match order with
  | [] => (inr slots, [])
  | idx :: rest =>
      match tasks !! idx with
      | None => collect w base tasks rest slots
      | Some (prompt, k) =>
          match vendor w (base + idx) prompt with
          | inl e => (inl e, [Failed (base + idx)])
          | inr r =>
              let '(o, evs) := collect w base tasks rest (<[idx := k r]> slots) in
              (o, Done (base + idx) :: evs)
          end
      end
  end.

(** [await asyncio.gather] on the unpacked task list: every task is launched, in list
    order; the results come back in that same order whatever the order
    of completion; the first exception is propagated. *)
Definition gather {A} (w : World) (tasks : list (task A)) : Aw (list A) :=
  fun st =>
    let base := launched st in
    let n := List.length tasks in
    let st' := {| launched := base + n; drawn := drawn st |} in
    let launches := map (fun i => Launch (base + i)) (seq 0 n) in
    match collect w base tasks (completion w base n) ∅ with
    | (inl e, evs) => (Raised e, st', launches ++ evs)
    | (inr slots, evs) =>
        match mapM (fun i => slots !! i) (seq 0 n) with
        | Some results => (Returned results, st', launches ++ evs)
        | None => (Hung, st', launches ++ evs)
        end
    end.

(** [range(start, stop, step)] for a positive step. *)
Fixpoint range_from (fuel start stop step : nat) : list nat :=
  match fuel with
  | O => []
  | S fuel' =>
      if (start <? stop)%nat
      then start :: range_from fuel' (start + step) stop step
      else []
  end.

Definition py_range (start stop step : nat) : list nat :=
  range_from stop start stop step.

(** [l[i:j]] *)
Definition slice {A} (l : list A) (i j : nat) : list A := take (j - i) (drop i l).

(** The concurrency cap written as the literal [50] in the source. *)
Definition WAVE_SIZE : nat := 50.

(** [self.generate_async(prompt)] as a task. *)
Definition generate_async (prompt : Prompt) : task Response := (prompt, fun r => r).

(** The [for i in range(0, len(prompts), 50)] loop of the default
    implementation. *)
Fixpoint run_waves (w : World) (prompts : list Prompt) (starts : list nat)
    (results : list Response) : Aw (list Response) :=
  match starts with
  | [] => retA results
  | i :: rest =>
      let batch := slice prompts i (i + WAVE_SIZE) in
      bindA (gather w (map generate_async batch)) (fun batch_results =>
      run_waves w prompts rest (results ++ batch_results))
  end.

(** [LLMProvider.generate_batch_async], inherited by the GPT adapter. *)
Definition generate_batch_async (w : World) (prompts : list Prompt)
  : Aw (list Response) :=
  if (List.length prompts <=? WAVE_SIZE)%nat
  then gather w (map generate_async prompts)
  else run_waves w prompts (py_range 0 (List.length prompts) WAVE_SIZE) [].

(** [LLMProvider.generate_batch]: one call after the other. *)
Fixpoint generate_batch (w : World) (prompts : list Prompt) : Aw (list Response) :=
  match prompts with
  | [] => retA []
  | prompt :: rest =>
      bindA (gather w [generate_async prompt]) (fun r =>
      bindA (generate_batch w rest) (fun rs => retA (r ++ rs)))
  end.

(** [BedrockLLMProvider._generate_async_with_uid] *)
Definition _generate_async_with_uid (prompt : Prompt) (uid : string)
  : task (string * Response) := (prompt, fun response => (uid, response)).

(** Drawing one UUID per prompt. *)
Definition draw_uids (w : World) (n : nat) : Aw (list string) :=
  fun st =>
    (Returned (map (fun i => uuid4 w (drawn st + i)) (seq 0 n)),
     {| launched := launched st; drawn := drawn st + n |}, []).

(** [{uid: response for uid, response in results}] *)
Definition response_map_of (results : list (string * Response)) : gmap string Response :=
  fold_left (fun (m : gmap string Response) ur => <[ur.1 := ur.2]> m) results ∅.

(** [BedrockLLMProvider.generate_batch_async] *)
Definition bedrock_generate_batch_async (w : World) (prompts : list Prompt)
  : Aw (list Response) :=
  bindA (draw_uids w (List.length prompts)) (fun prompt_uids =>
  let tasks := zip_with _generate_async_with_uid prompts prompt_uids in
  bindA (gather w tasks) (fun results =>
  let response_map := response_map_of results in
  match mapM (fun uid => response_map !! uid) prompt_uids with
  | Some ordered_responses => retA ordered_responses
  | None => fun st => (Raised (Exn "KeyError" "uid"), st, [])
  end)).

(** The two adapters behind the unified provider. *)
Inductive Adapter := BedrockLLMProvider | GPTLLMProvider.

(** [UnifiedLLMProvider._select_provider] *)
Definition _select_provider (model_name : string) : res Adapter :=
  let model_name_lower := lower model_name in
  if startswith "anthropic" model_name_lower || startswith "amazon" model_name_lower
  then ret BedrockLLMProvider
  else if startswith "gpt-" model_name_lower || startswith "openai" model_name_lower
  then ret GPTLLMProvider
  else raise "ValueError" ("Unknown or unsupported model name: " +:+ model_name).

(** [UnifiedLLMProvider.__init__]: the model name defaults to ["gpt-4.1"]. *)
Definition UnifiedLLMProvider (model_name : option string) : res Adapter :=
  _select_provider (default "gpt-4.1" model_name).

(** [UnifiedLLMProvider.generate_batch_async]: delegation to the
    selected adapter. *)
Definition provider_generate_batch_async (provider : Adapter) (w : World)
    (prompts : list Prompt) : Aw (list Response) :=
  match provider with
  | BedrockLLMProvider => bedrock_generate_batch_async w prompts
  | GPTLLMProvider => generate_batch_async w prompts
  end.

(** What the [i]-th task of a gather started at ordinal [base] yields. *)
Definition task_outcome {A} (w : World) (base : nat) (tasks : list (task A))
    (i : nat) : option (exn + A) :=
  match tasks !! i with
  | Some (prompt, k) =>
      Some (match vendor w (base + i) prompt with
            | inl e => inl e
            | inr r => inr (k r)
            end)
  | None => None
  end.

(** [rs] answers [prompts], position by position: the [i]-th response is
    what the call made for the [i]-th prompt returned. *)
Definition answers (w : World) (base : nat) (prompts : list Prompt)
    (rs : list Response) : Prop :=
  List.length rs = List.length prompts
  /\ forall i p, prompts !! i = Some p ->
       exists r, rs !! i = Some r /\ vendor w (base + i) p = inr r.

(** Every call of the batch returns. *)
Definition all_calls_return (w : World) (base : nat) (prompts : list Prompt) : Prop :=
  forall i p, prompts !! i = Some p -> exists r, vendor w (base + i) p = inr r.

(** The waves the default implementation cuts a batch into. *)
Definition waves (prompts : list Prompt) : list (list Prompt) :=
  map (fun i => slice prompts i (i + WAVE_SIZE))
      (py_range 0 (List.length prompts) WAVE_SIZE).

Definition is_launch (ev : event) : bool :=
  match ev with Launch _ => true | _ => false end.

(** Calls in flight after a trace, starting from [cur]. *)
Fixpoint in_flight_from (cur : nat) (evs : list event) : nat :=
  match evs with
  | [] => cur
  | Launch _ :: rest => in_flight_from (S cur) rest
  | _ :: rest => in_flight_from (Nat.pred cur) rest
  end.

(** The largest number of calls in flight at any point of a trace. *)
Fixpoint peak_from (cur : nat) (evs : list event) : nat :=
  match evs with
  | [] => cur
  | Launch _ :: rest => Nat.max cur (peak_from (S cur) rest)
  | _ :: rest => Nat.max cur (peak_from (Nat.pred cur) rest)
  end.

Definition peak_in_flight (evs : list event) : nat := peak_from 0 evs.

(** The wave a call of the batch started at ordinal [base] belongs to. *)
Definition wave_of (base call : nat) : nat := (call - base) / WAVE_SIZE.

(** Waves run one after the other: when a call is launched, every call
    of every earlier wave is already done. *)
Definition waves_sequential (base : nat) (evs : list event) : Prop :=
  forall a j, evs !! a = Some (Launch j) ->
  forall i, (base <= i)%nat -> (wave_of base i < wave_of base j)%nat ->
  exists a', (a' < a)%nat /\ evs !! a' = Some (Done i).

End Scheduler.

Arguments World : clear implicits.
Arguments task : clear implicits.

End Batch.

(* ================================================================== *)
(** ** The aggregation rule as the specification words it *)
(* ================================================================== *)

Module Spec.
Import Py Result Provider Service.

Definition clamp (lo hi x : Z) : Z := Z.max lo (Z.min hi x).

(** "overall score = round(sum(score * weight) / sum(weight)), clamped to
    [1,5], defaulting to 1 if there are no soft regulations or total
    weight is zero". *)
Definition overall_score_spec (results : list SoftRegulationResult) : Z :=
  let total_weight := py_sum (map weight results) in
  match results with
  | [] => 1%Z
  | _ =>
      if Qeq_bool total_weight 0 then 1%Z
      else clamp 1 5 (py_round
             (py_sum (map (fun r => inject_Z (score r) * weight r)%Q results)
              / total_weight))
  end.

(** "re-evaluates every hard regulation sequentially using deterministic
    rule logic": what the fallback records for one regulation of a
    provider. *)
Definition rule_result (provider : Provider) (verification_details : gmap string value)
    (regulation : Regulation) (result : HardRegulationResult) : Prop :=
  let relevant_data :=
    _extract_regulation_data regulation (get_all_data provider) verification_details in
  _validate_hard_regulation regulation relevant_data = inr (passed result)
  /\ result = mk_HardRegulationResult regulation (passed result) relevant_data.

(** The state in which the [try] block of [credential_provider] starts:
    a fresh session log and the first audit event written. *)
Definition session_start (st : state) : state :=
  {| session_log := [];
     audit_trail := (audit_trail st ++ ["credentialing_started"])%list;
     credentialing_results := credentialing_results st |}.

(** The path of the session's log file. *)
Definition log_file_path (env : Env) (provider_id : string) : string :=
  LOGS_DIR +:+ "/credentialing_" +:+ session_id env provider_id +:+ ".log".

End Spec.

(* ================================================================== *)
(** ** Sample data *)
(* ================================================================== *)

Module Examples.
Import PyStr Py Llm Result Provider Service.

Definition dr_smith : Provider :=
  {| p_provider_id := "P001";
     p_PersonalInfo := {[ "name" := VStr "Dr. Smith" ]};
     p_ProfessionalIds := {[ "license_number" := VStr "MD123456" ]};
     p_Educations := ∅;
     p_Specialties := {[ "primary_specialty" := VStr "Cardiology" ]};
     p_HospitalAffiliations := ∅;
     p_WorkHistory := {| employment_history := []; years_experience := 12 |};
     p_PLIs := {| malpractice_insurance := "Active"; coverage_amount := 1000000;
                  insurance_provider := "MedPro"; policy_number := "POL-1";
                  expiration_date := "2026-01-01" |};
     p_PracticeInformation := ∅;
     p_MalpracticeHistory := ∅;
     p_Disclosure := {| disciplinary_actions := ["2019 reprimand"];
                        criminal_record := "Clean";
                        license_suspensions := 0; voluntary_surrender := false |};
     p_BoardCertifications := {| board_certifications := ["ABIM"];
                                 certification_dates := ["2015"];
                                 expiration_dates := ["2025"];
                                 recertification_status := "Current" |};
     p_ContinuingEducation := {| cme_credits := 80; education_history := [];
                                 required_credits := 50;
                                 ce_compliance_status := "Compliant" |};
     p_PeerReferences := ∅;
     p_FinancialDisclosure := ∅;
     p_QualityMetrics := {| patient_satisfaction := 4.5; outcome_metrics := 4.2;
                            readmission_rate := 0.1; mortality_rate := 0.01;
                            quality_score := 4.3 |} |}.

Definition HR002 : Regulation :=
  {| reg_id := "HR002"; reg_name := "No Disciplinary Actions";
     data_fields := Some ["Disclosure"];
     requirements := None;
     validation_criteria := Some {[ "disciplinary_actions" := VStr "none" ]};
     scoring_criteria := None; reg_weight := 0 |}.

Definition HR003 : Regulation :=
  {| reg_id := "HR003"; reg_name := "Malpractice Insurance";
     data_fields := Some ["PLIs"];
     requirements := None;
     validation_criteria := Some {[ "malpractice_insurance" := VStr "Active" ]};
     scoring_criteria := None; reg_weight := 0 |}.

Definition SR001 : Regulation :=
  {| reg_id := "SR001"; reg_name := "Years of Experience";
     data_fields := Some ["WorkHistory"];
     requirements := None; validation_criteria := None;
     scoring_criteria := Some ∅; reg_weight := 0.4 |}.

Definition sample_config : Config :=
  {| providers := {[ "P001" := dr_smith ]};
     cfg_hard_regulations := [HR002; HR003];
     cfg_soft_regulations := [SR001] |}.

(** A logs directory without sub-directories: a log file can be opened
    when its name, after ["logs/"], has no further path separator. *)
Definition open_in_flat_logs (path : string) : res unit :=
  if startswith "logs/" path && negb (contains "/" (String.substring 5 (String.length path) path))
  then ret tt
  else raise "FileNotFoundError" ("[Errno 2] No such file or directory: " +:+ path).

(** An LLM backend that is down, and a report service that is absent. *)
Definition outage : Env :=
  {| generate := fun _ => raise "ConnectionError" "LLM backend unavailable";
     generate_batch_async := fun _ => raise "ConnectionError" "LLM backend unavailable";
     json_dumps := fun _ => "{}";
     json_search := fun _ => None;
     score_search := fun _ => None;
     report_service := raise "ImportError" "No module named services";
     generate_credentialing_report := fun _ _ => raise "ImportError" "No module named services";
     open_log_file := open_in_flat_logs;
     now_text := "20250101_120000";
     start_time := 100;
     verification_time := 101;
     end_time := 102 |}.

(** A configuration without hard regulations. *)
Definition soft_only_config : Config :=
  {| providers := {[ "P001" := dr_smith ]};
     cfg_hard_regulations := [];
     cfg_soft_regulations := [SR001] |}.

Definition empty_state : state :=
  {| session_log := []; audit_trail := []; credentialing_results := ∅ |}.

(** The three soft results of the specification's end-to-end scenario. *)
Definition soft_result (id : string) (s : Z) (w : Q) : SoftRegulationResult :=
  {| sr_regulation_id := id; sr_regulation_name := id; score := s; max_score := 5;
     weight := w; weighted_score := (inject_Z s * w)%Q; sr_details := ∅ |}.

Definition scenario_soft_results : list SoftRegulationResult :=
  [soft_result "SR1" 5 0.4; soft_result "SR2" 4 0.3; soft_result "SR3" 3 0.3].

Definition hard_result (id : string) (b : bool) : HardRegulationResult :=
  {| hr_regulation_id := id; hr_regulation_name := id; passed := b;
     hr_details := ∅; failure_reason := None |}.

(** The error result of a run of an unknown provider. *)
Definition failed_result : CredentialingResult :=
  {| provider_id := "P404"; timestamp := "20250101_120000"; cr_score := 1;
     compliance_status := FAILED; hard_regulations := ∅; soft_regulations := ∅;
     mapped_data := ∅; verification_details := ∅;
     hard_regulation_results := []; soft_regulation_results := [];
     llm_usage := no_llm_usage; processing_time := 2;
     errors := ["Provider P404 not found"]; warnings := [] |}.

(** A world for the scheduler: prompts and responses are numbers, a call
    answers its prompt with ten times the prompt, the tasks of a gather
    complete in reverse launch order and the UUIDs are the decimal
    numerals. *)
Definition reversed_world : Batch.World nat nat :=
  {| Batch.vendor := fun _ prompt => inr (prompt * 10)%nat;
     Batch.completion := fun _ n => rev (seq 0 n);
     Batch.uuid4 := pretty |}.

Definition fresh_loop : Batch.loop := {| Batch.launched := 0; Batch.drawn := 0 |}.

End Examples.

(* ================================================================== *)
(** ** Queries on the result store ([services/credentialing_service.py]) *)
(* ================================================================== *)

Module Store.
Import Py Result Provider Service.

(** [get_credentialing_result] *)
Definition get_credentialing_result (st : state) (provider_id : string)
  : option CredentialingResult :=
  credentialing_results st !! provider_id.

(** [get_all_results] *)
Definition get_all_results (st : state) : gmap string CredentialingResult :=
  credentialing_results st.

Definition is_COMPLIANT (s : ComplianceStatus) : bool :=
  match s with COMPLIANT => true | _ => false end.

(** [get_compliant_providers]: the ids whose stored result is COMPLIANT.
    The source lists them in the dictionary's insertion order, which the
    store of this model does not keep: the list is used up to order. *)
Definition get_compliant_providers (st : state) : list string :=
  (filter (fun kv => is_COMPLIANT (compliance_status kv.2) = true)
          (map_to_list (credentialing_results st))).*1.

(** [get_provider_score] *)
Definition get_provider_score (st : state) (provider_id : string) : option Z :=
  match get_credentialing_result st provider_id with
  | Some result => Some (cr_score result)
  | None => None
  end.

(** What outlives a session: the audit trail and the result store. *)
Definition books (st : state) : list string * gmap string CredentialingResult :=
  (audit_trail st, credentialing_results st).

(** The audit events of the report step: one failure event when the
    report service cannot be imported or built; otherwise the event the
    service logs itself, followed by the event [credential_provider]
    logs. *)
Definition report_events (env : Env) (provider_id : string) : list string :=
  match report_service env with
  | inl _ => ["comprehensive_report_generation_failed"]
  | inr _ =>
      match generate_credentialing_report env provider_id (session_id env provider_id) with
      | inl _ => ["comprehensive_report_generation_failed";
                  "comprehensive_report_generation_failed"]
      | inr report =>
          match py_get (default (VDict ∅) (report !! "report_metadata")) "report_id" VNone with
          | inr _ => ["comprehensive_report_generated"; "comprehensive_report_generated"]
          | inl _ => ["comprehensive_report_generated";
                      "comprehensive_report_generation_failed"]
          end
      end
  end.

End Store.

(* ================================================================== *)
(** ** The deterministic rules, read on the typed provider model *)
(* ================================================================== *)

Module Rules.
Import Py Result Provider Service.
Local Open Scope list_scope.

(** The regulation names the criterion among its validation criteria and
    the section among its data fields. *)
Definition wants (regulation : Regulation) (criterion section : string) : bool :=
  has_key criterion (default ∅ (validation_criteria regulation))
  && bool_decide (section ∈ default [] (data_fields regulation)).

Definition is_nil {A} (l : list A) : bool :=
  match l with [] => true | _ => false end.

(** The verdict of the rule on a provider's typed record. *)
Definition typed_verdict (regulation : Regulation) (provider : Provider) : bool :=
  if wants regulation "license_status" "ProfessionalIds" then true
  else if wants regulation "disciplinary_actions" "Disclosure"
          && negb (is_nil (disciplinary_actions (p_Disclosure provider))) then false
  else if wants regulation "malpractice_insurance" "PLIs"
          && negb (String.eqb (malpractice_insurance (p_PLIs provider)) "Active") then false
  else if wants regulation "board_certification" "BoardCertifications"
          && is_nil (board_certifications (p_BoardCertifications provider)) then false
  else if wants regulation "criminal_record" "Disclosure"
          && negb (String.eqb (criminal_record (p_Disclosure provider)) "Clean") then false
  else true.

(** The five bands of a scoring rule. *)
Definition band (x t5 t4 t3 t2 : Q) : Z :=
  if Qle_bool t5 x then 5
  else if Qle_bool t4 x then 4
  else if Qle_bool t3 x then 3
  else if Qle_bool t2 x then 2
  else 1.

Definition names_field (regulation : Regulation) (section : string) : bool :=
  bool_decide (section ∈ default [] (data_fields regulation)).

(** The score of the rule on a provider's typed record. *)
Definition typed_score (regulation : Regulation) (provider : Provider) : Z :=
  if String.eqb (reg_id regulation) "SR001" then
    if names_field regulation "WorkHistory"
    then band (inject_Z (years_experience (p_WorkHistory provider))) 16 11 6 3 else 3
  else if String.eqb (reg_id regulation) "SR002" then
    if names_field regulation "ContinuingEducation"
    then band (inject_Z (cme_credits (p_ContinuingEducation provider))) 100 76 51 26 else 3
  else if String.eqb (reg_id regulation) "SR003" then
    if names_field regulation "QualityMetrics"
    then band (quality_score (p_QualityMetrics provider)) 4.1 3.1 2.1 1.1 else 3
  else 3.

End Rules.

(* ================================================================== *)
(** ** Reasoning about service computations *)
(* ================================================================== *)

Module Track.
Import Py Llm Result Provider Service Store.
Local Open Scope list_scope.

(** The computation returns from every state. *)
Definition returns {A} (m : M A) : Prop :=
  forall st, exists a st', m st = (inr a, st').

(** When the computation raises, the books are as before; when it returns
    [a], the books before and after are related by [post a]. *)
Definition tracks {A} (m : M A)
    (post : A -> list string * gmap string CredentialingResult
              -> list string * gmap string CredentialingResult -> Prop) : Prop :=
  forall st r st', m st = (r, st') ->
    match r with
    | inl _ => books st' = books st
    | inr a => post a (books st) (books st')
    end.

(** The computation only writes the session log. *)
Definition quiet {A} (m : M A) : Prop := tracks m (fun _ b b' => b' = b).

(** The result recorded for a regulation and the model's answer to its
    prompt. *)
Definition answered_result
    (entry : Regulation * gmap string value * LLMResponse)
    (result : HardRegulationResult) : Prop :=
  let '(regulation, relevant_data, response) := entry in
  _parse_hard_regulation_response (content response) regulation = inr (passed result)
  /\ result = mk_HardRegulationResult regulation (passed result) relevant_data.

Definition scored_result (env : Env)
    (entry : Regulation * gmap string value * LLMResponse)
    (result : SoftRegulationResult) : Prop :=
  let '(regulation, relevant_data, response) := entry in
  _parse_soft_regulation_response env (content response) regulation = inr (score result)
  /\ result = mk_SoftRegulationResult regulation (score result) relevant_data.

(** What the sequential loop of the soft phase records for a regulation. *)
Definition rule_score (provider : Provider) (regulation : Regulation)
    (result : SoftRegulationResult) : Prop :=
  let relevant_data := _extract_regulation_data regulation (get_all_data provider) ∅ in
  _score_soft_regulation regulation relevant_data = inr (score result)
  /\ result = mk_SoftRegulationResult regulation (score result) relevant_data.

(** What a run of the [try] block that returns [result] adds to the
    books: the completion event, the events of the report step, and the
    result under the provider's id. *)
Definition completed (env : Env) (provider_id : string) (result : CredentialingResult)
    (b b' : list string * gmap string CredentialingResult) : Prop :=
  b' = (b.1 ++ "credentialing_completed" :: report_events env provider_id,
        <[provider_id := result]> b.2).

(** The regulation data of the soft phase. *)
Definition soft_regulation_data (cfg : Config) (provider_data : gmap string value)
  : list (Regulation * gmap string value) :=
  map (fun regulation => (regulation, _extract_regulation_data regulation provider_data ∅))
      (cfg_soft_regulations cfg).

Definition soft_regulation_prompts (env : Env) (cfg : Config)
    (provider_data : gmap string value) : list string :=
  map (fun '(regulation, relevant_data) =>
         _create_soft_regulation_prompt env regulation provider_data relevant_data)
      (soft_regulation_data cfg provider_data).

End Track.

(* ================================================================== *)
(** ** Further sample data *)
(* ================================================================== *)

Module Scenarios.
Import PyStr Py Llm Result Provider Service Examples.

Definition passing_answer : LLMResponse :=
  mk_LLMResponse "PASS. Score: 4" 10 5 15 "gpt-4.1".

(** An LLM backend that answers every prompt with a passing verdict and
    the score 4; the report service is absent. *)
Definition answering : Env :=
  {| generate := fun _ => ret passing_answer;
     generate_batch_async := fun prompts => ret (map (fun _ => passing_answer) prompts);
     json_dumps := fun _ => "{}";
     json_search := fun _ => None;
     score_search := fun _ => Some 4%Z;
     report_service := raise "ImportError" "No module named services";
     generate_credentialing_report := fun _ _ => raise "ImportError" "No module named services";
     open_log_file := open_in_flat_logs;
     now_text := "20250101_120000";
     start_time := 100;
     verification_time := 101;
     end_time := 102 |}.

(** A configuration without any regulation. *)
Definition no_regulations_config : Config :=
  {| providers := {[ "P001" := dr_smith ]};
     cfg_hard_regulations := [];
     cfg_soft_regulations := [] |}.

(** A configuration whose only hard regulation asks for an active
    malpractice insurance. *)
Definition insured_config : Config :=
  {| providers := {[ "P001" := dr_smith ]};
     cfg_hard_regulations := [HR003];
     cfg_soft_regulations := [SR001] |}.


End Scenarios.

(* ================================================================== *)
(** ** Outcomes of a batch *)
(* ================================================================== *)

Module BatchOutcome.
Import Batch.
Local Open Scope list_scope.

(** The call made for one of the prompts of the batch raised [e]. *)
Definition call_failed_with {Prompt Response} (w : World Prompt Response)
    (base : nat) (prompts : list Prompt) (e : exn) : Prop :=
  exists i p, prompts !! i = Some p /\ vendor w (base + i) p = inl e.

End BatchOutcome.

(* ================================================================== *)
(** ** ASCII text *)
(* ================================================================== *)

Module Text.

(** [s.isascii()] *)
Definition isascii (s : string) : bool :=
  forallb (fun c => (nat_of_ascii c <? 128)%nat) (list_ascii_of_string s).

End Text.

(* ================================================================== *)
(** ** The overall score on Python floats *)
(* ================================================================== *)

(** [_calculate_overall_score] once more, with the two float fields of a
    soft result as IEEE binary64 values and the operations of Python on
    them, rounding included.  [Service._calculate_overall_score] is the
    same computation over exact rationals. *)
Module FloatScore.
Import Py.
Import PrimFloat.
Local Open Scope list_scope.

(** [SoftRegulationResult] ([models/credentialing_result.py]) *)
Record SoftRegulationResult := {
  regulation_id : string;
  regulation_name : string;
  score : Z;
  max_score : Z;
  weight : float;
  weighted_score : float;
  details : gmap string value
}.

(** [float(n)] for an int: the nearest float, ties to even, and
    [OverflowError] beyond the range of the floats. *)
Definition float_of_int (n : Z) : res float :=
  match SpecFloat.binary_normalize FloatOps.prec FloatOps.emax n 0 false with
  | SpecFloat.S754_infinity _ => raise "OverflowError" "int too large to convert to float"
  | sf => ret (FloatOps.SF2Prim sf)
  end.

(** [n * x] for an int [n] and a float [x] *)
Definition int_times (n : Z) (x : float) : res float :=
  bind (float_of_int n) (fun f => ret (f * x)%float).

(** [sum(...)] over floats: from the int [0], adding from left to right
    (the loop of CPython's [sum] up to 3.11). *)
Definition py_sum (l : list float) : float := fold_left add l zero.

(** [x == 0] *)
Definition eq_zero (x : float) : bool := (x =? zero)%float.

(** [round(x)] to an int: the nearest integer of the float's exact value,
    ties to the even one; NaN and the infinities raise. *)
Definition py_round (x : float) : res Z :=
  match FloatOps.Prim2SF x with
  | SpecFloat.S754_nan => raise "ValueError" "cannot convert float NaN to integer"
  | SpecFloat.S754_infinity _ =>
      raise "OverflowError" "cannot convert float infinity to integer"
  | SpecFloat.S754_zero _ => ret 0%Z
  | SpecFloat.S754_finite s m e =>
      let n := if s then Zneg m else Zpos m in
      ret (Py.py_round
             match e with
             | Z0 => inject_Z n
             | Zpos p => inject_Z (n * 2 ^ Zpos p)
             | Zneg p => Qmake n (2 ^ p)%positive
             end)
  end.

(** [_calculate_overall_score] *)
Definition _calculate_overall_score (soft_regulation_results : list SoftRegulationResult)
  : res Z :=
  match soft_regulation_results with
  | [] => ret 1%Z
  | _ =>
      let total_weighted_score := py_sum (map weighted_score soft_regulation_results) in
      let total_weight := py_sum (map weight soft_regulation_results) in
      if eq_zero total_weight then ret 1%Z
      else
        let overall_score := (total_weighted_score / total_weight)%float in
        bind (py_round overall_score) (fun rounded =>
        ret (Z.max 1 (Z.min 5 rounded)))
  end.

(** [[f(x) for x in l]] for an [f] that may raise. *)
Fixpoint for_each {A B} (f : A -> res B) (l : list A) : res (list B) :=
  match l with
  | [] => ret []
  | x :: l' => bind (f x) (fun y => bind (for_each f l') (fun ys => ret (y :: ys)))
  end.

(** "overall score = round(sum(score * weight) / sum(weight)), clamped to
    [1,5], defaulting to 1 if there are no soft regulations or total
    weight is zero", in Python's arithmetic. *)
Definition overall_score_spec (results : list SoftRegulationResult) : res Z :=
  match results with
  | [] => ret 1%Z
  | _ =>
      bind (for_each (fun r => int_times (score r) (weight r)) results) (fun products =>
      let total_weight := py_sum (map weight results) in
      if eq_zero total_weight then ret 1%Z
      else bind (py_round (py_sum products / total_weight)%float) (fun rounded =>
           ret (Z.max 1 (Z.min 5 rounded))))
  end.

(** A soft result as the scoring phase builds it: the weighted score is
    the product of score and weight. *)
Definition scored (id : string) (s : Z) (w : float) : SoftRegulationResult :=
  {| regulation_id := id; regulation_name := id; score := s; max_score := 5;
     weight := w;
     weighted_score := match int_times s w with inr p => p | inl _ => nan end;
     details := ∅ |}.

(** The end-to-end scenario of the specification: scores 5, 4, 3 with
    weights 0.4, 0.3, 0.3. *)
Definition scenario_soft_results : list SoftRegulationResult :=
  [scored "SR1" 5 0.4; scored "SR2" 4 0.3; scored "SR3" 3 0.3].

(** Scores 2 and 5 with weights 0.1 and 0.1: the float quotient is
    3.4999999999999996, just below the tie. *)
Definition near_tie : list SoftRegulationResult :=
  [scored "SR1" 2 0.1; scored "SR2" 5 0.1].

(** A result whose stored weighted score is not score times weight. *)
Definition mismatched : list SoftRegulationResult :=
  [ {| regulation_id := "SR1"; regulation_name := "SR1"; score := 5; max_score := 5;
       weight := 1; weighted_score := 1; details := ∅ |} ].

End FloatScore.

(* ================================================================== *)
(** * Properties *)
(* ================================================================== *)

(** ** Strings *)

Section PyStrFacts.
Import PyStr.

Lemma app_String c s t : String c s +:+ t = String c (s +:+ t).
Proof. reflexivity. Qed.

Lemma app_empty_l t : "" +:+ t = t.
Proof. reflexivity. Qed.

Lemma prefix_empty s : String.prefix "" s = true.
Proof. destruct s; reflexivity. Qed.

Lemma prefix_spec p s :
  String.prefix p s = true <-> exists post, s = p +:+ post.
Proof.
  revert s. induction p as [|c p IH]; intros s; simpl.
  - split; [intros _; exists s; reflexivity | destruct s; reflexivity].
  - destruct s as [|d s]; simpl.
    + split; [discriminate | intros [post H]; discriminate].
    + destruct (ascii_dec c d) as [->|Hne].
      * rewrite IH. split; intros [post H]; exists post.
        -- rewrite app_String. congruence.
        -- rewrite app_String in H. congruence.
      * split; [discriminate|]. intros [post H].
        rewrite app_String in H. congruence.
Qed.

Lemma contains_spec n h :
  contains n h = true <-> exists pre post, h = pre +:+ n +:+ post.
Proof.
  induction h as [|c h IH]; cbn [contains].
  - rewrite orb_false_r, prefix_spec. split.
    + intros [post H]. exists "", post. exact H.
    + intros (pre & post & H). destruct pre as [|d pre]; [|discriminate].
      exists post. exact H.
  - rewrite orb_true_iff, prefix_spec, IH. split.
    + intros [[post H]|(pre & post & H)].
      * exists "", post. exact H.
      * exists (String c pre), post. rewrite app_String. congruence.
    + intros (pre & post & H). destruct pre as [|d pre].
      * left. exists post. exact H.
      * right. exists pre, post. rewrite app_String in H. congruence.
Qed.

Lemma lower_app s t : lower (s +:+ t) = lower s +:+ lower t.
Proof.
  induction s as [|c s IH]; [reflexivity|].
  rewrite app_String. simpl. rewrite IH. reflexivity.
Qed.

Lemma lower_split s x y :
  lower s = x +:+ y -> exists a b, s = a +:+ b /\ lower a = x /\ lower b = y.
Proof.
  revert s. induction x as [|c x IH]; intros s H.
  - exists "", s. auto.
  - destruct s as [|d s]; [discriminate|].
    rewrite app_String in H. simpl in H. injection H as Hc Hs.
    destruct (IH _ Hs) as (a & b & -> & Ha & Hb).
    exists (String d a), b. simpl. rewrite Ha, Hc. auto.
Qed.

(** Searching the lower-cased text is searching up to letter case. *)
Lemma contains_lower tok text :
  contains tok (lower text) = true <-> occurs_ci tok text.
Proof.
  rewrite contains_spec. split.
  - intros (pre & post & H).
    destruct (lower_split _ _ _ H) as (a & bc & -> & Ha & Hbc).
    destruct (lower_split _ _ _ Hbc) as (b & c & -> & Hb & Hc).
    exists a, b, c. auto.
  - intros (pre & mid & post & -> & Hmid).
    exists (lower pre), (lower post). rewrite !lower_app, Hmid. reflexivity.
Qed.

Lemma contains_lstrip tok s :
  first_nonspace tok = true -> contains tok (lstrip s) = contains tok s.
Proof.
  intros Htok. induction s as [|a s IH]; [reflexivity|].
  cbn [lstrip]. destruct (is_space a) eqn:Ha; [|reflexivity].
  rewrite IH. cbn [contains].
  destruct tok as [|c t]; [destruct s; reflexivity|].
  cbn [String.prefix]. destruct (ascii_dec c a) as [->|]; [|reflexivity].
  simpl in Htok. rewrite Ha in Htok. discriminate.
Qed.

Lemma prefix_rstrip t s :
  last_nonspace t = true -> String.prefix t (rstrip s) = String.prefix t s.
Proof.
  revert t. induction s as [|a s IH]; intros t Ht; [reflexivity|].
  destruct t as [|c t]; [rewrite !prefix_empty; reflexivity|].
  assert (Ht' : last_nonspace t = true).
  { destruct t; [reflexivity|exact Ht]. }
  cbn [rstrip]. destruct (is_space a && is_empty (rstrip s)) eqn:E.
  - apply andb_true_iff in E as [Ha Hr].
    cbn [String.prefix]. destruct (ascii_dec c a) as [->|]; [|reflexivity].
    rewrite <- (IH t Ht'). destruct (rstrip s); [|discriminate].
    destruct t as [|c' t]; [|reflexivity].
    simpl in Ht. rewrite Ha in Ht. discriminate.
  - cbn [String.prefix]. destruct (ascii_dec c a); [|reflexivity].
    apply IH, Ht'.
Qed.

Lemma contains_rstrip tok s :
  last_nonspace tok = true -> contains tok (rstrip s) = contains tok s.
Proof.
  intros Htok. induction s as [|a s IH]; [reflexivity|].
  cbn [contains]. rewrite <- (prefix_rstrip tok (String a s) Htok), <- IH.
  cbn [rstrip]. destruct (is_space a && is_empty (rstrip s)) eqn:E.
  - apply andb_true_iff in E as [_ Hr].
    destruct (rstrip s); [|discriminate]. simpl.
    rewrite orb_false_r, orb_diag. reflexivity.
  - reflexivity.
Qed.

Lemma contains_strip tok s :
  first_nonspace tok = true -> last_nonspace tok = true ->
  contains tok (strip s) = contains tok s.
Proof.
  intros Hf Hl. unfold strip.
  rewrite contains_rstrip, contains_lstrip; auto.
Qed.
End PyStrFacts.

(** ** Parsing hard-regulation verdicts *)

Section ServiceFacts.
Import PyStr Py Result Provider Service.

Lemma has_key_empty {V} key : has_key key (∅ : gmap string V) = false.
Proof.
  unfold has_key. rewrite lookup_empty. apply bool_decide_eq_false.
  intros [x Hx]. discriminate.
Qed.

Lemma validate_empty_data regulation :
  _validate_hard_regulation regulation ∅ = inr true.
Proof.
  unfold _validate_hard_regulation, check_license_status, check_disciplinary_actions,
    check_malpractice_insurance, check_board_certification, check_criminal_record.
  rewrite has_key_empty, andb_false_r, !lookup_empty.
  repeat match goal with |- context [if ?b then _ else _] => destruct b end;
    reflexivity.
Qed.

Lemma parse_hard_cases text regulation :
  _parse_hard_regulation_response text regulation =
    if contains "fail" (lower text) then inr false
    else if contains "pass" (lower text) then inr true
    else _validate_hard_regulation regulation ∅.
Proof.
  unfold _parse_hard_regulation_response.
  rewrite !contains_strip by reflexivity.
  destruct (contains "fail" (lower text)), (contains "pass" (lower text)); reflexivity.
Qed.

Lemma not_occurs_ci tok text :
  ~ occurs_ci tok text <-> contains tok (lower text) = false.
Proof.
  rewrite <- contains_lower. destruct (contains tok (lower text)); split; congruence.
Qed.

(** C5: a response that contains "fail" in any letter case parses to
    failure, also when "pass" occurs too; one that contains "pass" and no
    "fail" parses to success; one with neither token gets the verdict of
    the deterministic rule on an empty data map.  The text of the
    tie-break example parses to failure. *)
Theorem C5_parse_hard_regulation_response text regulation :
  (occurs_ci "fail" text ->
     _parse_hard_regulation_response text regulation = inr false) /\
  (occurs_ci "pass" text -> ~ occurs_ci "fail" text ->
     _parse_hard_regulation_response text regulation = inr true) /\
  (~ occurs_ci "pass" text -> ~ occurs_ci "fail" text ->
     _parse_hard_regulation_response text regulation
     = _validate_hard_regulation regulation ∅) /\
  _parse_hard_regulation_response
    "The provider clearly does not FAIL any check. PASS." regulation = inr false.
Proof.
  split; [|split; [|split]]; rewrite parse_hard_cases.
  - intros H. apply contains_lower in H. rewrite H. reflexivity.
  - intros Hp Hf. apply contains_lower in Hp. apply not_occurs_ci in Hf.
    rewrite Hf, Hp. reflexivity.
  - intros Hp Hf. apply not_occurs_ci in Hp, Hf. rewrite Hf, Hp. reflexivity.
  - reflexivity.
Qed.

(** C9: on an empty data map the deterministic validator returns [True]
    for every regulation, hence a response with neither "pass" nor "fail"
    always parses to [True]: the parser calls the validator on an empty
    map, not on the regulation's extracted data. *)
Theorem C9_empty_data_fallback :
  (forall regulation, _validate_hard_regulation regulation ∅ = inr true) /\
  (forall text regulation,
      ~ occurs_ci "pass" text -> ~ occurs_ci "fail" text ->
      _parse_hard_regulation_response text regulation = inr true).
Proof.
  split; [exact validate_empty_data|].
  intros text regulation Hp Hf. rewrite parse_hard_cases.
  apply not_occurs_ci in Hp, Hf. rewrite Hf, Hp. apply validate_empty_data.
Qed.
End ServiceFacts.

(** ** Pricing, compliance status and score *)

Section AggregationFacts.
Import PyStr Py Result Provider Service Pricing.

(** C8: the lookup of ["gpt-4-turbo-preview-custom"] stops in the
    substring loop at the key ["gpt-4"], which precedes ["gpt-4-turbo"] in
    the table: the rate pair is (0.03, 0.06), neither the gpt-4-turbo pair
    (0.01, 0.03) nor the default pair. *)
Theorem C8_turbo_variant_priced_as_gpt4 :
  get_model_pricing "gpt-4-turbo-preview-custom" = (0.03, 0.06)%Q
  /\ get_model_pricing "gpt-4-turbo-preview-custom" = price "gpt-4"
  /\ get_model_pricing "gpt-4-turbo-preview-custom" <> price "gpt-4-turbo"
  /\ get_model_pricing "gpt-4-turbo-preview-custom" <> price "default".
Proof. repeat split; discriminate. Qed.

(** The [if "gpt-4" in model_name] branch of the pattern chain, which
    would price a turbo variant as gpt-4-turbo, is never reached: a name
    that contains "gpt-4" and is no key of the table is settled by the
    substring loop, at "gpt-4.1" or at "gpt-4". *)
Lemma gpt4_family_branch_unreachable name :
  let n := strip (lower name) in
  contains "gpt-4" n = true ->
  table_get n LLM_PRICING = None ->
  get_model_pricing name = price "gpt-4.1" \/ get_model_pricing name = price "gpt-4".
Proof.
  intros n Hc Hn. unfold get_model_pricing. fold n. rewrite Hn.
  unfold LLM_PRICING. cbn [family_scan].
  change (negb ("gpt-4.1" =? "default")%string) with true.
  change (negb ("gpt-4" =? "default")%string) with true.
  cbn [andb]. rewrite Hc.
  destruct (contains "gpt-4.1" n); [left|right]; reflexivity.
Qed.

Lemma determine_cases rs :
  _determine_compliance_status rs =
    match rs with
    | [] => FAILED
    | _ => if forallb passed rs then COMPLIANT else NON_COMPLIANT
    end.
Proof. destruct rs; reflexivity. Qed.

(** C6: the status is COMPLIANT exactly when the list of hard results is
    non-empty and every result passed; NON_COMPLIANT when it is non-empty
    and some result did not pass; FAILED, not COMPLIANT, when it is empty. *)
Theorem C6_determine_compliance_status rs :
  (_determine_compliance_status rs = COMPLIANT
     <-> rs <> [] /\ Forall (fun r => passed r = true) rs) /\
  (rs <> [] -> Exists (fun r => passed r = false) rs ->
     _determine_compliance_status rs = NON_COMPLIANT) /\
  (rs = [] -> _determine_compliance_status rs = FAILED
              /\ _determine_compliance_status rs <> COMPLIANT).
Proof.
  rewrite determine_cases. split; [|split].
  - destruct rs as [|r rs]; [split; [discriminate | intros [H _]; congruence]|].
    destruct (forallb passed (r :: rs)) eqn:E.
    + split; [|reflexivity]. intros _. split; [discriminate|].
      apply Forall_forall. intros x Hx.
      rewrite forallb_forall in E. apply E. apply list_elem_of_In, Hx.
    + split; [discriminate|]. intros [_ H].
      assert (forallb passed (r :: rs) = true); [|congruence].
      apply forallb_forall. intros x Hx.
      rewrite Forall_forall in H. apply H, list_elem_of_In, Hx.
  - intros Hne Hex. destruct rs as [|r rs]; [congruence|].
    destruct (forallb passed (r :: rs)) eqn:E; [|reflexivity].
    rewrite forallb_forall in E. apply Exists_exists in Hex as (x & Hx & Hp).
    rewrite (E x) in Hp; [discriminate|]. apply list_elem_of_In, Hx.
  - intros ->. split; [reflexivity | discriminate].
Qed.

Lemma all_values_empty : all_values ∅ = true.
Proof. unfold all_values. rewrite map_to_list_empty. reflexivity. Qed.

Lemma empty_hard_results_serialise self :
  hard_regulations self = hard_regulations_map [] ->
  compliance_status self = _determine_compliance_status [] ->
  to_dict self !! "is_compliant" = Some (VBool true)
  /\ to_dict self !! "compliance_status" = Some (VStr "FAILED").
Proof.
  intros Hh Hc. unfold to_dict. cbn [list_to_map foldr uncurry fst snd].
  rewrite !lookup_insert. cbn.
  unfold is_compliant. rewrite Hh, Hc. split; reflexivity.
Qed.

End AggregationFacts.

Section ScoreFacts.
Import PyStr Py Result Provider Service Spec.

Lemma py_round_nearest q : (Qabs (q - inject_Z (py_round q)) <= 1 # 2)%Q.
Proof.
  unfold py_round.
  pose proof (Qfloor_le q) as Hlo.
  pose proof (Qlt_floor q) as Hhi.
  set (f := Qfloor q) in *.
  assert (Hup : (q - inject_Z (f + 1) == (q - inject_Z f) - 1)%Q).
  { rewrite inject_Z_plus. ring. }
  assert (Hge : (0 <= q - inject_Z f)%Q).
  { apply (Qplus_le_l _ _ (inject_Z f)). ring_simplify. exact Hlo. }
  assert (Hlt : (q - inject_Z f < 1)%Q).
  { apply (Qplus_lt_l _ _ (inject_Z f)). ring_simplify.
    rewrite inject_Z_plus in Hhi.
    change (inject_Z 1) with 1%Q in Hhi.
    first [exact Hhi | rewrite Qplus_comm; exact Hhi]. }
  assert (Hdown : forall x, (0 <= x)%Q -> (x <= 1 # 2)%Q -> (Qabs x <= 1 # 2)%Q).
  { intros x H0 H1. rewrite Qabs_pos; assumption. }
  assert (Hupb : forall x, (1 # 2 <= x)%Q -> (x < 1)%Q -> (Qabs (x - 1) <= 1 # 2)%Q).
  { intros x H0 H1. rewrite Qabs_neg.
    - apply (Qplus_le_l _ _ (x - (1#2))). ring_simplify. exact H0.
    - apply (Qplus_le_l _ _ 1). ring_simplify. apply Qlt_le_weak, H1. }
  destruct (Qcompare (q - inject_Z f) (1 # 2)) eqn:E.
  - apply Qeq_alt in E.
    destruct (Z.even f).
    + apply Hdown; [exact Hge | rewrite E; apply Qle_refl].
    + rewrite Hup. apply Hupb; [rewrite E; apply Qle_refl | exact Hlt].
  - apply Qlt_alt in E. apply Hdown; [exact Hge | apply Qlt_le_weak, E].
  - apply Qgt_alt in E. rewrite Hup. apply Hupb; [apply Qlt_le_weak, E | exact Hlt].
Qed.

Lemma calculate_bounds rs : (1 <= _calculate_overall_score rs <= 5)%Z.
Proof.
  unfold _calculate_overall_score. destruct rs as [|r rs]; [lia|].
  destruct (Qeq_bool _ 0); lia.
Qed.

Lemma weighted_scores_map rs :
  Forall (fun r => weighted_score r = (inject_Z (score r) * weight r)%Q) rs ->
  map weighted_score rs = map (fun r => inject_Z (score r) * weight r)%Q rs.
Proof.
  induction 1 as [|r rs Hr _ IH]; [reflexivity|].
  cbn [map]. rewrite Hr, IH. reflexivity.
Qed.

Lemma calculate_is_spec rs :
  Forall (fun r => weighted_score r = (inject_Z (score r) * weight r)%Q) rs ->
  _calculate_overall_score rs = overall_score_spec rs.
Proof.
  intros Hw. unfold _calculate_overall_score, overall_score_spec, clamp.
  rewrite (weighted_scores_map rs Hw). reflexivity.
Qed.

End ScoreFacts.

(** ** The overall score on floats *)

Section FloatScoreFacts.
Import Py FloatScore.
Local Open Scope list_scope.

Lemma for_each_weighted rs :
  Forall (fun r => int_times (score r) (weight r) = inr (weighted_score r)) rs ->
  for_each (fun r => int_times (score r) (weight r)) rs = inr (map weighted_score rs).
Proof.
  induction 1 as [|r rs Hr _ IH]; [reflexivity|].
  cbn [for_each map]. rewrite Hr, IH. reflexivity.
Qed.

(** [round] returns on every finite float. *)
Lemma py_round_finite x :
  PrimFloat.is_finite x = true -> exists z, py_round x = inr z.
Proof.
  unfold PrimFloat.is_finite, py_round, FloatOps.Prim2SF.
  destruct (PrimFloat.is_nan x); [discriminate|].
  destruct (PrimFloat.is_infinity x); [discriminate|]. intros _.
  destruct (PrimFloat.is_zero x); [eexists; reflexivity|].
  destruct (FloatOps.Z.frexp x) as [r exp].
  destruct (SpecFloat.shr_fexp _ _ _ _ _) as [shr e'].
  destruct (SpecFloat.shr_m shr); eexists; reflexivity.
Qed.

Lemma calculate_clamped rs z :
  _calculate_overall_score rs = inr z -> (1 <= z <= 5)%Z.
Proof.
  unfold _calculate_overall_score. destruct rs as [|r rs].
  - intros H. injection H as <-. lia.
  - destruct (eq_zero _); [intros H; injection H as <-; lia|].
    destruct (py_round _) as [e|rounded]; [discriminate|].
    intros H. injection H as <-. lia.
Qed.

(** C7, as the code has it: the function sums the stored weighted
    scores.  On results whose weighted score is the product of score and
    weight, as the scoring phase builds them, it computes the formula
    round(sum(score * weight) / sum(weight)) clamped to [1,5], in
    Python's float arithmetic; what it returns lies in [1,5]; it returns
    1 on the empty list and when the total weight equals zero; and it does
    return whenever the quotient is a finite float. *)
Theorem C7_calculate_overall_score rs :
  Forall (fun r => int_times (score r) (weight r) = inr (weighted_score r)) rs ->
  _calculate_overall_score rs = overall_score_spec rs
  /\ (forall z, _calculate_overall_score rs = inr z -> (1 <= z <= 5)%Z)
  /\ (rs = [] -> _calculate_overall_score rs = inr 1%Z)
  /\ (eq_zero (py_sum (map weight rs)) = true -> _calculate_overall_score rs = inr 1%Z)
  /\ (PrimFloat.is_finite
        (PrimFloat.div (py_sum (map weighted_score rs)) (py_sum (map weight rs))) = true ->
      exists z, _calculate_overall_score rs = inr z).
Proof.
  intros Hw. split; [|split; [|split; [|split]]].
  - unfold _calculate_overall_score, overall_score_spec.
    rewrite (for_each_weighted rs Hw). destruct rs; reflexivity.
  - intros z. apply calculate_clamped.
  - intros ->. reflexivity.
  - intros Hz. unfold _calculate_overall_score.
    destruct rs; [reflexivity|]. rewrite Hz. reflexivity.
  - intros Hfin. unfold _calculate_overall_score.
    destruct rs as [|r rs]; [eexists; reflexivity|].
    destruct (eq_zero _); [eexists; reflexivity|].
    destruct (py_round_finite _ Hfin) as [z ->]. eexists; reflexivity.
Qed.

(** The end-to-end scenario of the specification. *)
Lemma C7_witness :
  _calculate_overall_score scenario_soft_results = overall_score_spec scenario_soft_results
  /\ _calculate_overall_score scenario_soft_results = inr 4%Z.
Proof.
  destruct (C7_calculate_overall_score scenario_soft_results) as (Heq & _).
  - repeat constructor.
  - split; [exact Heq|]. vm_compute. reflexivity.
Defined.

(** A stored weighted score of 1 for score 5 and weight 1: the function
    returns 1, the formula 5. *)
Lemma C7_counterexample :
  ~ (forall rs, _calculate_overall_score rs = overall_score_spec rs).
Proof.
  intros H. specialize (H mismatched). vm_compute in H. discriminate.
Qed.

(** Just below a tie: the float quotient of 0.7 and 0.2 rounds to 3. *)
Example near_tie_score : _calculate_overall_score near_tie = inr 3%Z.
Proof. vm_compute. reflexivity. Qed.
End FloatScoreFacts.

(** ** The hard-regulation phase *)

Section HardPhaseFacts.
Import PyStr Py Llm Result Provider Service Spec.
Local Open Scope list_scope.

Lemma extract_from_provider_data regulation provider_data verification_details k v :
  k <> "verification" ->
  _extract_regulation_data regulation provider_data verification_details !! k = Some v ->
  provider_data !! k = Some v.
Proof.
  intros Hk. unfold _extract_regulation_data.
  set (step := fun (relevant_data : gmap string value) field =>
                 match provider_data !! field with
                 | Some v => <[field := v]> relevant_data
                 | None => relevant_data
                 end).
  assert (Hfold : forall fields (acc : gmap string value),
             (forall k v, acc !! k = Some v -> provider_data !! k = Some v) ->
             forall k v, fold_left step fields acc !! k = Some v ->
                         provider_data !! k = Some v).
  { induction fields as [|f fields IH]; intros acc Hacc; [exact Hacc|].
    cbn [fold_left]. apply IH. intros k' v'. unfold step.
    destruct (provider_data !! f) eqn:Ef; [|apply Hacc].
    destruct (decide (f = k')) as [->|Hne].
    - rewrite lookup_insert_eq. congruence.
    - rewrite lookup_insert_ne by exact Hne. apply Hacc. }
  destruct (truthy_dict verification_details).
  - rewrite lookup_insert_ne by congruence.
    apply Hfold. intros k' v'. rewrite lookup_empty. discriminate.
  - apply Hfold. intros k' v'. rewrite lookup_empty. discriminate.
Qed.

Section TypedData.
Variables (regulation : Regulation) (provider : Provider)
          (verification_details : gmap string value).

Let data :=
  _extract_regulation_data regulation (get_all_data provider) verification_details.

Lemma data_Disclosure v :
  data !! "Disclosure" = Some v -> v = VDict (Disclosure_dict (p_Disclosure provider)).
Proof.
  intros H. apply extract_from_provider_data in H; [|discriminate].
  match type of H with _ !! ?k = _ =>
    match goal with |- _ = ?rhs =>
      assert (E : get_all_data provider !! k = Some rhs) by (vm_compute; reflexivity);
      rewrite E in H
    end
  end.
  congruence.
Qed.

Lemma data_PLIs v :
  data !! "PLIs" = Some v -> v = VDict (PLIs_dict (p_PLIs provider)).
Proof.
  intros H. apply extract_from_provider_data in H; [|discriminate].
  match type of H with _ !! ?k = _ =>
    match goal with |- _ = ?rhs =>
      assert (E : get_all_data provider !! k = Some rhs) by (vm_compute; reflexivity);
      rewrite E in H
    end
  end.
  congruence.
Qed.

Lemma data_BoardCertifications v :
  data !! "BoardCertifications" = Some v ->
  v = VDict (BoardCertifications_dict (p_BoardCertifications provider)).
Proof.
  intros H. apply extract_from_provider_data in H; [|discriminate].
  match type of H with _ !! ?k = _ =>
    match goal with |- _ = ?rhs =>
      assert (E : get_all_data provider !! k = Some rhs) by (vm_compute; reflexivity);
      rewrite E in H
    end
  end.
  congruence.
Qed.

Lemma py_len_strs l : py_len (strs l) = inr (Z.of_nat (List.length l)).
Proof. unfold strs, py_len, ret. rewrite length_fmap. reflexivity. Qed.

Lemma check_disciplinary_actions_returns vc :
  exists o, check_disciplinary_actions vc data = inr o.
Proof.
  unfold check_disciplinary_actions.
  destruct (has_key "disciplinary_actions" vc); [|eexists; reflexivity].
  destruct (data !! "Disclosure") as [v|] eqn:E; [|eexists; reflexivity].
  apply data_Disclosure in E as ->.
  change (py_get (VDict (Disclosure_dict (p_Disclosure provider)))
            "disciplinary_actions" (VList []))
    with (inr (strs (disciplinary_actions (p_Disclosure provider))) : res value).
  cbn [bind]. rewrite py_len_strs. cbn [bind]. eexists; reflexivity.
Qed.

Lemma check_malpractice_insurance_returns vc :
  exists o, check_malpractice_insurance vc data = inr o.
Proof.
  unfold check_malpractice_insurance.
  destruct (has_key "malpractice_insurance" vc); [|eexists; reflexivity].
  destruct (data !! "PLIs") as [v|] eqn:E; [|eexists; reflexivity].
  apply data_PLIs in E as ->.
  change (py_get (VDict (PLIs_dict (p_PLIs provider))) "malpractice_insurance" (VStr ""))
    with (inr (VStr (malpractice_insurance (p_PLIs provider))) : res value).
  cbn [bind]. eexists; reflexivity.
Qed.

Lemma check_board_certification_returns vc :
  exists o, check_board_certification vc data = inr o.
Proof.
  unfold check_board_certification.
  destruct (has_key "board_certification" vc); [|eexists; reflexivity].
  destruct (data !! "BoardCertifications") as [v|] eqn:E; [|eexists; reflexivity].
  apply data_BoardCertifications in E as ->.
  change (py_get (VDict (BoardCertifications_dict (p_BoardCertifications provider)))
            "board_certifications" (VList []))
    with (inr (strs (board_certifications (p_BoardCertifications provider))) : res value).
  cbn [bind]. rewrite py_len_strs. cbn [bind]. eexists; reflexivity.
Qed.

Lemma check_criminal_record_returns vc :
  exists o, check_criminal_record vc data = inr o.
Proof.
  unfold check_criminal_record.
  destruct (has_key "criminal_record" vc); [|eexists; reflexivity].
  destruct (data !! "Disclosure") as [v|] eqn:E; [|eexists; reflexivity].
  apply data_Disclosure in E as ->.
  change (py_get (VDict (Disclosure_dict (p_Disclosure provider))) "criminal_record" (VStr ""))
    with (inr (VStr (criminal_record (p_Disclosure provider))) : res value).
  cbn [bind]. eexists; reflexivity.
Qed.

(** On the data extracted from a typed provider the deterministic rule
    always returns a verdict. *)
Lemma validate_typed_returns :
  exists b, _validate_hard_regulation regulation data = inr b.
Proof.
  unfold _validate_hard_regulation.
  set (vc := default ∅ (validation_criteria regulation)).
  unfold check_license_status.
  destruct (has_key "license_status" vc && has_key "ProfessionalIds" data);
    [eexists; reflexivity|].
  cbn [or_return bind ret].
  destruct (check_disciplinary_actions_returns vc) as [[b|] ->];
    [eexists; reflexivity|]. cbn [or_return bind ret].
  destruct (check_malpractice_insurance_returns vc) as [[b|] ->];
    [eexists; reflexivity|]. cbn [or_return bind ret].
  destruct (check_board_certification_returns vc) as [[b|] ->];
    [eexists; reflexivity|]. cbn [or_return bind ret].
  destruct (check_criminal_record_returns vc) as [[b|] ->];
    eexists; reflexivity.
Qed.
End TypedData.

Lemma validate_sequentially_returns env provider verification_details regs :
  forall results st,
  exists rs st',
    validate_sequentially env (get_all_data provider) verification_details regs results st
    = (inr (results ++ rs), st')
    /\ Forall2 (rule_result provider verification_details) regs rs.
Proof.
  induction regs as [|regulation regs IH]; intros results st.
  - exists [], st. rewrite app_nil_r. split; [reflexivity | constructor].
  - cbn [validate_sequentially]. unfold bindM at 1, liftM.
    destruct (validate_typed_returns regulation provider verification_details) as [b Hb].
    rewrite Hb. unfold bindM at 1, logger at 1.
    match goal with |- context [validate_sequentially _ _ _ regs ?r ?s] =>
      destruct (IH r s) as (rs & st' & Heq & HF) end.
    rewrite Heq. eexists (_ :: rs), st'. split.
    + rewrite <- app_assoc. reflexivity.
    + constructor; [|exact HF]. split; [exact Hb | reflexivity].
Qed.

(** C3: when the batch call of the hard-regulation phase raises, the
    phase still returns, with exactly one result per configured hard
    regulation, in order, each carrying the verdict of the deterministic
    rule on that regulation's extracted data; nothing is raised. *)
Theorem C3_batch_failure_falls_back env cfg provider verification_details st e :
  generate_batch_async env
    (hard_regulation_prompts env cfg (get_all_data provider) verification_details) = inl e ->
  exists results st',
    _check_hard_regulations env cfg (get_all_data provider) verification_details st
    = (inr results, st')
    /\ List.length results = List.length (cfg_hard_regulations cfg)
    /\ Forall2 (rule_result provider verification_details) (cfg_hard_regulations cfg) results.
Proof.
  intros He. unfold _check_hard_regulations. rewrite He.
  unfold bindM at 1, logger at 1.
  match goal with |- context [validate_sequentially _ _ _ _ [] ?s] =>
    destruct (validate_sequentially_returns env provider verification_details
                (cfg_hard_regulations cfg) [] s) as (rs & st' & Heq & HF) end.
  rewrite Heq. exists rs, st'. split; [reflexivity|]. split; [|exact HF].
  symmetry. eapply Forall2_length, HF.
Qed.
End HardPhaseFacts.

(** ** The orchestrator boundary *)

Section OrchestratorFacts.
Import PyStr Py Llm Result Provider Service Spec.
Local Open Scope list_scope.

Lemma error_handler_returns env provider_id e st :
  exists result st',
    error_handler env provider_id e st = (inr result, st')
    /\ compliance_status result = FAILED
    /\ errors result = [exn_msg e]
    /\ cr_score result = 1%Z
    /\ hard_regulations result = ∅
    /\ Result.provider_id result = provider_id.
Proof.
  unfold error_handler, bindM, logger, log_audit_event, liftM, retM.
  cbn. eexists _, _. split; [reflexivity|]. repeat split.
Qed.

Lemma pipeline_unknown_provider env cfg provider_id st :
  providers cfg !! provider_id = None ->
  exists st',
    pipeline env cfg provider_id st
    = (inl (Exn "ValueError" ("Provider " +:+ provider_id +:+ " not found")), st').
Proof.
  intros H. unfold pipeline, bindM at 1, logger at 1. rewrite H.
  eexists. reflexivity.
Qed.

Lemma credential_provider_unfold env cfg provider_id st :
  open_log_file env (log_file_path env provider_id) = inr tt ->
  credential_provider env cfg provider_id st =
    try_except (pipeline env cfg provider_id) (error_handler env provider_id)
      (session_start st).
Proof.
  intros H. unfold credential_provider, bindM, CredentialingLogger.
  fold (log_file_path env provider_id). rewrite H. reflexivity.
Qed.

(** An exception raised while the session logger is created, before the
    [try] block, reaches the caller. *)
Lemma logger_failure_propagates env cfg provider_id st e :
  open_log_file env (log_file_path env provider_id) = inl e ->
  credential_provider env cfg provider_id st = (inl e, st).
Proof.
  intros Hopen. unfold credential_provider, bindM, CredentialingLogger.
  fold (log_file_path env provider_id). rewrite Hopen. reflexivity.
Qed.

(** C4, as the code has it: once the session logger exists, the run
    returns a result whatever happens in the [try] block; when the block
    raises [e], that result is FAILED with score 1 and [str(e)] as its
    only error, in particular for an unknown provider id; when the block
    returns, its result is handed on. *)
Theorem C4_pipeline_exceptions_become_failed_results env cfg provider_id st :
  open_log_file env (log_file_path env provider_id) = inr tt ->
  exists result st',
    credential_provider env cfg provider_id st = (inr result, st')
    /\ match pipeline env cfg provider_id (session_start st) with
       | (inl e, _) =>
           compliance_status result = FAILED
           /\ errors result = [exn_msg e]
           /\ cr_score result = 1%Z
       | (inr r, _) => result = r
       end
    /\ (providers cfg !! provider_id = None ->
        compliance_status result = FAILED
        /\ errors result = ["Provider " +:+ provider_id +:+ " not found"]).
Proof.
  intros Hopen. rewrite (credential_provider_unfold _ _ _ _ Hopen).
  unfold try_except.
  destruct (pipeline env cfg provider_id (session_start st)) as [[e|r] st1] eqn:Hp.
  - destruct (error_handler_returns env provider_id e st1)
      as (result & st' & -> & Hs & He & Hsc & _).
    exists result, st'. split; [reflexivity|]. split; [auto|].
    intros Hnone.
    destruct (pipeline_unknown_provider env cfg provider_id (session_start st) Hnone)
      as [st2 Hraise].
    rewrite Hraise in Hp. injection Hp as <- _. auto.
  - exists r, st1. split; [reflexivity|]. split; [reflexivity|].
    intros Hnone.
    destruct (pipeline_unknown_provider env cfg provider_id (session_start st) Hnone)
      as [st2 Hraise].
    rewrite Hraise in Hp. discriminate.
Qed.
End OrchestratorFacts.

(** ** What the phases hand to the aggregation *)

Section PhaseFacts.
Import PyStr Py Llm Result Provider Service Spec.
Local Open Scope list_scope.

Let weighted (r : SoftRegulationResult) : Prop :=
  weighted_score r = (inject_Z (score r) * weight r)%Q.

Lemma process_soft_responses_weighted env provider_data regulation_data llm_responses :
  forall i results st raised results' st',
    Forall weighted results ->
    process_soft_responses env provider_data regulation_data i llm_responses results st
    = (raised, results', st') ->
    Forall weighted results'.
Proof.
  induction llm_responses as [|response rest IH];
    intros i results st raised results' st' Hw H; cbn [process_soft_responses] in H.
  - injection H as _ <- _. exact Hw.
  - destruct (regulation_data !! i) as [[regulation relevant_data]|];
      [|injection H as _ <- _; exact Hw].
    destruct (_parse_soft_regulation_response env (content response) regulation)
      as [e|score]; [injection H as _ <- _; exact Hw|].
    cbn in H. eapply IH; [|exact H].
    apply Forall_app. split; [exact Hw|]. repeat constructor.
Qed.

Lemma score_sequentially_weighted env provider_data regs :
  forall results st results' st',
    Forall weighted results ->
    score_sequentially env provider_data regs results st = (inr results', st') ->
    Forall weighted results'.
Proof.
  induction regs as [|regulation regs IH]; intros results st results' st' Hw H;
    cbn [score_sequentially] in H.
  - injection H as <- _. exact Hw.
  - unfold bindM at 1, liftM in H.
    destruct (_score_soft_regulation regulation _) as [e|score]; [discriminate|].
    unfold bindM at 1, logger at 1 in H.
    eapply IH; [|exact H].
    apply Forall_app. split; [exact Hw|]. repeat constructor.
Qed.

(** Every result of the soft-regulation phase carries score times weight
    as its weighted score, on the batch path and on the fallback path. *)
Lemma scored_results_weighted env cfg provider_data st results st' :
  _score_soft_regulations env cfg provider_data st = (inr results, st') ->
  Forall (fun r => weighted_score r = (inject_Z (score r) * weight r)%Q) results.
Proof.
  unfold _score_soft_regulations. intros H.
  destruct (generate_batch_async env _) as [e|llm_responses].
  - unfold bindM at 1, logger at 1 in H.
    eapply score_sequentially_weighted; [|exact H]. constructor.
  - destruct (process_soft_responses env provider_data _ 0 llm_responses [] st)
      as [[raised results1] st1] eqn:Hp.
    pose proof (process_soft_responses_weighted _ _ _ _ _ _ _ _ _ _
                  (List.Forall_nil _) Hp) as Hw1.
    destruct raised as [e|].
    + unfold bindM at 1, logger at 1 in H.
      eapply score_sequentially_weighted; [exact Hw1 | exact H].
    + injection H as <- _. exact Hw1.
Qed.

(** Without configured hard regulations the hard phase yields no result,
    whatever the LLM provider answers. *)
Lemma check_hard_no_regulations env cfg provider_data verification_details st :
  cfg_hard_regulations cfg = [] ->
  exists st',
    _check_hard_regulations env cfg provider_data verification_details st = (inr [], st').
Proof.
  intros Hnone.
  unfold _check_hard_regulations, hard_regulation_prompts, hard_regulation_data.
  rewrite Hnone. cbn [map].
  destruct (generate_batch_async env []) as [e|[|response rest]]; cbn; eauto.
Qed.
End PhaseFacts.

(** ** Runs of the whole pipeline *)

Section PipelineFacts.
Import PyStr Py Llm Result Provider Service Spec.
Local Open Scope list_scope.

Lemma bindM_returns {A B} (m : M A) (f : A -> M B) st b st' :
  bindM m f st = (inr b, st') ->
  exists a st1, m st = (inr a, st1) /\ f a st1 = (inr b, st').
Proof.
  unfold bindM. destruct (m st) as [[e|a] st1]; [discriminate|]. eauto.
Qed.

Ltac next H Hm :=
  let a := fresh "a" in let st1 := fresh "st" in
  apply bindM_returns in H as (a & st1 & Hm & H); cbv beta zeta in H.

(** A run of the [try] block that returns: the result is assembled from
    what the two regulation phases returned. *)
Lemma pipeline_result env cfg provider_id st result st' :
  pipeline env cfg provider_id st = (inr result, st') ->
  exists provider verification_details st1 st2 st3 st4 hrs srs,
    providers cfg !! provider_id = Some provider
    /\ _check_hard_regulations env cfg (get_all_data provider) verification_details st1
       = (inr hrs, st2)
    /\ _score_soft_regulations env cfg (get_all_data provider) st3 = (inr srs, st4)
    /\ compliance_status result = _determine_compliance_status hrs
    /\ cr_score result = _calculate_overall_score srs
    /\ hard_regulations result = hard_regulations_map hrs
    /\ hard_regulation_results result = hrs
    /\ soft_regulation_results result = srs
    /\ errors result = [].
Proof.
  intros H. unfold pipeline in H. next H H0. clear H0.
  destruct (providers cfg !! provider_id) as [provider|] eqn:Hp; [|discriminate].
  cbv zeta in H.
  next H H0; clear H0. next H H0; clear H0. next H H0; clear H0.
  next H H0; clear H0. next H H0; clear H0. next H H0; clear H0.
  next H H0; clear H0.
  next H Hh. next H H0; clear H0. next H H0; clear H0.
  next H Hs. next H H0; clear H0. next H H0; clear H0.
  next H Hv. unfold liftM, validate_CredentialingResult in Hv. cbn [cr_score] in Hv.
  destruct (_ && _); [|discriminate]. injection Hv as <- _.
  next H H0; clear H0. next H H0; clear H0. next H H0; clear H0.
  next H H0; clear H0. next H H0; clear H0. next H H0; clear H0.
  unfold retM in H. injection H as <- _.
  eexists _, _, _, _, _, _, _, _. split; [reflexivity|].
  split; [exact Hh|]. split; [exact Hs|]. repeat split.
Qed.

(** The score of a run that returns is the aggregation rule of the
    specification on its soft results. *)
Lemma pipeline_score_is_spec env cfg provider_id st result st' :
  pipeline env cfg provider_id st = (inr result, st') ->
  cr_score result = overall_score_spec (soft_regulation_results result).
Proof.
  intros H. destruct (pipeline_result _ _ _ _ _ _ H)
    as (provider & vd & st1 & st2 & st3 & st4 & hrs & srs & _ & _ & Hs & _ & Hsc & _ & _ & Hsr & _).
  rewrite Hsc, Hsr. apply calculate_is_spec. eapply scored_results_weighted, Hs.
Qed.

(** With no hard regulation configured, a run ends FAILED with an empty
    [hard_regulations] map, whether the [try] block returns or raises. *)
Lemma no_hard_regulations_run env cfg provider_id st :
  open_log_file env (log_file_path env provider_id) = inr tt ->
  cfg_hard_regulations cfg = [] ->
  exists result st',
    credential_provider env cfg provider_id st = (inr result, st')
    /\ hard_regulations result = hard_regulations_map []
    /\ compliance_status result = _determine_compliance_status [].
Proof.
  intros Hopen Hnone. rewrite (credential_provider_unfold _ _ _ _ Hopen).
  unfold try_except.
  destruct (pipeline env cfg provider_id (session_start st)) as [[e|r] st1] eqn:Hp.
  - destruct (error_handler_returns env provider_id e st1)
      as (result & st' & -> & Hs & _ & _ & Hh & _).
    exists result, st'. split; [reflexivity|]. rewrite Hh, Hs. split; reflexivity.
  - exists r, st1. split; [reflexivity|].
    destruct (pipeline_result _ _ _ _ _ _ Hp)
      as (provider & vd & s1 & s2 & s3 & s4 & hrs & srs & _ & Hh & _ & Hc & _ & Hm & _).
    destruct (check_hard_no_regulations env cfg (get_all_data provider) vd s1 Hnone)
      as [s2' Hnil].
    rewrite Hnil in Hh. injection Hh as <- _. split; [exact Hm | exact Hc].
Qed.

(** C10: [is_compliant] is [True] on an empty [hard_regulations] map, so
    a result built from an empty set of hard results serialises with
    [is_compliant] true while its [compliance_status] is FAILED; every run
    of [credential_provider] without configured hard regulations ends with
    such a result. *)
Theorem C10_is_compliant_on_empty :
  (forall self, hard_regulations self = ∅ -> is_compliant self = true) /\
  (forall self,
      hard_regulations self = hard_regulations_map [] ->
      compliance_status self = _determine_compliance_status [] ->
      to_dict self !! "is_compliant" = Some (VBool true)
      /\ to_dict self !! "compliance_status" = Some (VStr "FAILED")) /\
  (forall env cfg provider_id st,
      open_log_file env (log_file_path env provider_id) = inr tt ->
      cfg_hard_regulations cfg = [] ->
      exists result st',
        credential_provider env cfg provider_id st = (inr result, st')
        /\ to_dict result !! "is_compliant" = Some (VBool true)
        /\ to_dict result !! "compliance_status" = Some (VStr "FAILED")).
Proof.
  split; [|split].
  - intros self H. unfold is_compliant. rewrite H. apply all_values_empty.
  - apply empty_hard_results_serialise.
  - intros env cfg provider_id st Hopen Hnone.
    destruct (no_hard_regulations_run env cfg provider_id st Hopen Hnone)
      as (result & st' & Hrun & Hh & Hc).
    exists result, st'. split; [exact Hrun|]. apply empty_hard_results_serialise; assumption.
Qed.
End PipelineFacts.

(** ** The batch scheduler *)

Section BatchFacts.
Import Batch.
Local Open Scope list_scope.
Context {Prompt Response : Type}.
Variable w : World Prompt Response.

(** Every launched task completes, once: a completion order is a
    permutation of the task indices. *)
Hypothesis completion_perm :
  forall base n, Permutation (completion w base n) (seq 0 n).

Section Gather.
Context {A : Type}.
Variables (base : nat) (tasks : list (task Prompt Response A)).

Lemma collect_no_launch order :
  forall slots o evs,
    collect w base tasks order slots = (o, evs) ->
    Forall (fun ev => is_launch ev = false) evs.
Proof.
  induction order as [|idx rest IH]; intros slots o evs H; cbn [collect] in H.
  - injection H as <- <-. constructor.
  - destruct (tasks !! idx) as [[prompt k]|]; [|eauto].
    destruct (vendor w (base + idx) prompt) as [e|r].
    + injection H as <- <-. repeat constructor.
    + destruct (collect w base tasks rest (<[idx:=k r]> slots)) as [o' evs'] eqn:E.
      injection H as <- <-. constructor; [reflexivity | eauto].
Qed.

Lemma collect_inr order :
  forall slots slots' evs,
    Forall (fun idx => idx < List.length tasks) order ->
    collect w base tasks order slots = (inr slots', evs) ->
    evs = map (fun idx => Done (base + idx)) order
    /\ (forall idx, idx ∈ order ->
          exists a, task_outcome w base tasks idx = Some (inr a)
                    /\ slots' !! idx = Some a)
    /\ (forall i, i ∉ order -> slots' !! i = slots !! i).
Proof.
  induction order as [|idx rest IH]; intros slots slots' evs Hv H; cbn [collect] in H.
  - injection H as <- <-. split; [reflexivity|]. split; [|reflexivity].
    intros idx Hin. inversion Hin.
  - apply Forall_cons in Hv as [Hidx Hv]. cbn beta in Hidx.
    destruct (tasks !! idx) as [[prompt k]|] eqn:Et.
    2:{ apply lookup_ge_None in Et. unfold task in *. lia. }
    destruct (vendor w (base + idx) prompt) as [e|r] eqn:Ev; [discriminate|].
    destruct (collect w base tasks rest (<[idx:=k r]> slots)) as [o' evs'] eqn:E.
    injection H as -> <-.
    destruct (IH _ _ _ Hv E) as (-> & Hin & Hout).
    split; [reflexivity|]. split.
    + intros i Hi. destruct (decide (i ∈ rest)) as [Hr|Hr]; [apply Hin, Hr|].
      apply elem_of_cons in Hi as [->|Hi]; [|contradiction].
      exists (k r). split.
      * unfold task_outcome. rewrite Et, Ev. reflexivity.
      * rewrite (Hout _ Hr). apply lookup_insert_eq.
    + intros i Hi. apply not_elem_of_cons in Hi as [Hne Hi].
      rewrite (Hout _ Hi). apply lookup_insert_ne. congruence.
Qed.

Lemma collect_total order :
  forall slots,
    (forall idx, idx ∈ order -> exists a, task_outcome w base tasks idx = Some (inr a)) ->
    exists slots' evs, collect w base tasks order slots = (inr slots', evs).
Proof.
  induction order as [|idx rest IH]; intros slots Hok; cbn [collect].
  - eauto.
  - destruct (Hok idx) as [a Ha]; [left|].
    unfold task_outcome in Ha.
    destruct (tasks !! idx) as [[prompt k]|]; [|discriminate].
    destruct (vendor w (base + idx) prompt) as [e|r]; [discriminate|].
    destruct (IH (<[idx:=k r]> slots)) as (slots' & evs & ->).
    { intros i Hi. apply Hok. right. exact Hi. }
    eauto.
Qed.

Let n := List.length tasks.
Let launches := map (fun i => Launch (base + i)) (seq 0 n).

Lemma order_valid st :
  Forall (fun idx => idx < n) (completion w (launched st) n).
Proof.
  apply Forall_forall. intros idx Hin.
  apply list_elem_of_In in Hin.
  apply (Permutation_in _ (completion_perm (launched st) n)) in Hin.
  apply in_seq in Hin. lia.
Qed.

Lemma order_complete st i : i < n -> i ∈ completion w (launched st) n.
Proof.
  intros Hi. apply list_elem_of_In.
  apply (Permutation_in _ (Permutation_sym (completion_perm (launched st) n))).
  apply in_seq. lia.
Qed.

(** The shape of every gather: all tasks are launched, then completion
    events follow; the counters move by the number of tasks. *)
Lemma gather_shape st o st' evs :
  launched st = base ->
  gather w tasks st = (o, st', evs) ->
  st' = {| launched := base + n; drawn := drawn st |}
  /\ exists comps, evs = launches ++ comps
                   /\ Forall (fun ev => is_launch ev = false) comps.
Proof.
  intros Hb H. unfold gather in H. rewrite Hb in H. fold n in H.
  destruct (collect w base tasks (completion w base n) ∅) as [[e|slots] comps] eqn:E.
  - injection H as <- <- <-. split; [reflexivity|].
    exists comps. split; [reflexivity|]. eapply collect_no_launch, E.
  - pose proof (collect_no_launch _ _ _ _ E) as Hnl.
    destruct (mapM _ _); injection H as <- <- <-;
      (split; [reflexivity | exists comps; split; [reflexivity | exact Hnl]]).
Qed.

(** A gather that returns hands back, slot by slot, the results of its
    tasks, and every task is done by then. *)
Lemma gather_returned st rs st' evs :
  launched st = base ->
  gather w tasks st = (Returned rs, st', evs) ->
  List.length rs = n
  /\ (forall i, i < n ->
        exists a, task_outcome w base tasks i = Some (inr a) /\ rs !! i = Some a)
  /\ evs = launches ++ map (fun idx => Done (base + idx)) (completion w base n).
Proof.
  intros Hb H. unfold gather in H. rewrite Hb in H. fold n in H.
  destruct (collect w base tasks (completion w base n) ∅) as [[e|slots] comps] eqn:E;
    [discriminate|].
  destruct (mapM _ _) as [results|] eqn:Em; [|discriminate].
  injection H as <- <- <-.
  pose proof (order_valid st) as Hv. rewrite Hb in Hv.
  destruct (collect_inr _ _ _ _ Hv E) as (-> & Hin & _).
  apply mapM_Some in Em.
  pose proof (Forall2_length _ _ _ Em) as Hlen. rewrite length_seq in Hlen.
  split; [congruence|]. split; [|reflexivity].
  intros i Hi. destruct (Hin i) as (a & Ha & Hs).
  { pose proof (order_complete st i Hi) as Hc. rewrite Hb in Hc. exact Hc. }
  exists a. split; [exact Ha|].
  assert (Hseq : seq 0 n !! i = Some i) by (apply lookup_seq; lia).
  destruct (Forall2_lookup_l _ _ _ _ _ Em Hseq) as (y & Hy & Hsy).
  congruence.
Qed.

(** A gather whose tasks all return does return. *)
Lemma gather_total st :
  launched st = base ->
  (forall i, i < n -> exists a, task_outcome w base tasks i = Some (inr a)) ->
  exists rs st' evs, gather w tasks st = (Returned rs, st', evs).
Proof.
  intros Hb Hok. unfold gather. rewrite Hb. fold n.
  destruct (collect_total (completion w base n) ∅) as (slots & comps & E).
  { intros idx Hin. apply Hok.
    pose proof (order_valid st) as Hv. rewrite Hb in Hv.
    rewrite Forall_forall in Hv. apply Hv, Hin. }
  rewrite E.
  pose proof (order_valid st) as Hv. rewrite Hb in Hv.
  destruct (collect_inr _ _ _ _ Hv E) as (_ & Hin & _).
  destruct (mapM (fun i => slots !! i) (seq 0 n)) as [results|] eqn:Em; [eauto|].
  exfalso. apply eq_None_not_Some in Em. apply Em. apply mapM_is_Some.
  apply Forall_forall. intros i Hi. apply elem_of_seq in Hi.
  destruct (Hin i) as (a & _ & Hs).
  { pose proof (order_complete st i ltac:(lia)) as Hc. rewrite Hb in Hc. exact Hc. }
  exists a. exact Hs.
Qed.
End Gather.

  (** *** Counting calls in flight *)

Lemma in_flight_app c evs1 evs2 :
  in_flight_from c (evs1 ++ evs2) = in_flight_from (in_flight_from c evs1) evs2.
Proof.
  revert c. induction evs1 as [|ev evs1 IH]; intros c; [reflexivity|].
  destruct ev; cbn [app in_flight_from]; apply IH.
Qed.

Lemma peak_app c evs1 evs2 :
  peak_from c (evs1 ++ evs2)
  = Nat.max (peak_from c evs1) (peak_from (in_flight_from c evs1) evs2).
Proof.
  revert c. induction evs1 as [|ev evs1 IH]; intros c.
  - cbn [app peak_from in_flight_from].
    assert (c <= peak_from c evs2) by (destruct evs2 as [|[]]; cbn; lia). lia.
  - destruct ev; cbn [app peak_from in_flight_from]; rewrite IH; lia.
Qed.

Lemma in_flight_launches c base n :
  in_flight_from c (map (fun i => Launch (base + i)) (seq 0 n)) = c + n.
Proof.
  generalize 0 as s. revert c.
  induction n as [|n IH]; intros c s; cbn [seq map in_flight_from]; [lia|].
  rewrite IH. lia.
Qed.

Lemma peak_launches c base n :
  peak_from c (map (fun i => Launch (base + i)) (seq 0 n)) = c + n.
Proof.
  generalize 0 as s. revert c.
  induction n as [|n IH]; intros c s; cbn [seq map peak_from]; [lia|].
  rewrite IH. lia.
Qed.

Lemma in_flight_no_launch c evs :
  Forall (fun ev => is_launch ev = false) evs ->
  in_flight_from c evs = c - List.length evs.
Proof.
  intros H. revert c. induction H as [|ev evs Hev _ IH]; intros c; [cbn; lia|].
  destruct ev; [discriminate| |]; cbn [in_flight_from length]; rewrite IH; lia.
Qed.

Lemma peak_no_launch c evs :
  Forall (fun ev => is_launch ev = false) evs -> peak_from c evs = c.
Proof.
  intros H. revert c. induction H as [|ev evs Hev _ IH]; intros c; [reflexivity|].
  destruct ev; [discriminate| |]; cbn [peak_from]; rewrite IH; lia.
Qed.

(** One gather of [n] tasks, entered with [c] calls in flight, peaks at
    [c + n]. *)
Lemma peak_gather {A} (tasks : list (task Prompt Response A)) st o st' evs c :
  gather w tasks st = (o, st', evs) ->
  peak_from c evs = c + List.length tasks.
Proof.
  intros H. destruct (gather_shape (launched st) tasks st o st' evs eq_refl H)
    as (_ & comps & -> & Hnl).
  rewrite peak_app, peak_launches, in_flight_launches, (peak_no_launch _ _ Hnl). lia.
Qed.

(** After a gather that returned, nothing it launched is still in flight. *)
Lemma in_flight_gather_returned {A} (tasks : list (task Prompt Response A)) st rs st' evs c :
  gather w tasks st = (Returned rs, st', evs) ->
  in_flight_from c evs = c.
Proof.
  intros H. destruct (gather_returned (launched st) tasks st rs st' evs eq_refl H)
    as (_ & _ & ->).
  rewrite in_flight_app, in_flight_launches, in_flight_no_launch.
  - rewrite length_map, (Permutation_length (completion_perm _ _)), length_seq. lia.
  - apply Forall_forall. intros ev Hev. apply list_elem_of_fmap in Hev as (idx & -> & _).
    reflexivity.
Qed.

  (** *** The default implementation: results *)

Lemma task_outcome_generate_async base (batch : list Prompt) i :
  task_outcome w base (map generate_async batch) i
  = (fun p => vendor w (base + i) p) <$> batch !! i.
Proof.
  unfold task_outcome. rewrite list_lookup_fmap.
  destruct (batch !! i) as [p|]; [|reflexivity]. cbn.
  destruct (vendor w (base + i) p); reflexivity.
Qed.

Lemma gather_generate_async_returned (batch : list Prompt) st rs st' evs :
  gather w (map generate_async batch) st = (Returned rs, st', evs) ->
  answers w (launched st) batch rs.
Proof.
  intros H.
  destruct (gather_returned (launched st) _ st rs st' evs eq_refl H) as (Hlen & Hok & _).
  rewrite length_map in Hlen, Hok. split; [exact Hlen|].
  intros i p Hp. destruct (Hok i) as (a & Ha & Hr).
  { apply lookup_lt_Some in Hp. exact Hp. }
  rewrite task_outcome_generate_async, Hp in Ha. cbn in Ha.
  exists a. split; [exact Hr | congruence].
Qed.

Lemma gather_generate_async_total (batch : list Prompt) st :
  all_calls_return w (launched st) batch ->
  exists rs st' evs, gather w (map generate_async batch) st = (Returned rs, st', evs).
Proof.
  intros Hall. apply (gather_total (launched st)); [reflexivity|].
  rewrite length_map. intros i Hi.
  destruct (lookup_lt_is_Some_2 batch i Hi) as [p Hp].
  destruct (Hall i p Hp) as [r Hr].
  exists r. rewrite task_outcome_generate_async, Hp. cbn. rewrite Hr. reflexivity.
Qed.

Lemma slice_wave_lookup (prompts : list Prompt) s j :
  slice prompts s (s + WAVE_SIZE) !! j
  = if decide (j < WAVE_SIZE) then prompts !! (s + j) else None.
Proof.
  unfold slice. replace (s + WAVE_SIZE - s) with WAVE_SIZE by lia.
  rewrite lookup_take. destruct (decide (j < WAVE_SIZE)); [|reflexivity].
  apply lookup_drop.
Qed.

Lemma slice_wave_length (prompts : list Prompt) s :
  List.length (slice prompts s (s + WAVE_SIZE))
  = Nat.min WAVE_SIZE (List.length prompts - s).
Proof.
  unfold slice. replace (s + WAVE_SIZE - s) with WAVE_SIZE by lia.
  rewrite length_take, length_drop. reflexivity.
Qed.

Section Waves.
Variables (prompts : list Prompt) (base : nat).
Let n := List.length prompts.

(** What the loop has collected when it is about to start the wave at
    index [s]. *)
Let collected (s : nat) (results : list Response) : Prop :=
  List.length results = Nat.min s n
  /\ forall i p, i < Nat.min s n -> prompts !! i = Some p ->
       exists r, results !! i = Some r /\ vendor w (base + i) p = inr r.

Lemma collected_step s results st br st1 evs1 :
  s < n ->
  launched st = base + Nat.min s n ->
  collected s results ->
  gather w (map generate_async (slice prompts s (s + WAVE_SIZE))) st
  = (Returned br, st1, evs1) ->
  launched st1 = base + Nat.min (s + WAVE_SIZE) n
  /\ collected (s + WAVE_SIZE) (results ++ br).
Proof.
  intros Hs Hl [Hlen Hres] Hg.
  pose proof (gather_generate_async_returned _ _ _ _ _ Hg) as [Hblen Hb].
  destruct (gather_shape (launched st) _ st _ _ _ eq_refl Hg) as (-> & _).
  rewrite length_map, slice_wave_length in *. fold n in Hblen |- *.
  unfold WAVE_SIZE in *. cbn [launched]. split; [lia|]. split.
  - rewrite length_app. lia.
  - intros i p Hi Hp. destruct (decide (i < s)) as [Hlt|Hge].
    + destruct (Hres i p ltac:(lia) Hp) as (r & Hr & Hv).
      exists r. split; [|exact Hv]. rewrite lookup_app_l by lia. exact Hr.
    + destruct (Hb (i - s) p) as (r & Hr & Hv).
      { rewrite slice_wave_lookup. unfold WAVE_SIZE.
        destruct (decide (i - s < 50)); [|lia].
        replace (s + (i - s)) with i by lia. exact Hp. }
      exists r. split.
      * rewrite lookup_app_r by lia. replace (i - List.length results) with (i - s) by lia.
        exact Hr.
      * replace (base + i) with (launched st + (i - s)) by lia. exact Hv.
Qed.

Lemma run_waves_returned fuel :
  forall s results st rs st' evs,
    launched st = base + Nat.min s n ->
    collected s results ->
    n <= s + fuel * WAVE_SIZE ->
    run_waves w prompts (range_from fuel s n WAVE_SIZE) results st
    = (Returned rs, st', evs) ->
    answers w base prompts rs.
Proof.
  induction fuel as [|fuel IH]; intros s results st rs st' evs Hl Hc Hfuel H.
  - cbn in H. injection H as <- _ _. destruct Hc as [Hlen Hres].
    split; [fold n; lia|]. intros i p Hp.
    apply Hres; [|exact Hp]. apply lookup_lt_Some in Hp. fold n in Hp. lia.
  - cbn [range_from] in H. destruct (s <? n)%nat eqn:Es.
    + apply Nat.ltb_lt in Es. cbn [run_waves] in H. unfold bindA in H.
      destruct (gather w _ st) as [[[br| |] st1] evs1] eqn:Hg; try discriminate.
      destruct (run_waves w prompts _ (results ++ br) st1) as [[o2 st2] evs2] eqn:Hr.
      injection H as -> -> _.
      destruct (collected_step _ _ _ _ _ _ Es Hl Hc Hg) as [Hl1 Hc1].
      eapply (IH _ _ _ _ _ _ Hl1 Hc1); [|exact Hr]. unfold WAVE_SIZE in *. lia.
    + apply Nat.ltb_ge in Es. cbn in H. injection H as <- _ _.
      destruct Hc as [Hlen Hres]. split; [fold n; lia|]. intros i p Hp.
      apply Hres; [|exact Hp]. apply lookup_lt_Some in Hp. fold n in Hp. lia.
Qed.

Lemma run_waves_total fuel :
  all_calls_return w base prompts ->
  forall s results st,
    launched st = base + Nat.min s n ->
    collected s results ->
    exists rs st' evs,
      run_waves w prompts (range_from fuel s n WAVE_SIZE) results st
      = (Returned rs, st', evs).
Proof.
  intros Hall. induction fuel as [|fuel IH]; intros s results st Hl Hc.
  - cbn. unfold retA. eauto.
  - cbn [range_from]. destruct (s <? n)%nat eqn:Es; [|cbn; unfold retA; eauto].
    apply Nat.ltb_lt in Es. cbn [run_waves]. unfold bindA.
    destruct (gather_generate_async_total (slice prompts s (s + WAVE_SIZE)) st)
      as (br & st1 & evs1 & Hg).
    { intros j p Hp. rewrite slice_wave_lookup in Hp.
      destruct (decide (j < WAVE_SIZE)); [|discriminate].
      destruct (Hall _ _ Hp) as [r Hr]. exists r.
      rewrite Hl. replace (base + Nat.min s n + j) with (base + (s + j)) by lia.
      exact Hr. }
    rewrite Hg.
    destruct (collected_step _ _ _ _ _ _ Es Hl Hc Hg) as [Hl1 Hc1].
    destruct (IH _ _ _ Hl1 Hc1) as (rs & st' & evs & ->). eauto.
Qed.
End Waves.

Lemma generate_batch_async_returned prompts st rs st' evs :
  generate_batch_async w prompts st = (Returned rs, st', evs) ->
  answers w (launched st) prompts rs.
Proof.
  unfold generate_batch_async. destruct (List.length prompts <=? WAVE_SIZE)%nat.
  - apply gather_generate_async_returned.
  - unfold py_range. apply run_waves_returned.
    + lia.
    + split; [reflexivity|]. intros i p Hi. lia.
    + unfold WAVE_SIZE. lia.
Qed.

Lemma generate_batch_async_total prompts st :
  all_calls_return w (launched st) prompts ->
  exists rs st' evs, generate_batch_async w prompts st = (Returned rs, st', evs).
Proof.
  intros Hall. unfold generate_batch_async. destruct (List.length prompts <=? WAVE_SIZE)%nat.
  - apply gather_generate_async_total, Hall.
  - unfold py_range. apply run_waves_total with (base := launched st).
    + exact Hall.
    + lia.
    + split; [reflexivity|]. intros i p Hi. lia.
Qed.

  (** *** The default implementation: the trace *)

Lemma wave_of_lt base i k :
  wave_of base i < k -> i - base < k * WAVE_SIZE.
Proof.
  unfold wave_of, WAVE_SIZE. intros H.
  pose proof (Nat.div_mod_eq (i - base) 50).
  pose proof (Nat.mod_upper_bound (i - base) 50 ltac:(lia)). lia.
Qed.

Lemma wave_of_in_wave base k j :
  j < WAVE_SIZE -> wave_of base (base + k * WAVE_SIZE + j) = k.
Proof.
  unfold wave_of, WAVE_SIZE. intros H.
  replace (base + k * 50 + j - base) with (k * 50 + j) by lia.
  rewrite Nat.div_add_l by lia. rewrite Nat.div_small by lia. lia.
Qed.

Section WaveTrace.
Variable base : nat.

(** The trace so far, when [c] calls of the batch have been made and
    the next wave is about to start: nothing is in flight, the peak is
    within the cap, the waves so far ran one after the other and every
    call made is done. *)
Let settled (c : nat) (pre : list event) : Prop :=
  in_flight_from 0 pre = 0
  /\ peak_from 0 pre <= WAVE_SIZE
  /\ waves_sequential base pre
  /\ forall i, base <= i < base + c -> Done i ∈ pre.

Lemma wave_append {A} (tasks : list (task Prompt Response A)) k pre st o st1 evs1 :
  List.length tasks <= WAVE_SIZE ->
  launched st = base + k * WAVE_SIZE ->
  settled (k * WAVE_SIZE) pre ->
  gather w tasks st = (o, st1, evs1) ->
  launched st1 = base + k * WAVE_SIZE + List.length tasks
  /\ peak_from 0 (pre ++ evs1) <= WAVE_SIZE
  /\ waves_sequential base (pre ++ evs1)
  /\ (forall rs, o = Returned rs ->
        settled (k * WAVE_SIZE + List.length tasks) (pre ++ evs1)).
Proof.
  intros Hm Hl (Hfl & Hpk & Hseq & Hdone) Hg.
  pose proof (peak_gather tasks _ _ _ _ 0 Hg) as Hpeak.
  destruct (gather_shape (launched st) tasks st o st1 evs1 eq_refl Hg)
    as (Hst1 & comps & Hevs & Hnl).
  assert (Hpk' : peak_from 0 (pre ++ evs1) <= WAVE_SIZE).
  { rewrite peak_app, Hfl, Hpeak. lia. }
  assert (Hseq' : waves_sequential base (pre ++ evs1)).
  { intros a j Ha i Hbi Hw.
    apply lookup_app_Some in Ha as [Ha|[Hge Ha]].
    - destruct (Hseq a j Ha i Hbi Hw) as (a' & Hlt & Ha').
      exists a'. split; [exact Hlt|]. apply lookup_app_l_Some, Ha'.
    - rewrite Hevs in Ha.
      apply lookup_app_Some in Ha as [Ha|[_ Ha]].
      2:{ rewrite Forall_lookup in Hnl. apply Hnl in Ha. discriminate. }
      rewrite list_lookup_fmap in Ha.
      destruct (seq 0 (List.length tasks) !! (a - List.length pre)) as [jj|] eqn:Ejj;
        [|discriminate].
      apply lookup_seq in Ejj as [-> Hjj]. cbn in Ha. injection Ha as <-.
      rewrite Hl in Hw. rewrite wave_of_in_wave in Hw by lia.
      apply wave_of_lt in Hw.
      pose proof (Hdone i ltac:(lia)) as Hd.
      apply list_elem_of_lookup in Hd as [a' Ha'].
      exists a'. split.
      + apply lookup_lt_Some in Ha'. lia.
      + apply lookup_app_l_Some, Ha'. }
  split; [rewrite Hst1; cbn; lia|]. split; [exact Hpk'|]. split; [exact Hseq'|].
  intros rs ->. split; [|split; [exact Hpk'|split; [exact Hseq'|]]].
  - rewrite in_flight_app, Hfl. eapply in_flight_gather_returned, Hg.
  - intros i Hi. apply elem_of_app.
    destruct (decide (i < base + k * WAVE_SIZE)) as [Hlt|Hge];
      [left; apply Hdone; lia|right].
    destruct (gather_returned (launched st) tasks st rs st1 evs1 eq_refl Hg)
      as (_ & _ & ->).
    apply elem_of_app. right. apply list_elem_of_fmap.
    exists (i - launched st). split; [f_equal; lia|].
    apply order_complete. lia.
Qed.

Lemma settled_start : settled 0 [].
Proof.
  split; [reflexivity|]. split; [cbn; lia|]. split.
  - intros a j Ha. rewrite lookup_nil in Ha. discriminate.
  - intros i Hi. lia.
Qed.

Variable prompts : list Prompt.
Let n := List.length prompts.

Lemma run_waves_trace fuel :
  forall k results st o st' evs pre,
    launched st = base + Nat.min (k * WAVE_SIZE) n ->
    settled (Nat.min (k * WAVE_SIZE) n) pre ->
    run_waves w prompts (range_from fuel (k * WAVE_SIZE) n WAVE_SIZE) results st
    = (o, st', evs) ->
    peak_from 0 (pre ++ evs) <= WAVE_SIZE /\ waves_sequential base (pre ++ evs).
Proof.
  induction fuel as [|fuel IH]; intros k results st o st' evs pre Hl Hs H.
  - cbn in H. injection H as _ _ <-. rewrite app_nil_r.
    destruct Hs as (_ & Hpk & Hseq & _). auto.
  - cbn [range_from] in H. destruct (k * WAVE_SIZE <? n)%nat eqn:Es.
    2:{ cbn in H. injection H as _ _ <-. rewrite app_nil_r.
        destruct Hs as (_ & Hpk & Hseq & _). auto. }
    apply Nat.ltb_lt in Es. cbn [run_waves] in H. unfold bindA in H.
    rewrite Nat.min_l in Hl, Hs by lia.
    destruct (gather w _ st) as [[o1 st1] evs1] eqn:Hg.
    assert (Hlen : List.length (map (@generate_async Prompt Response)
                     (slice prompts (k * WAVE_SIZE) (k * WAVE_SIZE + WAVE_SIZE)))
                   = Nat.min WAVE_SIZE (n - k * WAVE_SIZE)).
    { rewrite length_map. apply slice_wave_length. }
    assert (Hcap : List.length (map (@generate_async Prompt Response)
                     (slice prompts (k * WAVE_SIZE) (k * WAVE_SIZE + WAVE_SIZE)))
                   <= WAVE_SIZE) by lia.
    destruct (wave_append _ k pre st o1 st1 evs1 Hcap Hl Hs Hg)
      as (Hl1 & Hpk & Hseq & Hret).
    destruct o1 as [br| |]; try (injection H as _ _ <-; auto).
    destruct (run_waves w prompts _ (results ++ br) st1) as [[o2 st2] evs2] eqn:Hr.
    injection H as _ _ <-. rewrite app_assoc.
    replace (k * WAVE_SIZE + WAVE_SIZE) with (S k * WAVE_SIZE) in Hr by lia.
    apply (IH (S k) _ _ _ _ _ _) with (3 := Hr).
    + rewrite Hl1, Hlen. unfold WAVE_SIZE in *. lia.
    + specialize (Hret br eq_refl). rewrite Hlen in Hret.
      replace (Nat.min (S k * WAVE_SIZE) n)
        with (k * WAVE_SIZE + Nat.min WAVE_SIZE (n - k * WAVE_SIZE))
        by (unfold WAVE_SIZE in *; lia).
      exact Hret.
Qed.
End WaveTrace.

(** The default implementation never has more than [WAVE_SIZE] calls in
    flight and runs its waves one after the other. *)
Lemma generate_batch_async_trace prompts st o st' evs :
  generate_batch_async w prompts st = (o, st', evs) ->
  peak_in_flight evs <= WAVE_SIZE /\ waves_sequential (launched st) evs.
Proof.
  unfold generate_batch_async, peak_in_flight.
  destruct (List.length prompts <=? WAVE_SIZE)%nat eqn:E; intros H.
  - apply Nat.leb_le in E.
    destruct (wave_append (launched st) (map generate_async prompts) 0 [] st o st' evs)
      as (_ & Hpk & Hseq & _); auto.
    + rewrite length_map. exact E.
    + apply settled_start.
  - unfold py_range in H.
    change 0 with (0 * WAVE_SIZE) in H.
    apply (run_waves_trace (launched st) prompts _ 0 _ _ _ _ _ []) in H; auto.
    apply settled_start.
Qed.

(** The waves are contiguous pieces of the batch, each within the cap. *)
Lemma waves_partition (prompts : list Prompt) :
  concat (waves prompts) = prompts
  /\ Forall (fun wave => List.length wave <= WAVE_SIZE) (waves prompts).
Proof.
  unfold waves, py_range. set (n := List.length prompts).
  assert (H : forall fuel k,
             n <= k * WAVE_SIZE + fuel * WAVE_SIZE ->
             concat (map (fun i => slice prompts i (i + WAVE_SIZE))
                       (range_from fuel (k * WAVE_SIZE) n WAVE_SIZE))
             = drop (k * WAVE_SIZE) prompts
             /\ Forall (fun wave => List.length wave <= WAVE_SIZE)
                  (map (fun i => slice prompts i (i + WAVE_SIZE))
                     (range_from fuel (k * WAVE_SIZE) n WAVE_SIZE))).
  { induction fuel as [|fuel IH]; intros k Hk.
    - cbn. split; [|constructor]. symmetry. apply drop_ge. fold n. lia.
    - cbn [range_from]. destruct (k * WAVE_SIZE <? n)%nat eqn:Es.
      + cbn [map concat].
        replace (k * WAVE_SIZE + WAVE_SIZE) with (S k * WAVE_SIZE) by lia.
        destruct (IH (S k)) as [-> HF]; [unfold WAVE_SIZE in *; lia|]. split.
        * unfold slice. replace (S k * WAVE_SIZE - k * WAVE_SIZE) with WAVE_SIZE by lia.
          replace (S k * WAVE_SIZE) with (k * WAVE_SIZE + WAVE_SIZE) by lia.
          rewrite <- drop_drop. apply take_drop.
        * constructor; [|exact HF].
          replace (S k * WAVE_SIZE) with (k * WAVE_SIZE + WAVE_SIZE) by lia.
          rewrite slice_wave_length. lia.
      + apply Nat.ltb_ge in Es. cbn. split; [|constructor].
        symmetry. apply drop_ge. fold n. lia. }
  destruct (H n 0) as [Hc HF]; [unfold WAVE_SIZE; lia|].
  change (0 * WAVE_SIZE) with 0 in Hc, HF.
  split; [exact Hc | exact HF].
Qed.

  (** *** The Bedrock adapter *)

Lemma response_map_of_acc (results : list (string * Response)) :
  forall (acc : gmap string Response) u,
    u ∉ results.*1 ->
    fold_left (fun (m : gmap string Response) ur => <[ur.1 := ur.2]> m) results acc !! u
    = acc !! u.
Proof.
  induction results as [|[u1 r1] results IH]; intros acc u Hu; [reflexivity|].
  cbn [fold_left]. cbn in Hu. apply not_elem_of_cons in Hu as [Hne Hu].
  rewrite IH by exact Hu. cbn. apply lookup_insert_ne. congruence.
Qed.

Lemma response_map_of_lookup (results : list (string * Response)) i u r :
  NoDup (results.*1) ->
  results !! i = Some (u, r) ->
  response_map_of results !! u = Some r.
Proof.
  unfold response_map_of. generalize (∅ : gmap string Response) as acc.
  revert i. induction results as [|[u1 r1] results IH]; intros i acc Hnd Hi;
    [discriminate|].
  cbn in Hnd. apply NoDup_cons in Hnd as [Hu1 Hnd]. cbn [fold_left].
  destruct i as [|i]; cbn in Hi.
  - injection Hi as -> ->. rewrite response_map_of_acc by exact Hu1.
    cbn. apply lookup_insert_eq.
  - eapply IH; eassumption.
Qed.

(** [uuid4] never yields the same value twice. *)
Hypothesis uuid4_fresh : forall i j, uuid4 w i = uuid4 w j -> i = j.

Section Bedrock.
Variables (prompts : list Prompt) (st : loop).
Let n := List.length prompts.
Let prompt_uids := map (fun i => uuid4 w (drawn st + i)) (seq 0 n).
Let tasks : list (task Prompt Response (string * Response)) :=
  zip_with _generate_async_with_uid prompts prompt_uids.
Let st0 := {| launched := launched st; drawn := drawn st + n |}.

Lemma bedrock_unfold :
  bedrock_generate_batch_async w prompts st =
    match gather w tasks st0 with
    | (Returned results, st', evs) =>
        match mapM (fun uid => response_map_of results !! uid) prompt_uids with
        | Some ordered_responses => (Returned ordered_responses, st', evs ++ [])
        | None => (Raised (Exn "KeyError" "uid"), st', evs ++ [])
        end
    | (Raised e, st', evs) => (Raised e, st', evs)
    | (Hung, st', evs) => (Hung, st', evs)
    end.
Proof.
  unfold bedrock_generate_batch_async, bindA at 1, draw_uids.
  fold n prompt_uids tasks st0. unfold bindA.
  destruct (gather w tasks st0) as [[[results| |] st'] evs]; try reflexivity.
  destruct (mapM _ prompt_uids); reflexivity.
Qed.

Lemma prompt_uids_length : List.length prompt_uids = n.
Proof. unfold prompt_uids. rewrite length_map, length_seq. reflexivity. Qed.

Lemma prompt_uids_lookup i :
  i < n -> prompt_uids !! i = Some (uuid4 w (drawn st + i)).
Proof.
  intros Hi. unfold prompt_uids. rewrite list_lookup_fmap.
  rewrite (proj2 (lookup_seq 0 n i i)) by lia. reflexivity.
Qed.

Lemma prompt_uids_NoDup : NoDup prompt_uids.
Proof.
  unfold prompt_uids. apply NoDup_fmap_2; [|apply NoDup_seq].
  intros i j H. apply uuid4_fresh in H. lia.
Qed.

Lemma tasks_length : List.length tasks = n.
Proof.
  unfold tasks. rewrite length_zip_with, prompt_uids_length. fold n. lia.
Qed.

Lemma tasks_outcome i p :
  prompts !! i = Some p ->
  task_outcome w (launched st) tasks i
  = Some (match vendor w (launched st + i) p with
          | inl e => inl e
          | inr r => inr (uuid4 w (drawn st + i), r)
          end).
Proof.
  intros Hp. unfold task_outcome, tasks. rewrite lookup_zip_with, Hp. cbn.
  rewrite prompt_uids_lookup by (apply lookup_lt_Some in Hp; exact Hp).
  reflexivity.
Qed.

(** What the gather of the tagged tasks hands back. *)
Lemma tagged_results results st' evs :
  gather w tasks st0 = (Returned results, st', evs) ->
  List.length results = n
  /\ results.*1 = prompt_uids
  /\ forall i p, prompts !! i = Some p ->
       exists r, results !! i = Some (uuid4 w (drawn st + i), r)
                 /\ vendor w (launched st + i) p = inr r.
Proof.
  intros Hg.
  destruct (gather_returned (launched st) tasks st0 results st' evs eq_refl Hg)
    as (Hlen & Hok & _).
  rewrite tasks_length in Hlen, Hok.
  assert (Hres : forall i p, prompts !! i = Some p ->
            exists r, results !! i = Some (uuid4 w (drawn st + i), r)
                      /\ vendor w (launched st + i) p = inr r).
  { intros i p Hp. destruct (Hok i) as (a & Ha & Hr).
    { apply lookup_lt_Some in Hp. exact Hp. }
    rewrite (tasks_outcome i p Hp) in Ha.
    destruct (vendor w (launched st + i) p) as [e|r]; [discriminate|].
    injection Ha as <-. exists r. auto. }
  split; [exact Hlen|]. split; [|exact Hres].
  apply list_eq. intros i. rewrite list_lookup_fmap.
  destruct (decide (i < n)) as [Hi|Hi].
  - destruct (lookup_lt_is_Some_2 prompts i Hi) as [p Hp].
    destruct (Hres i p Hp) as (r & -> & _). cbn.
    symmetry. apply prompt_uids_lookup, Hi.
  - rewrite (lookup_ge_None_2 results) by lia.
    rewrite (lookup_ge_None_2 prompt_uids) by (rewrite prompt_uids_length; lia).
    reflexivity.
Qed.

Lemma reordered results st' evs ordered :
  gather w tasks st0 = (Returned results, st', evs) ->
  mapM (fun uid => response_map_of results !! uid) prompt_uids = Some ordered ->
  answers w (launched st) prompts ordered.
Proof.
  intros Hg Hm. destruct (tagged_results _ _ _ Hg) as (Hlen & Hfst & Hres).
  apply mapM_Some in Hm.
  pose proof (Forall2_length _ _ _ Hm) as Hl. rewrite prompt_uids_length in Hl.
  split; [fold n; lia|]. intros i p Hp.
  destruct (Hres i p Hp) as (r & Hr & Hv).
  assert (Hi : i < n) by (apply lookup_lt_Some in Hp; exact Hp).
  destruct (Forall2_lookup_l _ _ _ _ _ Hm (prompt_uids_lookup i Hi)) as (r' & Hr' & Hmap).
  exists r'. split; [exact Hr'|].
  rewrite (response_map_of_lookup results i _ r) in Hmap; [congruence| |exact Hr].
  rewrite Hfst. apply prompt_uids_NoDup.
Qed.

Lemma reordering_total results st' evs :
  gather w tasks st0 = (Returned results, st', evs) ->
  is_Some (mapM (fun uid => response_map_of results !! uid) prompt_uids).
Proof.
  intros Hg. destruct (tagged_results _ _ _ Hg) as (Hlen & Hfst & Hres).
  apply mapM_is_Some, Forall_forall. intros uid Huid.
  apply list_elem_of_lookup in Huid as [i Hi].
  assert (Hlt : i < n).
  { apply lookup_lt_Some in Hi. rewrite prompt_uids_length in Hi. exact Hi. }
  rewrite (prompt_uids_lookup i Hlt) in Hi. injection Hi as <-.
  destruct (lookup_lt_is_Some_2 prompts i Hlt) as [p Hp].
  destruct (Hres i p Hp) as (r & Hr & _).
  exists r. cbn. eapply response_map_of_lookup; [|exact Hr].
  rewrite Hfst. apply prompt_uids_NoDup.
Qed.

Lemma bedrock_returned rs st' evs :
  bedrock_generate_batch_async w prompts st = (Returned rs, st', evs) ->
  answers w (launched st) prompts rs.
Proof.
  rewrite bedrock_unfold.
  destruct (gather w tasks st0) as [[[results| |] st1] evs1] eqn:Hg; try discriminate.
  destruct (mapM _ prompt_uids) as [ordered|] eqn:Hm; [|discriminate].
  intros H. injection H as <- _ _. eapply reordered; eassumption.
Qed.

Lemma bedrock_total :
  all_calls_return w (launched st) prompts ->
  exists rs st' evs,
    bedrock_generate_batch_async w prompts st = (Returned rs, st', evs).
Proof.
  intros Hall. rewrite bedrock_unfold.
  destruct (gather_total (launched st) tasks st0 eq_refl) as (results & st1 & evs1 & Hg).
  { rewrite tasks_length. intros i Hi.
    destruct (lookup_lt_is_Some_2 prompts i Hi) as [p Hp].
    destruct (Hall i p Hp) as [r Hr].
    exists (uuid4 w (drawn st + i), r). rewrite (tasks_outcome i p Hp), Hr. reflexivity. }
  rewrite Hg. destruct (reordering_total _ _ _ Hg) as [ordered ->]. eauto.
Qed.

(** The override launches the whole batch in one gather. *)
Lemma bedrock_peak o st' evs :
  bedrock_generate_batch_async w prompts st = (o, st', evs) ->
  peak_in_flight evs = n.
Proof.
  rewrite bedrock_unfold. unfold peak_in_flight.
  destruct (gather w tasks st0) as [[o1 st1] evs1] eqn:Hg.
  pose proof (peak_gather tasks _ _ _ _ 0 Hg) as Hpk. rewrite tasks_length in Hpk.
  destruct o1 as [results| |].
  - destruct (mapM _ prompt_uids); intros H; injection H as _ _ <-;
      rewrite app_nil_r; exact Hpk.
  - intros H; injection H as _ _ <-; exact Hpk.
  - intros H; injection H as _ _ <-; exact Hpk.
Qed.
End Bedrock.

  (** *** The claims on the scheduler *)

(** C1: whatever the order in which the calls complete, a batch that
    returns hands back one response per prompt, the [i]-th being what the
    call made for the [i]-th prompt returned; and when every call returns,
    the batch does return.  This holds for the default implementation
    (GPT adapter) and for the UID-correlating override (Bedrock adapter). *)
Theorem C1_batch_preserves_order provider prompts st :
  (forall rs st' evs,
      provider_generate_batch_async provider w prompts st = (Returned rs, st', evs) ->
      answers w (launched st) prompts rs)
  /\ (all_calls_return w (launched st) prompts ->
      exists rs st' evs,
        provider_generate_batch_async provider w prompts st = (Returned rs, st', evs)
        /\ answers w (launched st) prompts rs).
Proof.
  destruct provider; cbn [provider_generate_batch_async].
  - split; [intros rs st' evs; apply bedrock_returned|].
    intros Hall. destruct (bedrock_total prompts st Hall) as (rs & st' & evs & H).
    exists rs, st', evs. split; [exact H|]. eapply bedrock_returned, H.
  - split; [intros rs st' evs; apply generate_batch_async_returned|].
    intros Hall. destruct (generate_batch_async_total prompts st Hall) as (rs & st' & evs & H).
    exists rs, st', evs. split; [exact H|]. eapply generate_batch_async_returned, H.
Qed.

(** C2, as the code has it: the default implementation, which the GPT
    adapter inherits, cuts the batch into contiguous waves of at most 50
    prompts, starts a wave only when every call of the earlier waves is
    done and so never has more than 50 calls in flight; the Bedrock
    override launches the whole batch in one gather, so its peak is the
    number of prompts. *)
Theorem C2_waves_bound_the_default_implementation prompts st o st' evs :
  (provider_generate_batch_async GPTLLMProvider w prompts st = (o, st', evs) ->
     peak_in_flight evs <= WAVE_SIZE
     /\ waves_sequential (launched st) evs)
  /\ (concat (waves prompts) = prompts
      /\ Forall (fun wave => List.length wave <= WAVE_SIZE) (waves prompts))
  /\ (provider_generate_batch_async BedrockLLMProvider w prompts st = (o, st', evs) ->
        peak_in_flight evs = List.length prompts).
Proof.
  cbn [provider_generate_batch_async]. split; [|split].
  - apply generate_batch_async_trace.
  - apply waves_partition.
  - apply bedrock_peak.
Qed.

End BatchFacts.

(** ** The properties on sample data *)

Section Samples.
Import PyStr Py Llm Result Provider Service Spec Batch Examples.
Local Open Scope list_scope.

Lemma reversed_world_perm base n :
  Permutation (completion reversed_world base n) (seq 0 n).
Proof. cbn. symmetry. apply Permutation_rev. Qed.

Lemma reversed_world_fresh i j :
  uuid4 reversed_world i = uuid4 reversed_world j -> i = j.
Proof. cbn. apply (inj pretty). Qed.

(** The Bedrock adapter on three prompts whose calls complete in reverse
    order. *)
Lemma C1_witness :
  exists rs st' evs,
    provider_generate_batch_async BedrockLLMProvider reversed_world [7; 8; 9] fresh_loop
    = (Returned rs, st', evs)
    /\ answers reversed_world 0 [7; 8; 9] rs.
Proof.
  apply (C1_batch_preserves_order reversed_world reversed_world_perm reversed_world_fresh
           BedrockLLMProvider [7; 8; 9] fresh_loop).
  intros i p _. eexists. reflexivity.
Defined.

(** The Bedrock adapter on 51 prompts has 51 calls in flight. *)
Lemma C2_counterexample :
  ~ (forall provider,
       peak_in_flight
         (provider_generate_batch_async provider reversed_world (seq 0 51) fresh_loop).2
       <= WAVE_SIZE).
Proof.
  intros H. specialize (H BedrockLLMProvider). vm_compute in H. lia.
Qed.

(** The default implementation on 120 prompts. *)
Lemma C2_witness :
  peak_in_flight
    (provider_generate_batch_async GPTLLMProvider reversed_world (seq 0 120) fresh_loop).2
  <= WAVE_SIZE
  /\ waves_sequential 0
       (provider_generate_batch_async GPTLLMProvider reversed_world (seq 0 120) fresh_loop).2.
Proof.
  destruct (provider_generate_batch_async GPTLLMProvider reversed_world (seq 0 120) fresh_loop)
    as [[o st'] evs] eqn:E.
  apply (proj1 (C2_waves_bound_the_default_implementation reversed_world reversed_world_perm
                  (seq 0 120) fresh_loop o st' evs)).
  exact E.
Defined.

(** The hard phase of Dr. Smith's run while the LLM backend is down. *)
Lemma C3_witness :
  exists results st',
    _check_hard_regulations outage sample_config (get_all_data dr_smith) ∅ empty_state
    = (inr results, st')
    /\ List.length results = List.length (cfg_hard_regulations sample_config)
    /\ Forall2 (rule_result dr_smith ∅) (cfg_hard_regulations sample_config) results.
Proof.
  apply (C3_batch_failure_falls_back outage sample_config dr_smith ∅ empty_state
           (Exn "ConnectionError" "LLM backend unavailable")).
  reflexivity.
Defined.

(** A provider id with a path separator: the session's log file cannot be
    opened in the logs directory, and the exception leaves
    [credential_provider]. *)
Lemma C4_counterexample :
  ~ (exists result st',
       credential_provider outage sample_config "ward/7" empty_state = (inr result, st')).
Proof.
  intros (result & st' & H). vm_compute in H. discriminate.
Qed.

(** An unknown provider id. *)
Lemma C4_witness :
  exists result st',
    credential_provider outage sample_config "P404" empty_state = (inr result, st')
    /\ compliance_status result = FAILED
    /\ errors result = ["Provider P404 not found"].
Proof.
  destruct (C4_pipeline_exceptions_become_failed_results
              outage sample_config "P404" empty_state)
    as (result & st' & Hrun & _ & Hunknown).
  - vm_compute. reflexivity.
  - exists result, st'. split; [exact Hrun|]. apply Hunknown. vm_compute. reflexivity.
Defined.

Lemma C5_witness :
  _parse_hard_regulation_response "Verdict: FAIL (licence expired)" HR002 = inr false
  /\ _parse_hard_regulation_response "PASS. All requirements met." HR002 = inr true
  /\ _parse_hard_regulation_response "Unable to decide." HR002
     = _validate_hard_regulation HR002 ∅.
Proof.
  split; [|split].
  - apply (proj1 (C5_parse_hard_regulation_response "Verdict: FAIL (licence expired)" HR002)).
    exists "Verdict: ", "FAIL", " (licence expired)". split; reflexivity.
  - apply (proj1 (proj2 (C5_parse_hard_regulation_response "PASS. All requirements met." HR002))).
    + exists "", "PASS", ". All requirements met.". split; reflexivity.
    + apply not_occurs_ci. reflexivity.
  - apply (proj1 (proj2 (proj2 (C5_parse_hard_regulation_response "Unable to decide." HR002)))).
    + apply not_occurs_ci. reflexivity.
    + apply not_occurs_ci. reflexivity.
Defined.

Lemma C6_witness :
  _determine_compliance_status [hard_result "HR001" true; hard_result "HR002" true]
  = COMPLIANT
  /\ _determine_compliance_status [hard_result "HR001" true; hard_result "HR002" false]
     = NON_COMPLIANT
  /\ _determine_compliance_status [] = FAILED.
Proof.
  split; [|split].
  - apply (proj1 (C6_determine_compliance_status _)). split; [discriminate|].
    repeat constructor.
  - apply (proj1 (proj2 (C6_determine_compliance_status _))); [discriminate|].
    apply Exists_cons_tl, Exists_cons_hd. reflexivity.
  - apply (proj2 (proj2 (C6_determine_compliance_status [])) eq_refl).
Defined.

(** The end-to-end scenario of the specification, in exact arithmetic:
    scores 5, 4, 3 with weights 0.4, 0.3, 0.3. *)
Example scenario_overall_score : _calculate_overall_score scenario_soft_results = 4%Z.
Proof. reflexivity. Qed.

Lemma C9_witness :
  _parse_hard_regulation_response "Unable to decide." HR002 = inr true.
Proof.
  apply (proj2 C9_empty_data_fallback "Unable to decide." HR002).
  - apply not_occurs_ci. reflexivity.
  - apply not_occurs_ci. reflexivity.
Defined.

Lemma C10_witness :
  is_compliant failed_result = true
  /\ to_dict failed_result !! "is_compliant" = Some (VBool true)
  /\ to_dict failed_result !! "compliance_status" = Some (VStr "FAILED")
  /\ exists result st',
       credential_provider outage soft_only_config "P001" empty_state = (inr result, st')
       /\ to_dict result !! "is_compliant" = Some (VBool true)
       /\ to_dict result !! "compliance_status" = Some (VStr "FAILED").
Proof.
  split; [|split; [|split]].
  - apply (proj1 C10_is_compliant_on_empty failed_result). reflexivity.
  - apply (proj1 (proj2 C10_is_compliant_on_empty) failed_result); reflexivity.
  - apply (proj1 (proj2 C10_is_compliant_on_empty) failed_result); reflexivity.
  - apply (proj2 (proj2 C10_is_compliant_on_empty) outage soft_only_config "P001" empty_state).
    + vm_compute. reflexivity.
    + reflexivity.
Defined.
(** The service builds its provider without a model name: it runs on the
    GPT adapter, hence on the default batch implementation. *)
Example service_provider_is_gpt : UnifiedLLMProvider None = inr GPTLLMProvider.
Proof. reflexivity. Qed.

(** Cost determinism: 1000 input and 1000 output tokens on gpt-4o-mini. *)
Example cost_determinism :
  let r := mk_LLMResponse "ok" 1000 1000 2000 "gpt-4o-mini" in
  (input_cost r == 0.00015)%Q /\ (output_cost r == 0.0006)%Q /\ (total_cost r == 0.00075)%Q.
Proof. repeat split. Qed.
End Samples.

(** * Further properties *)

(** ** Pricing and cost *)

Section PricingFacts.
Import PyStr Pricing Llm.
Local Open Scope list_scope.

Lemma table_get_In key d v : table_get key d = Some v -> In v (map snd d).
Proof.
  induction d as [|[k x] d IH]; [discriminate|]. cbn [table_get map snd].
  destruct (String.eqb k key).
  - intros H. injection H as ->. left. reflexivity.
  - intros H. right. apply IH, H.
Qed.

Lemma family_scan_In name d k v : family_scan name d = Some (k, v) -> In v (map snd d).
Proof.
  induction d as [|[k' x] d IH]; [discriminate|]. cbn [family_scan map snd].
  destruct (negb (String.eqb k' "default") && contains k' name).
  - intros H. injection H as _ ->. left. reflexivity.
  - intros H. right. apply IH, H.
Qed.

Lemma common_patterns_In name : In (common_patterns name) (map snd LLM_PRICING).
Proof.
  unfold common_patterns.
  repeat match goal with |- context [if ?b then _ else _] => destruct b end;
    vm_compute; tauto.
Qed.

Lemma pricing_in_table name : In (get_model_pricing name) (map snd LLM_PRICING).
Proof.
  unfold get_model_pricing.
  destruct (table_get _ LLM_PRICING) as [v|] eqn:E; [eapply table_get_In, E|].
  destruct (family_scan _ LLM_PRICING) as [[k v]|] eqn:F; [eapply family_scan_In, F|].
  apply common_patterns_In.
Qed.

Lemma table_rates_nonnegative :
  Forall (fun p => (0 <= fst p)%Q /\ (0 <= snd p)%Q) (map snd LLM_PRICING).
Proof. repeat constructor; cbn; discriminate. Qed.

Lemma pricing_rates_nonnegative name :
  (0 <= fst (get_model_pricing name))%Q /\ (0 <= snd (get_model_pricing name))%Q.
Proof.
  pose proof table_rates_nonnegative as H. rewrite Forall_forall in H.
  apply (H (get_model_pricing name)). apply list_elem_of_In, pricing_in_table.
Qed.

(** X1: the pricing lookup has no error path: for every model name the
    rate pair it returns is one of the entries of [LLM_PRICING], with
    non-negative rates. *)
Theorem X1_pricing_always_from_table name :
  In (get_model_pricing name) (map snd LLM_PRICING)
  /\ (0 <= fst (get_model_pricing name))%Q
  /\ (0 <= snd (get_model_pricing name))%Q.
Proof.
  split; [apply pricing_in_table|]. apply pricing_rates_nonnegative.
Qed.

(** X2: an ASCII model name whose normalised form contains "gpt-4" and
    is no key of the table is always priced at the "gpt-4.1" or the
    "gpt-4" rate: the substring loop settles it, so the pattern branch for
    "gpt-4" (turbo, preview, mini) is never reached. *)
Theorem X2_gpt4_variants_priced_by_first_matching_key name :
  Text.isascii name = true ->
  contains "gpt-4" (strip (lower name)) = true ->
  table_get (strip (lower name)) LLM_PRICING = None ->
  get_model_pricing name = (0.002, 0.008)%Q \/ get_model_pricing name = (0.03, 0.06)%Q.
Proof.
  intros _ Hc Hn. exact (gpt4_family_branch_unreachable name Hc Hn).
Qed.

Lemma X2_witness :
  get_model_pricing " GPT-4-32k-Custom " = (0.002, 0.008)%Q
  \/ get_model_pricing " GPT-4-32k-Custom " = (0.03, 0.06)%Q.
Proof.
  apply (X2_gpt4_variants_priced_by_first_matching_key " GPT-4-32k-Custom ");
    vm_compute; reflexivity.
Defined.

(** X3: whatever the model name, the costs of a response with non-negative
    token counts are non-negative, the total is the sum of the two parts,
    and a response without tokens costs nothing. *)
Theorem X3_response_costs content input_tokens output_tokens total_tokens model_name :
  let r := mk_LLMResponse content input_tokens output_tokens total_tokens model_name in
  total_cost r = (input_cost r + output_cost r)%Q
  /\ ((0 <= input_tokens)%Z -> (0 <= output_tokens)%Z ->
      (0 <= input_cost r)%Q /\ (0 <= output_cost r)%Q /\ (0 <= total_cost r)%Q)
  /\ (input_tokens = 0%Z -> output_tokens = 0%Z -> (total_cost r == 0)%Q).
Proof.
  unfold mk_LLMResponse.
  destruct (pricing_rates_nonnegative model_name) as (Hi & Ho).
  destruct (get_model_pricing model_name) as [ri ro]. cbn [fst snd] in Hi, Ho.
  cbn [total_cost input_cost output_cost].
  split; [reflexivity|]. split.
  - intros Hit Hot.
    assert (Hq : forall t, (0 <= t)%Z -> (0 <= inject_Z t / 1000)%Q).
    { intros t Ht. apply Qle_shift_div_l; [reflexivity|].
      rewrite Qmult_0_l. change 0%Q with (inject_Z 0). rewrite <- Zle_Qle. exact Ht. }
    assert (H1 : (0 <= inject_Z input_tokens / 1000 * ri)%Q)
      by (apply Qmult_le_0_compat; auto).
    assert (H2 : (0 <= inject_Z output_tokens / 1000 * ro)%Q)
      by (apply Qmult_le_0_compat; auto).
    split; [exact H1|]. split; [exact H2|].
    apply (Qplus_le_compat 0 _ 0 _ H1 H2).
  - intros -> ->. unfold Qdiv. rewrite !Qmult_0_l. reflexivity.
Qed.
End PricingFacts.

(** ** Dictionaries built by a loop of assignments *)

Section FoldInsert.
Context {X V : Type} (key : X -> string) (val : X -> V).
Local Open Scope list_scope.

Let assign (m : gmap string V) (x : X) : gmap string V := <[key x := val x]> m.

Lemma assign_absent l : forall acc k,
  k ∉ key <$> l -> fold_left assign l acc !! k = acc !! k.
Proof.
  induction l as [|x l IH]; intros acc k Hk; [reflexivity|].
  cbn [fold_left]. rewrite fmap_cons in Hk. apply not_elem_of_cons in Hk as [Hx Hl].
  rewrite IH by exact Hl. unfold assign. apply lookup_insert_ne. congruence.
Qed.

Lemma assign_present l : forall acc x,
  NoDup (key <$> l) -> x ∈ l -> fold_left assign l acc !! key x = Some (val x).
Proof.
  induction l as [|y l IH]; intros acc x Hnd Hx; [inversion Hx|].
  rewrite fmap_cons in Hnd. apply NoDup_cons in Hnd as [Hy Hnd].
  cbn [fold_left]. apply elem_of_cons in Hx as [->|Hx].
  - rewrite assign_absent by exact Hy. unfold assign. apply lookup_insert_eq.
  - apply IH; assumption.
Qed.

Lemma assign_origin l : forall acc k v,
  fold_left assign l acc !! k = Some v ->
  acc !! k = Some v \/ exists x, x ∈ l /\ key x = k /\ val x = v.
Proof.
  induction l as [|y l IH]; intros acc k v H; [left; exact H|].
  cbn [fold_left] in H. apply IH in H as [H|(x & Hx & Hk & Hv)].
  - unfold assign in H. destruct (decide (key y = k)) as [E|E].
    + rewrite E, lookup_insert_eq in H. right. exists y.
      split; [left|]. split; congruence.
    + rewrite lookup_insert_ne in H by exact E. left. exact H.
  - right. exists x. split; [right; exact Hx|]. split; assumption.
Qed.
End FoldInsert.

(** ** Regulation data, validation and scoring on a typed provider *)

Section DataFacts.
Import PyStr Py Llm Result Provider Service Spec Rules.
Local Open Scope list_scope.

Lemma extract_fold (provider_data : gmap string value) fields : forall acc k,
  fold_left (fun (relevant_data : gmap string value) field =>
               match provider_data !! field with
               | Some v => <[field := v]> relevant_data
               | None => relevant_data
               end) fields acc !! k
  = if bool_decide (k ∈ fields)
    then match provider_data !! k with Some v => Some v | None => acc !! k end
    else acc !! k.
Proof.
  induction fields as [|f fields IH]; intros acc k; [reflexivity|].
  cbn [fold_left]. rewrite IH.
  assert (Hstep : match provider_data !! k with
                  | Some v => Some v
                  | None => match provider_data !! f with
                            | Some v => <[f := v]> acc
                            | None => acc
                            end !! k
                  end
                  = match provider_data !! k with Some v => Some v | None => acc !! k end).
  { destruct (provider_data !! k) eqn:Ek; [reflexivity|].
    destruct (provider_data !! f) eqn:Ef; [|reflexivity].
    apply lookup_insert_ne. congruence. }
  destruct (bool_decide_reflect (k ∈ fields)) as [Hin|Hout].
  - rewrite bool_decide_eq_true_2 by (right; exact Hin). exact Hstep.
  - destruct (decide (k = f)) as [->|Hne].
    + rewrite bool_decide_eq_true_2 by left.
      destruct (provider_data !! f) eqn:Ef; [apply lookup_insert_eq|reflexivity].
    + rewrite bool_decide_eq_false_2
        by (intros [?|?]%elem_of_cons; [congruence|contradiction]).
      destruct (provider_data !! f); [|reflexivity].
      apply lookup_insert_ne. congruence.
Qed.

Lemma extract_lookup regulation provider_data verification_details k :
  _extract_regulation_data regulation provider_data verification_details !! k
  = if truthy_dict verification_details && String.eqb k "verification"
    then Some (VDict verification_details)
    else if bool_decide (k ∈ default [] (data_fields regulation))
         then provider_data !! k else None.
Proof.
  unfold _extract_regulation_data.
  destruct (truthy_dict verification_details); cbn [andb].
  - destruct (String.eqb_spec k "verification") as [->|Hne].
    + apply lookup_insert_eq.
    + rewrite lookup_insert_ne by congruence. rewrite extract_fold, lookup_empty.
      destruct (bool_decide _); [|reflexivity]. destruct (provider_data !! k); reflexivity.
  - rewrite extract_fold, lookup_empty.
    destruct (bool_decide _); [|reflexivity]. destruct (provider_data !! k); reflexivity.
Qed.

(** X4: the data extracted for a regulation holds, under each of the
    regulation's data fields that the provider data has, the provider's
    value, under "verification" the verification details when these are
    not empty (overriding a data field of that name), and nothing else. *)
Theorem X4_extract_regulation_data regulation provider_data verification_details k :
  _extract_regulation_data regulation provider_data verification_details !! k
  = if truthy_dict verification_details && String.eqb k "verification"
    then Some (VDict verification_details)
    else if bool_decide (k ∈ default [] (data_fields regulation))
         then provider_data !! k else None.
Proof. apply extract_lookup. Qed.

Lemma score_empty regulation : _score_soft_regulation regulation ∅ = inr 3%Z.
Proof.
  unfold _score_soft_regulation, score_field. rewrite !lookup_empty.
  repeat destruct (String.eqb _ _); reflexivity.
Qed.

(** X5: on empty data the scoring rule gives the default score 3 for
    every regulation, so a soft-regulation answer of the model in which no
    score is found is read as 3, and an answer with a score as that score;
    the parser never raises. *)
Theorem X5_parse_soft_regulation_response env response_content regulation :
  _score_soft_regulation regulation ∅ = inr 3%Z
  /\ _parse_soft_regulation_response env response_content regulation
     = inr (default 3%Z (score_search env response_content)).
Proof.
  split; [apply score_empty|].
  unfold _parse_soft_regulation_response.
  destruct (score_search env response_content); [reflexivity|apply score_empty].
Qed.

Section Typed.
Variables (regulation : Regulation) (provider : Provider)
          (verification_details : gmap string value).

Let data :=
  _extract_regulation_data regulation (get_all_data provider) verification_details.

Lemma typed_section section :
  section <> "verification" ->
  data !! section
  = if names_field regulation section then get_all_data provider !! section else None.
Proof.
  intros Hne. unfold data. rewrite extract_lookup.
  replace (String.eqb section "verification") with false
    by (symmetry; apply String.eqb_neq, Hne).
  rewrite andb_false_r. reflexivity.
Qed.

Lemma has_key_section section v :
  get_all_data provider !! section = Some v ->
  section <> "verification" ->
  has_key section data = names_field regulation section.
Proof.
  intros Hv Hne. unfold has_key. rewrite typed_section, Hv by exact Hne.
  destruct (names_field regulation section).
  - apply bool_decide_eq_true_2. eauto.
  - apply bool_decide_eq_false_2. intros [? ?]. discriminate.
Qed.

Lemma data_section section v :
  get_all_data provider !! section = Some v ->
  section <> "verification" ->
  data !! section = if names_field regulation section then Some v else None.
Proof. intros Hv Hne. rewrite typed_section, Hv by exact Hne. reflexivity. Qed.

Lemma all_data_ProfessionalIds :
  get_all_data provider !! "ProfessionalIds" = Some (VDict (p_ProfessionalIds provider)).
Proof. vm_compute. reflexivity. Qed.

Lemma all_data_Disclosure :
  get_all_data provider !! "Disclosure"
  = Some (VDict (Disclosure_dict (p_Disclosure provider))).
Proof. vm_compute. reflexivity. Qed.

Lemma all_data_PLIs :
  get_all_data provider !! "PLIs" = Some (VDict (PLIs_dict (p_PLIs provider))).
Proof. vm_compute. reflexivity. Qed.

Lemma all_data_BoardCertifications :
  get_all_data provider !! "BoardCertifications"
  = Some (VDict (BoardCertifications_dict (p_BoardCertifications provider))).
Proof. vm_compute. reflexivity. Qed.

Lemma all_data_WorkHistory :
  get_all_data provider !! "WorkHistory"
  = Some (VDict (WorkHistory_dict (p_WorkHistory provider))).
Proof. vm_compute. reflexivity. Qed.

Lemma all_data_ContinuingEducation :
  get_all_data provider !! "ContinuingEducation"
  = Some (VDict (ContinuingEducation_dict (p_ContinuingEducation provider))).
Proof. vm_compute. reflexivity. Qed.

Lemma all_data_QualityMetrics :
  get_all_data provider !! "QualityMetrics"
  = Some (VDict (QualityMetrics_dict (p_QualityMetrics provider))).
Proof. vm_compute. reflexivity. Qed.

Lemma get_disciplinary_actions d :
  py_get (VDict (Disclosure_dict d)) "disciplinary_actions" (VList [])
  = inr (strs (disciplinary_actions d)).
Proof. vm_compute. reflexivity. Qed.

Lemma get_criminal_record d :
  py_get (VDict (Disclosure_dict d)) "criminal_record" (VStr "")
  = inr (VStr (criminal_record d)).
Proof. vm_compute. reflexivity. Qed.

Lemma get_malpractice_insurance p :
  py_get (VDict (PLIs_dict p)) "malpractice_insurance" (VStr "")
  = inr (VStr (malpractice_insurance p)).
Proof. vm_compute. reflexivity. Qed.

Lemma get_board_certifications b :
  py_get (VDict (BoardCertifications_dict b)) "board_certifications" (VList [])
  = inr (strs (board_certifications b)).
Proof. vm_compute. reflexivity. Qed.

Lemma get_years_experience w :
  py_get (VDict (WorkHistory_dict w)) "years_experience" (VInt 0)
  = inr (VInt (years_experience w)).
Proof. vm_compute. reflexivity. Qed.

Lemma get_cme_credits c :
  py_get (VDict (ContinuingEducation_dict c)) "cme_credits" (VInt 0)
  = inr (VInt (cme_credits c)).
Proof. vm_compute. reflexivity. Qed.

Lemma get_quality_score q :
  py_get (VDict (QualityMetrics_dict q)) "quality_score" (VInt 0)
  = inr (VFloat (quality_score q)).
Proof. vm_compute. reflexivity. Qed.

Lemma band_range x t5 t4 t3 t2 : (1 <= band x t5 t4 t3 t2 <= 5)%Z.
Proof. unfold band. repeat destruct (Qle_bool _ _); lia. Qed.

Lemma ladder_int z t5 t4 t3 t2 :
  ladder (VInt z) t5 t4 t3 t2 = inr (band (inject_Z z) t5 t4 t3 t2).
Proof.
  unfold ladder, band, py_ge. cbn [bind ret].
  repeat (destruct (Qle_bool _ _); [reflexivity|cbn [bind ret]]). reflexivity.
Qed.

Lemma ladder_float x t5 t4 t3 t2 :
  ladder (VFloat x) t5 t4 t3 t2 = inr (band x t5 t4 t3 t2).
Proof.
  unfold ladder, band, py_ge. cbn [bind ret].
  repeat (destruct (Qle_bool _ _); [reflexivity|cbn [bind ret]]). reflexivity.
Qed.

Lemma score_typed :
  _score_soft_regulation regulation data = inr (typed_score regulation provider).
Proof.
  unfold _score_soft_regulation, typed_score, score_field.
  destruct (String.eqb (reg_id regulation) "SR001").
  { rewrite (data_section _ _ all_data_WorkHistory) by discriminate.
    destruct (names_field regulation "WorkHistory"); [|reflexivity].
    rewrite get_years_experience. cbn [bind]. apply ladder_int. }
  destruct (String.eqb (reg_id regulation) "SR002").
  { rewrite (data_section _ _ all_data_ContinuingEducation) by discriminate.
    destruct (names_field regulation "ContinuingEducation"); [|reflexivity].
    rewrite get_cme_credits. cbn [bind]. apply ladder_int. }
  destruct (String.eqb (reg_id regulation) "SR003"); [|reflexivity].
  rewrite (data_section _ _ all_data_QualityMetrics) by discriminate.
  destruct (names_field regulation "QualityMetrics"); [|reflexivity].
  rewrite get_quality_score. cbn [bind]. apply ladder_float.
Qed.

Lemma typed_score_range : (1 <= typed_score regulation provider <= 5)%Z.
Proof.
  unfold typed_score.
  repeat match goal with
         | |- context [if ?b then _ else _] =>
             lazymatch b with
             | String.eqb _ _ => destruct b
             | names_field _ _ => destruct b
             end
         end; try lia; apply band_range.
Qed.

Let vc := default ∅ (validation_criteria regulation).

Lemma check_license_typed :
  check_license_status vc data
  = inr (if wants regulation "license_status" "ProfessionalIds" then Some true else None).
Proof.
  unfold check_license_status, wants. fold vc.
  rewrite (has_key_section _ _ all_data_ProfessionalIds) by discriminate.
  unfold names_field. destruct (_ && _); reflexivity.
Qed.

Lemma check_disciplinary_typed :
  check_disciplinary_actions vc data
  = inr (if wants regulation "disciplinary_actions" "Disclosure"
            && negb (is_nil (disciplinary_actions (p_Disclosure provider)))
         then Some false else None).
Proof.
  unfold check_disciplinary_actions, wants. fold vc.
  rewrite (data_section _ _ all_data_Disclosure) by discriminate.
  fold (names_field regulation "Disclosure").
  destruct (has_key "disciplinary_actions" vc); [|reflexivity].
  destruct (names_field regulation "Disclosure"); [|reflexivity].
  rewrite get_disciplinary_actions. cbn [bind]. rewrite py_len_strs. cbn [bind ret andb].
  destruct (disciplinary_actions (p_Disclosure provider)) as [|a l]; [reflexivity|].
  cbn [List.length is_nil negb].
  replace (0 <? Z.of_nat (S (List.length l)))%Z with true
    by (symmetry; apply Z.ltb_lt; lia).
  reflexivity.
Qed.

Lemma check_malpractice_typed :
  check_malpractice_insurance vc data
  = inr (if wants regulation "malpractice_insurance" "PLIs"
            && negb (String.eqb (malpractice_insurance (p_PLIs provider)) "Active")
         then Some false else None).
Proof.
  unfold check_malpractice_insurance, wants. fold vc.
  rewrite (data_section _ _ all_data_PLIs) by discriminate.
  fold (names_field regulation "PLIs").
  destruct (has_key "malpractice_insurance" vc); [|reflexivity].
  destruct (names_field regulation "PLIs"); [|reflexivity].
  rewrite get_malpractice_insurance. reflexivity.
Qed.

Lemma check_board_typed :
  check_board_certification vc data
  = inr (if wants regulation "board_certification" "BoardCertifications"
            && is_nil (board_certifications (p_BoardCertifications provider))
         then Some false else None).
Proof.
  unfold check_board_certification, wants. fold vc.
  rewrite (data_section _ _ all_data_BoardCertifications) by discriminate.
  fold (names_field regulation "BoardCertifications").
  destruct (has_key "board_certification" vc); [|reflexivity].
  destruct (names_field regulation "BoardCertifications"); [|reflexivity].
  rewrite get_board_certifications. cbn [bind]. rewrite py_len_strs. cbn [bind ret andb].
  destruct (board_certifications (p_BoardCertifications provider)) as [|a l];
    [reflexivity|].
  cbn [List.length is_nil].
  replace (Z.of_nat (S (List.length l)) =? 0)%Z with false
    by (symmetry; apply Z.eqb_neq; lia).
  reflexivity.
Qed.

Lemma check_criminal_typed :
  check_criminal_record vc data
  = inr (if wants regulation "criminal_record" "Disclosure"
            && negb (String.eqb (criminal_record (p_Disclosure provider)) "Clean")
         then Some false else None).
Proof.
  unfold check_criminal_record, wants. fold vc.
  rewrite (data_section _ _ all_data_Disclosure) by discriminate.
  fold (names_field regulation "Disclosure").
  destruct (has_key "criminal_record" vc); [|reflexivity].
  destruct (names_field regulation "Disclosure"); [|reflexivity].
  rewrite get_criminal_record. reflexivity.
Qed.

Lemma validate_typed :
  _validate_hard_regulation regulation data = inr (typed_verdict regulation provider).
Proof.
  unfold _validate_hard_regulation, typed_verdict. cbv zeta. fold vc.
  rewrite check_license_typed, check_disciplinary_typed, check_malpractice_typed,
    check_board_typed, check_criminal_typed.
  destruct (wants regulation "license_status" "ProfessionalIds"); [reflexivity|].
  cbn [or_return bind ret].
  repeat (destruct (wants _ _ _ && _); [reflexivity|cbn [or_return bind ret]]).
  reflexivity.
Qed.
End Typed.

(** X6: on the data extracted from a provider record the scoring rule
    never raises: it returns the band (5, 4, 3, 2 or 1) of the provider's
    years of experience for "SR001", of the CME credits for "SR002" and of
    the quality score for "SR003", when the regulation names the section
    among its data fields, and 3 otherwise; always a score from 1 to 5. *)
Theorem X6_score_soft_regulation_on_provider regulation provider verification_details :
  _score_soft_regulation regulation
    (_extract_regulation_data regulation (get_all_data provider) verification_details)
  = inr (typed_score regulation provider)
  /\ (1 <= typed_score regulation provider <= 5)%Z.
Proof. split; [apply score_typed|apply typed_score_range]. Qed.

(** X7: on the data extracted from a provider record the validation rule
    never raises, and its verdict is read off the record: a regulation
    with the license criterion and the "ProfessionalIds" section passes at
    once, whatever its other criteria; otherwise it fails exactly when a
    criterion it names, on a section it names, finds a disciplinary
    action, an insurance status other than "Active", no board
    certification, or a criminal record other than "Clean". *)
Theorem X7_validate_hard_regulation_on_provider regulation provider verification_details :
  _validate_hard_regulation regulation
    (_extract_regulation_data regulation (get_all_data provider) verification_details)
  = inr (typed_verdict regulation provider).
Proof. apply validate_typed. Qed.
End DataFacts.

(** ** The two regulation phases, on every answer of the model *)

Section TrackFacts.
Import PyStr Py Llm Result Provider Service Spec Store Track.
Local Open Scope list_scope.

Lemma returns_ret {A} (a : A) : returns (retM a).
Proof. intros st. eexists _, _. reflexivity. Qed.

Lemma returns_logger e : returns (logger e).
Proof. intros st. eexists _, _. reflexivity. Qed.

Lemma returns_lift {A} (r : res A) a : r = inr a -> returns (liftM r).
Proof. intros -> st. eexists _, _. reflexivity. Qed.

Lemma returns_bind {A B} (m : M A) (f : A -> M B) :
  returns m -> (forall a, returns (f a)) -> returns (bindM m f).
Proof.
  intros Hm Hf st. destruct (Hm st) as (a & st1 & E).
  destruct (Hf a st1) as (b & st2 & F). exists b, st2.
  unfold bindM. rewrite E. exact F.
Qed.

Lemma quiet_ret {A} (a : A) : quiet (retM a).
Proof. intros st r st' H. injection H as <- <-. reflexivity. Qed.

Lemma quiet_raise {A} e : quiet (@raiseM A e).
Proof. intros st r st' H. injection H as <- <-. reflexivity. Qed.

Lemma quiet_lift {A} (x : res A) : quiet (liftM x).
Proof. intros st r st' H. injection H as <- <-. destruct x; reflexivity. Qed.

Lemma quiet_logger e : quiet (logger e).
Proof. intros st r st' H. injection H as <- <-. reflexivity. Qed.

Lemma tracks_bind {A B} (m : M A) (f : A -> M B) post :
  quiet m -> (forall a, tracks (f a) post) -> tracks (bindM m f) post.
Proof.
  intros Hm Hf st r st' H. unfold bindM in H.
  destruct (m st) as [[e|a] st1] eqn:E.
  - injection H as <- <-. exact (Hm _ _ _ E).
  - pose proof (Hm _ _ _ E) as Hb. cbn beta in Hb.
    pose proof (Hf a _ _ _ H) as Hpost. rewrite Hb in Hpost.
    destruct r; [congruence|exact Hpost].
Qed.

Lemma quiet_apply {A} (m : M A) st r st' :
  m st = (r, st') -> quiet m -> books st' = books st.
Proof. intros H Hq. specialize (Hq _ _ _ H). destruct r; exact Hq. Qed.

Lemma quiet_intro {A} (m : M A) :
  (forall st r st', m st = (r, st') -> books st' = books st) -> quiet m.
Proof. intros H st r st' E. specialize (H _ _ _ E). destruct r; exact H. Qed.

Lemma logger_books e st x st' : logger e st = (x, st') -> books st' = books st.
Proof. intros H. injection H as _ <-. reflexivity. Qed.

(** *** Hard regulations *)

Lemma parse_hard_returns text regulation :
  exists b, _parse_hard_regulation_response text regulation = inr b.
Proof.
  rewrite parse_hard_cases.
  destruct (contains "fail" (lower text)); [eauto|].
  destruct (contains "pass" (lower text)); [eauto|].
  rewrite validate_empty_data. eauto.
Qed.

Lemma drop_lookup_cons {A} (l : list A) i x :
  l !! i = Some x -> drop i l = x :: drop (S i) l.
Proof.
  revert i. induction l as [|y l IH]; intros [|i] H; try discriminate.
  - injection H as ->. reflexivity.
  - cbn. apply IH, H.
Qed.

Lemma process_hard_responses_spec env provider_data regulation_data llm_responses :
  forall i results st,
  exists rs st',
    process_hard_responses env provider_data regulation_data i llm_responses results st
    = (if (List.length regulation_data - i <? List.length llm_responses)%nat
       then Some (Exn "IndexError" "list index out of range") else None,
       results ++ rs, st')
    /\ Forall2 answered_result (zip (drop i regulation_data) llm_responses) rs
    /\ books st' = books st.
Proof.
  induction llm_responses as [|response rest IH]; intros i results st;
    cbn [process_hard_responses].
  - exists [], st. rewrite app_nil_r. cbn [List.length]. rewrite zip_with_nil_r.
    split; [reflexivity|]. split; [constructor|reflexivity].
  - destruct (regulation_data !! i) as [[regulation relevant_data]|] eqn:Ei.
    + destruct (parse_hard_returns (content response) regulation) as [b Hb].
      rewrite Hb. cbn [logger].
      match goal with |- context [process_hard_responses _ _ _ _ rest ?r ?s] =>
        destruct (IH (S i) r s) as (rs & st' & -> & HF & Hbk) end.
      exists (mk_HardRegulationResult regulation b relevant_data :: rs), st'.
      pose proof (lookup_lt_Some _ _ _ Ei) as Hlt.
      split; [|split].
      * rewrite <- app_assoc. cbn [List.length app].
        replace (List.length regulation_data - i <? S (List.length rest))%nat
          with (List.length regulation_data - S i <? List.length rest)%nat; [reflexivity|].
        destruct (Nat.ltb_spec (List.length regulation_data - S i) (List.length rest));
          symmetry; [apply Nat.ltb_lt|apply Nat.ltb_ge]; lia.
      * rewrite (drop_lookup_cons _ _ _ Ei). cbn [zip_with].
        constructor; [|exact HF]. split; [exact Hb|reflexivity].
      * exact Hbk.
    + exists [], st. rewrite app_nil_r.
      apply lookup_ge_None in Ei.
      replace (List.length regulation_data - i)%nat with 0%nat by lia.
      rewrite drop_ge by exact Ei. cbn.
      split; [reflexivity|]. split; [constructor|reflexivity].
Qed.

Lemma validate_sequentially_quiet env provider_data verification_details regs :
  forall results,
    quiet (validate_sequentially env provider_data verification_details regs results).
Proof.
  induction regs as [|regulation regs IH]; intros results; cbn [validate_sequentially].
  - apply quiet_ret.
  - apply tracks_bind; [apply quiet_lift|intros passed].
    apply tracks_bind; [apply quiet_logger|intros _]. apply IH.
Qed.

Lemma check_hard_quiet env cfg provider_data verification_details :
  quiet (_check_hard_regulations env cfg provider_data verification_details).
Proof.
  apply quiet_intro. intros st r st' H. unfold _check_hard_regulations in H.
  destruct (generate_batch_async env _) as [e|llm_responses].
  - apply (quiet_apply _ _ _ _ H).
    apply tracks_bind; [apply quiet_logger|intros _].
    apply validate_sequentially_quiet.
  - match type of H with context [process_hard_responses ?a ?b ?c ?d ?e ?f ?g] =>
      destruct (process_hard_responses_spec a b c e d f g) as (rs & st1 & Hp & _ & Hbk);
      rewrite Hp in H
    end.
    destruct (_ <? _)%nat.
    + rewrite <- Hbk. apply (quiet_apply _ _ _ _ H).
      apply tracks_bind; [apply quiet_logger|intros _].
      apply validate_sequentially_quiet.
    + injection H as <- <-. exact Hbk.
Qed.

Lemma check_hard_returns env cfg provider verification_details :
  returns (_check_hard_regulations env cfg (get_all_data provider) verification_details).
Proof.
  intros st. unfold _check_hard_regulations.
  destruct (generate_batch_async env _) as [e|llm_responses].
  - unfold bindM at 1, logger at 1.
    match goal with |- context [validate_sequentially _ _ _ ?regs ?r ?s] =>
      destruct (validate_sequentially_returns env provider verification_details regs r s)
        as (rs & st' & -> & _) end.
    eauto.
  - match goal with |- context [process_hard_responses ?a ?b ?c ?d ?e ?f ?g] =>
      destruct (process_hard_responses_spec a b c e d f g) as (rs & st1 & -> & _ & _)
    end.
    destruct (_ <? _)%nat; [|eauto].
    unfold bindM at 1, logger at 1.
    match goal with |- context [validate_sequentially _ _ _ ?regs ?r ?s] =>
      destruct (validate_sequentially_returns env provider verification_details regs r s)
        as (rs' & st' & -> & _) end.
    eauto.
Qed.

(** X8: when the batch call of the hard phase returns no more responses
    than there are hard regulations, the phase returns one result per
    response, in order: the i-th result is for the i-th configured
    regulation, with the verdict parsed from the i-th response and that
    regulation's extracted data; no regulation is re-evaluated by the
    rule, and regulations beyond the last response get no result. *)
Theorem X8_hard_phase_pairs_responses_with_regulations
    env cfg provider_data verification_details st llm_responses :
  generate_batch_async env
    (hard_regulation_prompts env cfg provider_data verification_details)
  = inr llm_responses ->
  List.length llm_responses <= List.length (cfg_hard_regulations cfg) ->
  exists results st',
    _check_hard_regulations env cfg provider_data verification_details st
    = (inr results, st')
    /\ List.length results = List.length llm_responses
    /\ Forall2 answered_result
         (zip (hard_regulation_data cfg provider_data verification_details) llm_responses)
         results.
Proof.
  intros Hbatch Hlen. unfold _check_hard_regulations. rewrite Hbatch.
  match goal with |- context [process_hard_responses ?a ?b ?c ?d ?e ?f ?g] =>
    destruct (process_hard_responses_spec a b c e d f g) as (rs & st1 & -> & HF & _)
  end.
  assert (Hn : List.length (hard_regulation_data cfg provider_data verification_details)
               = List.length (cfg_hard_regulations cfg))
    by (unfold hard_regulation_data; apply length_map).
  replace (_ <? _)%nat with false by (symmetry; apply Nat.ltb_ge; lia).
  exists rs, st1. rewrite drop_0 in HF. split; [reflexivity|]. split; [|exact HF].
  apply Forall2_length in HF. rewrite <- HF, length_zip_with. lia.
Qed.

(** *** Soft regulations *)

Lemma parse_soft_value env text regulation :
  _parse_soft_regulation_response env text regulation
  = inr (default 3%Z (score_search env text)).
Proof.
  unfold _parse_soft_regulation_response.
  destruct (score_search env text); [reflexivity|apply score_empty].
Qed.

Lemma process_soft_responses_spec env provider_data regulation_data llm_responses :
  forall i results st,
  exists rs st',
    process_soft_responses env provider_data regulation_data i llm_responses results st
    = (if (List.length regulation_data - i <? List.length llm_responses)%nat
       then Some (Exn "IndexError" "list index out of range") else None,
       results ++ rs, st')
    /\ Forall2 (scored_result env) (zip (drop i regulation_data) llm_responses) rs
    /\ books st' = books st.
Proof.
  induction llm_responses as [|response rest IH]; intros i results st;
    cbn [process_soft_responses].
  - exists [], st. rewrite app_nil_r. cbn [List.length]. rewrite zip_with_nil_r.
    split; [reflexivity|]. split; [constructor|reflexivity].
  - destruct (regulation_data !! i) as [[regulation relevant_data]|] eqn:Ei.
    + rewrite parse_soft_value. cbn [logger].
      match goal with |- context [process_soft_responses _ _ _ _ rest ?r ?s] =>
        destruct (IH (S i) r s) as (rs & st' & -> & HF & Hbk) end.
      eexists (_ :: rs), st'.
      pose proof (lookup_lt_Some _ _ _ Ei) as Hlt.
      split; [|split].
      * rewrite <- app_assoc. cbn [List.length app].
        replace (List.length regulation_data - i <? S (List.length rest))%nat
          with (List.length regulation_data - S i <? List.length rest)%nat; [reflexivity|].
        destruct (Nat.ltb_spec (List.length regulation_data - S i) (List.length rest));
          symmetry; [apply Nat.ltb_lt|apply Nat.ltb_ge]; lia.
      * rewrite (drop_lookup_cons _ _ _ Ei). cbn [zip_with].
        constructor; [|exact HF]. split; [apply parse_soft_value|reflexivity].
      * exact Hbk.
    + exists [], st. rewrite app_nil_r.
      apply lookup_ge_None in Ei.
      replace (List.length regulation_data - i)%nat with 0%nat by lia.
      rewrite drop_ge by exact Ei. cbn.
      split; [reflexivity|]. split; [constructor|reflexivity].
Qed.

Lemma score_sequentially_quiet env provider_data regs :
  forall results, quiet (score_sequentially env provider_data regs results).
Proof.
  induction regs as [|regulation regs IH]; intros results; cbn [score_sequentially].
  - apply quiet_ret.
  - apply tracks_bind; [apply quiet_lift|intros score].
    apply tracks_bind; [apply quiet_logger|intros _]. apply IH.
Qed.

Lemma score_sequentially_returns env provider regs :
  forall results st,
  exists rs st',
    score_sequentially env (get_all_data provider) regs results st
    = (inr (results ++ rs), st')
    /\ Forall2 (rule_score provider) regs rs.
Proof.
  induction regs as [|regulation regs IH]; intros results st; cbn [score_sequentially].
  - exists [], st. rewrite app_nil_r. split; [reflexivity|constructor].
  - unfold bindM at 1, liftM at 1. rewrite score_typed.
    unfold bindM at 1, logger at 1.
    match goal with |- context [score_sequentially _ _ regs ?r ?s] =>
      destruct (IH r s) as (rs & st' & -> & HF) end.
    eexists (_ :: rs), st'. split.
    + rewrite <- app_assoc. reflexivity.
    + constructor; [|exact HF]. split; [apply score_typed|reflexivity].
Qed.

Lemma score_soft_unfold env cfg provider_data st :
  _score_soft_regulations env cfg provider_data st =
    let '(raised, results, st1) :=
      match generate_batch_async env (soft_regulation_prompts env cfg provider_data) with
      | inl e => (Some e, [], st)
      | inr llm_responses =>
          process_soft_responses env provider_data
            (soft_regulation_data cfg provider_data) 0 llm_responses [] st
      end in
    match raised with
    | None => (inr results, st1)
    | Some e =>
        (logger (LogStep "soft_regulations_batch_failed"
                   ("Batch processing failed, falling back to sequential processing: "
                    +:+ exn_msg e)) ;;;
         score_sequentially env provider_data (cfg_soft_regulations cfg) results)%service st1
    end.
Proof. reflexivity. Qed.

Lemma score_soft_quiet env cfg provider_data :
  quiet (_score_soft_regulations env cfg provider_data).
Proof.
  apply quiet_intro. intros st r st' H. rewrite score_soft_unfold in H.
  destruct (generate_batch_async env _) as [e|llm_responses].
  - apply (quiet_apply _ _ _ _ H).
    apply tracks_bind; [apply quiet_logger|intros _].
    apply score_sequentially_quiet.
  - match type of H with context [process_soft_responses ?a ?b ?c ?d ?e ?f ?g] =>
      destruct (process_soft_responses_spec a b c e d f g) as (rs & st1 & Hp & _ & Hbk);
      rewrite Hp in H
    end.
    destruct (_ <? _)%nat.
    + rewrite <- Hbk. apply (quiet_apply _ _ _ _ H).
      apply tracks_bind; [apply quiet_logger|intros _].
      apply score_sequentially_quiet.
    + injection H as <- <-. exact Hbk.
Qed.

Lemma score_soft_returns env cfg provider :
  returns (_score_soft_regulations env cfg (get_all_data provider)).
Proof.
  intros st. rewrite score_soft_unfold.
  destruct (generate_batch_async env _) as [e|llm_responses].
  - unfold bindM at 1, logger at 1.
    match goal with |- context [score_sequentially _ _ ?regs ?r ?s] =>
      destruct (score_sequentially_returns env provider regs r s)
        as (rs & st' & -> & _) end.
    eauto.
  - match goal with |- context [process_soft_responses ?a ?b ?c ?d ?e ?f ?g] =>
      destruct (process_soft_responses_spec a b c e d f g) as (rs & st1 & -> & _ & _)
    end.
    destruct (_ <? _)%nat; [|eauto].
    unfold bindM at 1, logger at 1.
    match goal with |- context [score_sequentially _ _ ?regs ?r ?s] =>
      destruct (score_sequentially_returns env provider regs r s)
        as (rs' & st' & -> & _) end.
    eauto.
Qed.

(** X9: when the batch call of the soft phase returns no more responses
    than there are soft regulations, the phase returns one result per
    response, in order: the i-th result is for the i-th configured soft
    regulation, with the score read from the i-th response (3 when the
    response holds none), maximum 5, the regulation's weight and their
    product as weighted score. *)
Theorem X9_soft_phase_pairs_responses_with_regulations
    env cfg provider_data st llm_responses :
  generate_batch_async env (soft_regulation_prompts env cfg provider_data)
  = inr llm_responses ->
  List.length llm_responses <= List.length (cfg_soft_regulations cfg) ->
  exists results st',
    _score_soft_regulations env cfg provider_data st = (inr results, st')
    /\ List.length results = List.length llm_responses
    /\ Forall2 (scored_result env)
         (zip (soft_regulation_data cfg provider_data) llm_responses) results
    /\ Forall2 (fun response result =>
                  score result = default 3%Z (score_search env (content response))
                  /\ max_score result = 5%Z
                  /\ weighted_score result = (inject_Z (score result) * weight result)%Q)
         llm_responses results.
Proof.
  intros Hbatch Hlen. rewrite score_soft_unfold, Hbatch.
  match goal with |- context [process_soft_responses ?a ?b ?c ?d ?e ?f ?g] =>
    destruct (process_soft_responses_spec a b c e d f g) as (rs & st1 & -> & HF & _)
  end.
  assert (Hn : List.length (soft_regulation_data cfg provider_data)
               = List.length (cfg_soft_regulations cfg))
    by (unfold soft_regulation_data; apply length_map).
  replace (_ <? _)%nat with false by (symmetry; apply Nat.ltb_ge; lia).
  exists rs, st1. rewrite drop_0 in HF. split; [reflexivity|].
  pose proof (Forall2_length _ _ _ HF) as HL. rewrite length_zip_with in HL.
  split; [lia|]. split; [exact HF|].
  apply Forall2_same_length_lookup. split; [lia|].
  intros i response result Hr Hres.
  destruct (lookup_lt_is_Some_2 (soft_regulation_data cfg provider_data) i)
    as [[regulation relevant_data] Hd].
  { apply lookup_lt_Some in Hr. lia. }
  assert (Hz : zip (soft_regulation_data cfg provider_data) llm_responses !! i
               = Some (regulation, relevant_data, response)).
  { rewrite lookup_zip_with, Hd. cbn. rewrite Hr. reflexivity. }
  destruct (Forall2_lookup_lr _ _ _ _ _ _ HF Hz Hres) as [Hparse ->].
  rewrite parse_soft_value in Hparse. injection Hparse as Hs.
  split; [symmetry; exact Hs|]. split; reflexivity.
Qed.
End TrackFacts.

(** ** Runs of [credential_provider]: outcome, result store and audit trail *)

Section RunFacts.
Import PyStr Py Llm Result Provider Service Spec Store Track.
Local Open Scope list_scope.

Lemma tracks_raise {A} e post : tracks (@raiseM A e) post.
Proof. intros st r st' H. injection H as <- <-. reflexivity. Qed.

Lemma returns_store provider_id result : returns (store_result provider_id result).
Proof. intros st. eexists _, _. reflexivity. Qed.

Lemma returns_audit event_type : returns (log_audit_event event_type).
Proof. intros st. eexists _, _. reflexivity. Qed.

(** The report step: whatever happens inside, it returns and leaves its
    audit events behind. *)
Lemma generate_report_spec env provider_id st :
  exists st',
    generate_report env provider_id st = (inr tt, st')
    /\ books st' = ((books st).1 ++ report_events env provider_id, (books st).2).
Proof.
  unfold generate_report, report_events, try_except,
    ReportService_generate_credentialing_report.
  unfold bindM at 1, liftM at 1.
  destruct (report_service env) as [e|[]].
  { eexists. split; [reflexivity|]. reflexivity. }
  unfold bindM at 1.
  destruct (generate_credentialing_report env provider_id (session_id env provider_id))
    as [e|report].
  { unfold bindM, log_audit_event, raiseM. cbn.
    eexists. split; [reflexivity|]. unfold books. cbn. rewrite <- app_assoc. reflexivity. }
  unfold bindM, log_audit_event, retM, liftM.
  destruct (py_get _ "report_id" VNone) as [e|v]; cbn;
    (eexists; split; [reflexivity|]; unfold books; cbn; rewrite <- app_assoc; reflexivity).
Qed.

Lemma returns_report env provider_id : returns (generate_report env provider_id).
Proof.
  intros st. destruct (generate_report_spec env provider_id st) as (st' & H & _). eauto.
Qed.

Lemma py_div_zero a :
  py_div a (of_nat 0) = inl (Exn "ZeroDivisionError" "division by zero").
Proof. reflexivity. Qed.

Lemma py_div_returns a n : n <> 0 -> exists q, py_div a (of_nat n) = inr q.
Proof.
  intros Hn. unfold py_div. destruct (Qeq_bool (of_nat n) 0) eqn:E; [|eauto].
  apply Qeq_bool_eq in E. unfold of_nat, Qeq in E. cbn in E. lia.
Qed.

Lemma validate_result_returns r :
  (1 <= cr_score r <= 5)%Z -> validate_CredentialingResult r = inr r.
Proof.
  intros H. unfold validate_CredentialingResult.
  replace (1 <=? cr_score r)%Z with true by (symmetry; apply Z.leb_le; lia).
  replace (cr_score r <=? 5)%Z with true by (symmetry; apply Z.leb_le; lia).
  reflexivity.
Qed.

(** The [try] block returns whenever the provider is known and at least
    one regulation is configured. *)
Lemma pipeline_returns env cfg provider_id provider :
  providers cfg !! provider_id = Some provider ->
  List.length (cfg_hard_regulations cfg) + List.length (cfg_soft_regulations cfg) <> 0 ->
  returns (pipeline env cfg provider_id).
Proof.
  intros Hp Hn. unfold pipeline.
  apply returns_bind; [apply returns_logger|intros _]. rewrite Hp. cbv zeta.
  apply returns_bind; [apply returns_logger|intros _].
  apply returns_bind; [apply returns_logger|intros _].
  match goal with |- context [py_div ?a (of_nat ?n)] =>
    destruct (py_div_returns a n Hn) as [q Hq] end.
  apply returns_bind; [eapply returns_lift, Hq|intros mapping_quality].
  apply returns_bind; [apply returns_logger|intros _].
  apply returns_bind; [apply returns_logger|intros _].
  apply returns_bind; [apply returns_logger|intros _].
  apply returns_bind; [apply returns_logger|intros _].
  apply returns_bind; [apply check_hard_returns|intros hrs].
  apply returns_bind; [apply returns_logger|intros _].
  apply returns_bind; [apply returns_logger|intros _].
  apply returns_bind; [apply score_soft_returns|intros srs].
  apply returns_bind; [apply returns_logger|intros _].
  apply returns_bind; [apply returns_logger|intros _].
  apply returns_bind;
    [eapply returns_lift, validate_result_returns, calculate_bounds|intros result].
  apply returns_bind; [apply returns_logger|intros _].
  apply returns_bind; [apply returns_logger|intros _].
  apply returns_bind; [apply returns_store|intros _].
  apply returns_bind; [apply returns_audit|intros _].
  apply returns_bind; [apply returns_logger|intros _].
  apply returns_bind; [apply returns_report|intros _].
  apply returns_ret.
Qed.

(** Without any configured regulation the mapping-quality ratio divides
    by zero. *)
Lemma pipeline_no_regulations env cfg provider_id provider st :
  providers cfg !! provider_id = Some provider ->
  cfg_hard_regulations cfg = [] ->
  cfg_soft_regulations cfg = [] ->
  exists st',
    pipeline env cfg provider_id st
    = (inl (Exn "ZeroDivisionError" "division by zero"), st').
Proof.
  intros Hp Hh Hs. unfold pipeline. unfold bindM at 1, logger at 1.
  rewrite Hp. cbv zeta. rewrite Hh, Hs.
  unfold bindM at 1, logger at 1. unfold bindM at 1, logger at 1.
  unfold bindM at 1, liftM at 1. cbn [List.length Nat.add app].
  rewrite py_div_zero. eauto.
Qed.

Lemma closing_steps env provider_id result :
  tracks (store_result provider_id result ;;;
          log_audit_event "credentialing_completed" ;;;
          logger LogSaved ;;;
          generate_report env provider_id ;;;
          retM result)%service
         (completed env provider_id).
Proof.
  intros st r st' H.
  unfold bindM at 1, store_result at 1 in H.
  unfold bindM at 1, log_audit_event at 1 in H.
  unfold bindM at 1, logger at 1 in H.
  unfold bindM at 1 in H.
  match type of H with context [generate_report env provider_id ?s] =>
    destruct (generate_report_spec env provider_id s) as (st1 & Hrep & Hbk);
    rewrite Hrep in H
  end.
  unfold retM in H. injection H as <- <-.
  unfold completed. rewrite Hbk. unfold books. cbn. rewrite <- app_assoc. reflexivity.
Qed.

(** The [try] block leaves the books as they were when it raises, and adds
    the result and two audit events when it returns. *)
Lemma pipeline_tracks env cfg provider_id :
  tracks (pipeline env cfg provider_id) (completed env provider_id).
Proof.
  unfold pipeline.
  apply tracks_bind; [apply quiet_logger|intros _].
  destruct (providers cfg !! provider_id) as [provider|]; [|apply tracks_raise].
  cbv zeta.
  do 7 (apply tracks_bind; [first [apply quiet_logger|apply quiet_lift]|intros ?]).
  apply tracks_bind; [apply check_hard_quiet|intros hrs].
  do 2 (apply tracks_bind; [apply quiet_logger|intros ?]).
  apply tracks_bind; [apply score_soft_quiet|intros srs].
  do 2 (apply tracks_bind; [apply quiet_logger|intros ?]).
  apply tracks_bind; [apply quiet_lift|intros result].
  do 2 (apply tracks_bind; [apply quiet_logger|intros ?]).
  apply closing_steps.
Qed.

Lemma quiet_apply' {A} (m : M A) st e st' post :
  tracks m post -> m st = (inl e, st') -> books st' = books st.
Proof. intros Ht H. exact (Ht _ _ _ H). Qed.

Lemma error_handler_books env provider_id e st result st' :
  error_handler env provider_id e st = (inr result, st') ->
  books st' = ((books st).1 ++ ["credentialing_failed"], (books st).2).
Proof.
  unfold error_handler, bindM, logger, log_audit_event, liftM, retM. cbn.
  intros H. injection H as _ <-. reflexivity.
Qed.

Lemma run_raising env cfg provider_id st e st1 :
  open_log_file env (log_file_path env provider_id) = inr tt ->
  pipeline env cfg provider_id (session_start st) = (inl e, st1) ->
  exists result st',
    credential_provider env cfg provider_id st = (inr result, st')
    /\ compliance_status result = FAILED
    /\ cr_score result = 1%Z
    /\ errors result = [exn_msg e]
    /\ books st' = (audit_trail st ++ ["credentialing_started"; "credentialing_failed"],
                    credentialing_results st).
Proof.
  intros Hopen Hp. rewrite (credential_provider_unfold _ _ _ _ Hopen).
  unfold try_except. rewrite Hp.
  destruct (error_handler_returns env provider_id e st1)
    as (result & st' & Hr & Hs & He & Hsc & _).
  exists result, st'. split; [exact Hr|]. split; [exact Hs|]. split; [exact Hsc|].
  split; [exact He|].
  rewrite (error_handler_books _ _ _ _ _ _ Hr).
  rewrite (quiet_apply' _ _ _ _ _ (pipeline_tracks env cfg provider_id) Hp).
  unfold books, session_start. cbn. rewrite <- app_assoc. reflexivity.
Qed.

Lemma run_returning env cfg provider_id st result st1 :
  open_log_file env (log_file_path env provider_id) = inr tt ->
  pipeline env cfg provider_id (session_start st) = (inr result, st1) ->
  credential_provider env cfg provider_id st = (inr result, st1)
  /\ errors result = []
  /\ books st1
     = (audit_trail st ++ ["credentialing_started"; "credentialing_completed"]
                       ++ report_events env provider_id,
        <[provider_id := result]> (credentialing_results st)).
Proof.
  intros Hopen Hp. rewrite (credential_provider_unfold _ _ _ _ Hopen).
  unfold try_except. rewrite Hp. split; [reflexivity|]. split.
  - destruct (pipeline_result _ _ _ _ _ _ Hp)
      as (? & ? & ? & ? & ? & ? & ? & ? & H). apply H.
  - pose proof (pipeline_tracks env cfg provider_id _ _ _ Hp) as Hb.
    cbn beta iota in Hb. unfold completed in Hb. rewrite Hb.
    unfold books, session_start. cbn. rewrite <- app_assoc. reflexivity.
Qed.


(** X10: with a known provider and no regulation configured at all, the
    run divides by zero when it computes the mapping quality: it ends
    with a FAILED result of score 1 whose only error is "division by
    zero", and the result store is left as it was. *)
Theorem X10_run_without_regulations env cfg provider_id provider st :
  open_log_file env (log_file_path env provider_id) = inr tt ->
  providers cfg !! provider_id = Some provider ->
  cfg_hard_regulations cfg = [] ->
  cfg_soft_regulations cfg = [] ->
  exists result st',
    credential_provider env cfg provider_id st = (inr result, st')
    /\ compliance_status result = FAILED
    /\ cr_score result = 1%Z
    /\ errors result = ["division by zero"]
    /\ get_all_results st' = get_all_results st.
Proof.
  intros Hopen Hp Hh Hs.
  destruct (pipeline_no_regulations env cfg provider_id provider (session_start st) Hp Hh Hs)
    as [st1 Hst1].
  destruct (run_raising _ _ _ _ _ _ Hopen Hst1) as (result & st' & Hr & H1 & H2 & H3 & Hb).
  exists result, st'. split; [exact Hr|]. split; [exact H1|]. split; [exact H2|].
  split; [exact H3|]. unfold get_all_results. apply (f_equal snd) in Hb. exact Hb.
Qed.


(** X12: a run that hands back a result stores it exactly when it has no
    error.  Either the [try] block returned: the result has no error, it
    is stored under the provider's id and the audit events logged are
    "credentialing_started", "credentialing_completed" and those of the
    report step; or the block raised: the result is FAILED with one error,
    the store is unchanged (an older result of the provider stays) and the
    events logged are "credentialing_started" and "credentialing_failed".
    The results of other providers are never touched. *)
Theorem X12_result_stored_iff_no_error env cfg provider_id st result st' :
  credential_provider env cfg provider_id st = (inr result, st') ->
  ((errors result = []
    /\ get_all_results st' = <[provider_id := result]> (get_all_results st)
    /\ audit_trail st'
       = audit_trail st ++ ["credentialing_started"; "credentialing_completed"]
                        ++ report_events env provider_id)
   \/ (exists e, errors result = [exn_msg e]
       /\ compliance_status result = FAILED
       /\ get_all_results st' = get_all_results st
       /\ audit_trail st'
          = audit_trail st ++ ["credentialing_started"; "credentialing_failed"]))
  /\ (forall other, other <> provider_id ->
        get_credentialing_result st' other = get_credentialing_result st other).
Proof.
  intros H.
  destruct (open_log_file env (log_file_path env provider_id)) as [e|[]] eqn:Hopen.
  { rewrite (logger_failure_propagates _ _ _ _ _ Hopen) in H. discriminate. }
  destruct (pipeline env cfg provider_id (session_start st)) as [[e|r] st1] eqn:Hp.
  - destruct (run_raising _ _ _ _ _ _ Hopen Hp)
      as (result' & st'' & Hr & H1 & _ & H3 & Hb).
    rewrite Hr in H. injection H as <- <-.
    pose proof (f_equal fst Hb) as Ht. pose proof (f_equal snd Hb) as Hs.
    cbn in Ht, Hs. split.
    + right. exists e. split; [exact H3|]. split; [exact H1|]. split; assumption.
    + intros other _. unfold get_credentialing_result. rewrite Hs. reflexivity.
  - destruct (run_returning _ _ _ _ _ _ Hopen Hp) as (Hr & He & Hb).
    rewrite Hr in H. injection H as <- <-.
    pose proof (f_equal fst Hb) as Ht. pose proof (f_equal snd Hb) as Hs.
    cbn in Ht, Hs. split.
    + left. split; [exact He|]. split; assumption.
    + intros other Hne. unfold get_credentialing_result. rewrite Hs.
      apply lookup_insert_ne. congruence.
Qed.
End RunFacts.

(** ** Compliance status, the [hard_regulations] map and the queries *)

Section StoreFacts.
Import PyStr Py Llm Result Provider Service Spec Store Track.
Local Open Scope list_scope.

Lemma all_values_spec (m : gmap string bool) :
  all_values m = true <-> forall k v, m !! k = Some v -> v = true.
Proof.
  unfold all_values. rewrite forallb_forall. split.
  - intros H k v Hk. apply (H (k, v)).
    apply list_elem_of_In, elem_of_map_to_list, Hk.
  - intros H [k v] Hin. apply list_elem_of_In, elem_of_map_to_list in Hin.
    exact (H k v Hin).
Qed.

Lemma hard_map_origin rs k b :
  hard_regulations_map rs !! k = Some b ->
  exists r, r ∈ rs /\ hr_regulation_id r = k /\ passed r = b.
Proof.
  intros H. unfold hard_regulations_map in H.
  apply (assign_origin hr_regulation_id passed) in H as [H|H]; [|exact H].
  rewrite lookup_empty in H. discriminate.
Qed.

Lemma hard_map_present rs r :
  NoDup (hr_regulation_id <$> rs) -> r ∈ rs ->
  hard_regulations_map rs !! hr_regulation_id r = Some (passed r).
Proof. intros Hnd Hr. exact (assign_present hr_regulation_id passed rs ∅ r Hnd Hr). Qed.

Lemma all_passed_all_values rs :
  forallb passed rs = true -> all_values (hard_regulations_map rs) = true.
Proof.
  intros H. apply all_values_spec. intros k v Hk.
  apply hard_map_origin in Hk as (r & Hr & _ & <-).
  rewrite forallb_forall in H. apply H, list_elem_of_In, Hr.
Qed.

Lemma all_values_all_passed rs :
  NoDup (hr_regulation_id <$> rs) ->
  all_values (hard_regulations_map rs) = true -> forallb passed rs = true.
Proof.
  intros Hnd H. rewrite all_values_spec in H. apply forallb_forall.
  intros r Hr. apply list_elem_of_In in Hr.
  exact (H _ _ (hard_map_present rs r Hnd Hr)).
Qed.

(** X13: the status rule and the [hard_regulations] map built from the
    same hard results agree one way always and the other way under two
    conditions: COMPLIANT implies that every value of the map is true;
    and when the list is not empty and no regulation id occurs twice, a
    map with only true values implies COMPLIANT. *)
Theorem X13_status_and_map_agree rs :
  (_determine_compliance_status rs = COMPLIANT ->
     all_values (hard_regulations_map rs) = true)
  /\ (rs <> [] -> NoDup (hr_regulation_id <$> rs) ->
      all_values (hard_regulations_map rs) = true ->
      _determine_compliance_status rs = COMPLIANT).
Proof.
  rewrite determine_cases. split.
  - destruct rs as [|r rs]; [discriminate|].
    destruct (forallb passed (r :: rs)) eqn:E; [|discriminate].
    intros _. apply all_passed_all_values, E.
  - intros Hne Hnd H. destruct rs as [|r rs]; [contradiction|].
    rewrite (all_values_all_passed _ Hnd H). reflexivity.
Qed.

(** X14: a result that a run of [credential_provider] reports as
    COMPLIANT satisfies [is_compliant], has at least one hard result and
    only passed ones, and has no error. *)
Theorem X14_compliant_run_is_compliant env cfg provider_id st result st' :
  credential_provider env cfg provider_id st = (inr result, st') ->
  compliance_status result = COMPLIANT ->
  is_compliant result = true
  /\ hard_regulation_results result <> []
  /\ Forall (fun r => passed r = true) (hard_regulation_results result)
  /\ errors result = [].
Proof.
  intros H Hc.
  destruct (open_log_file env (log_file_path env provider_id)) as [e|[]] eqn:Hopen.
  { rewrite (logger_failure_propagates _ _ _ _ _ Hopen) in H. discriminate. }
  destruct (pipeline env cfg provider_id (session_start st)) as [[e|r] st1] eqn:Hp.
  - destruct (run_raising _ _ _ _ _ _ Hopen Hp) as (result' & st'' & Hr & H1 & _).
    rewrite Hr in H. injection H as <- <-. congruence.
  - destruct (run_returning _ _ _ _ _ _ Hopen Hp) as (Hr & He & _).
    rewrite Hr in H. injection H as <- <-.
    destruct (pipeline_result _ _ _ _ _ _ Hp)
      as (? & ? & ? & ? & ? & ? & hrs & srs & _ & _ & _ & Hst & _ & Hm & Hhr & _).
    rewrite Hst, determine_cases in Hc. rewrite Hhr. unfold is_compliant. rewrite Hm.
    destruct hrs as [|h hrs]; [discriminate|].
    destruct (forallb passed (h :: hrs)) eqn:E; [|discriminate].
    split; [apply all_passed_all_values, E|]. split; [discriminate|].
    split; [|exact He]. apply List.Forall_forall. rewrite forallb_forall in E. exact E.
Qed.

Lemma is_COMPLIANT_spec s : is_COMPLIANT s = true <-> s = COMPLIANT.
Proof. destruct s; split; (reflexivity || discriminate). Qed.

(** X15: the list of compliant providers holds exactly the ids whose
    stored result has status COMPLIANT, each once; the score query gives
    the stored result's score and nothing for an id without result. *)
Theorem X15_store_queries st provider_id :
  (provider_id ∈ get_compliant_providers st <->
     exists result, get_credentialing_result st provider_id = Some result
                    /\ compliance_status result = COMPLIANT)
  /\ NoDup (get_compliant_providers st)
  /\ get_provider_score st provider_id
     = cr_score <$> get_credentialing_result st provider_id.
Proof.
  unfold get_compliant_providers, get_provider_score, get_credentialing_result.
  split; [|split].
  - rewrite list_elem_of_fmap. split.
    + intros ([k r] & -> & Hin). apply list_elem_of_filter in Hin as [Hc Hin].
      apply elem_of_map_to_list in Hin. exists r.
      split; [exact Hin|]. apply is_COMPLIANT_spec, Hc.
    + intros (r & Hr & Hc). exists (provider_id, r). split; [reflexivity|].
      apply list_elem_of_filter. split; [apply is_COMPLIANT_spec, Hc|].
      apply elem_of_map_to_list, Hr.
  - eapply sublist_NoDup;
      [apply (NoDup_fst_map_to_list (credentialing_results st))
      |apply fmap_sublist, sublist_filter].
  - destruct (credentialing_results st !! provider_id); reflexivity.
Qed.

(** *** The fallback of the data mapping *)

Lemma fallback_mapping_keys regs k :
  is_Some (_fallback_mapping regs !! k) <-> k ∈ reg_id <$> regs.
Proof.
  unfold _fallback_mapping. split.
  - intros [v Hv].
    apply (assign_origin reg_id) in Hv as [Hv|(r & Hr & <- & _)].
    + rewrite lookup_empty in Hv. discriminate.
    + apply list_elem_of_fmap. exists r. split; [reflexivity|exact Hr].
  - intros Hk. destruct (decide (k ∈ reg_id <$> regs)) as [_|Hn]; [|contradiction].
    revert Hk. generalize (∅ : gmap string value).
    induction regs as [|r regs IH]; intros acc Hk; [inversion Hk|].
    cbn [fold_left]. rewrite fmap_cons in Hk.
    destruct (decide (k ∈ reg_id <$> regs)) as [Hin|Hout]; [apply IH, Hin|].
    apply elem_of_cons in Hk as [->|Hk]; [|contradiction].
    rewrite (assign_absent reg_id) by exact Hout.
    rewrite lookup_insert_eq. eauto.
Qed.

(** X16: when the mapping call of the model raises, the data mapping is
    the fallback: its keys are exactly the ids of the given regulations,
    and, when no id occurs twice, each regulation is mapped to its own
    data fields with confidence 0.5. *)
Theorem X16_mapping_falls_back env provider_data regs e :
  generate env (_create_mapping_prompt env provider_data regs) = inl e ->
  let mapped_data := _map_data_to_regulations env provider_data regs in
  (forall k, is_Some (mapped_data !! k) <-> k ∈ reg_id <$> regs)
  /\ (NoDup (reg_id <$> regs) ->
      forall regulation, regulation ∈ regs ->
        exists entry,
          mapped_data !! reg_id regulation = Some (VDict entry)
          /\ entry !! "data_fields" = Some (strs (default [] (data_fields regulation)))
          /\ entry !! "mapping_confidence" = Some (VFloat 0.5)).
Proof.
  intros He mapped_data. subst mapped_data. unfold _map_data_to_regulations.
  rewrite He. split; [apply fallback_mapping_keys|].
  intros Hnd regulation Hin. unfold _fallback_mapping.
  eexists. split; [|split].
  - exact (assign_present reg_id _ regs ∅ regulation Hnd Hin).
  - reflexivity.
  - reflexivity.
Qed.
End StoreFacts.

(** ** How a batch ends *)

Section BatchOutcomes.
Import Batch BatchOutcome.
Local Open Scope list_scope.
Context {Prompt Response : Type}.
Variable w : World Prompt Response.

Hypothesis completion_perm :
  forall base n, Permutation (completion w base n) (seq 0 n).

Lemma collect_inl {A} base (tasks : list (task Prompt Response A)) order :
  forall slots e evs,
    collect w base tasks order slots = (inl e, evs) ->
    exists idx, idx ∈ order /\ task_outcome w base tasks idx = Some (inl e).
Proof.
  induction order as [|idx rest IH]; intros slots e evs H; cbn [collect] in H;
    [discriminate|].
  destruct (tasks !! idx) as [[prompt k]|] eqn:Et.
  - destruct (vendor w (base + idx) prompt) as [e'|r] eqn:Ev.
    + injection H as <- _. exists idx. split; [left|].
      unfold task_outcome. rewrite Et, Ev. reflexivity.
    + destruct (collect w base tasks rest (<[idx:=k r]> slots)) as [o' evs'] eqn:E.
      injection H as -> _. destruct (IH _ _ _ E) as (i & Hi & Ho).
      exists i. split; [right; exact Hi|exact Ho].
  - destruct (IH _ _ _ H) as (i & Hi & Ho).
    exists i. split; [right; exact Hi|exact Ho].
Qed.

(** A gather never hangs when every launched task completes, and the
    exception it raises is the exception of one of its tasks. *)
Lemma gather_outcome {A} (tasks : list (task Prompt Response A)) st o st' evs :
  gather w tasks st = (o, st', evs) ->
  match o with
  | Returned _ => True
  | Raised e => exists i, task_outcome w (launched st) tasks i = Some (inl e)
  | Hung => False
  end.
Proof.
  unfold gather. intros H.
  destruct (collect w (launched st) tasks _ ∅) as [[e|slots] comps] eqn:E.
  - injection H as <- _ _. apply collect_inl in E as (i & _ & Hi). eauto.
  - destruct (mapM _ _) as [results|] eqn:Em; injection H as <- _ _; [exact I|].
    apply eq_None_not_Some in Em. apply Em. apply mapM_is_Some.
    destruct (collect_inr w _ _ _ _ _ _ (order_valid w completion_perm tasks st) E)
      as (_ & Hin & _).
    apply Forall_forall. intros i Hi. apply elem_of_seq in Hi.
    destruct (Hin i) as (a & _ & Hs).
    { apply (order_complete w completion_perm tasks st). lia. }
    exists a. exact Hs.
Qed.

Lemma gather_generate_async_raised (batch : list Prompt) st e st' evs :
  gather w (map generate_async batch) st = (Raised e, st', evs) ->
  exists i p, batch !! i = Some p /\ vendor w (launched st + i) p = inl e.
Proof.
  intros H. apply gather_outcome in H as [i Hi].
  rewrite task_outcome_generate_async in Hi.
  destruct (batch !! i) as [p|] eqn:Hp; [|discriminate].
  cbn in Hi. exists i, p. split; [exact Hp|congruence].
Qed.

Lemma run_waves_outcome (prompts : list Prompt) base fuel :
  forall s results st o st' evs,
    launched st = base + Nat.min s (List.length prompts) ->
    run_waves w prompts (range_from fuel s (List.length prompts) WAVE_SIZE) results st
    = (o, st', evs) ->
    match o with
    | Returned _ => True
    | Raised e => call_failed_with w base prompts e
    | Hung => False
    end.
Proof.
  induction fuel as [|fuel IH]; intros s results st o st' evs Hl H.
  - cbn in H. injection H as <- _ _. exact I.
  - cbn [range_from] in H. destruct (s <? List.length prompts)%nat eqn:Es.
    + apply Nat.ltb_lt in Es. cbn [run_waves] in H. unfold bindA in H.
      destruct (gather w _ st) as [[[br|e|] st1] evs1] eqn:Hg.
      * destruct (run_waves w prompts _ (results ++ br) st1) as [[o2 st2] evs2] eqn:Hr.
        injection H as <- _ _. eapply IH; [|exact Hr].
        destruct (gather_shape w (launched st) _ st _ _ _ eq_refl Hg) as (-> & _).
        rewrite length_map, slice_wave_length. cbn [launched]. unfold WAVE_SIZE. lia.
      * injection H as <- _ _.
        apply gather_generate_async_raised in Hg as (j & p & Hj & Hv).
        rewrite slice_wave_lookup in Hj.
        destruct (decide (j < WAVE_SIZE)); [|discriminate].
        exists (s + j), p. split; [exact Hj|].
        replace (base + (s + j)) with (launched st + j) by lia. exact Hv.
      * apply gather_outcome in Hg. contradiction.
    + cbn in H. injection H as <- _ _. exact I.
Qed.

Lemma generate_batch_async_outcome (prompts : list Prompt) st o st' evs :
  generate_batch_async w prompts st = (o, st', evs) ->
  match o with
  | Returned _ => True
  | Raised e => call_failed_with w (launched st) prompts e
  | Hung => False
  end.
Proof.
  unfold generate_batch_async. destruct (List.length prompts <=? WAVE_SIZE)%nat.
  - intros H. destruct o as [rs|e|].
    + exact I.
    + apply gather_generate_async_raised in H. exact H.
    + apply gather_outcome in H. exact H.
  - unfold py_range. apply run_waves_outcome. lia.
Qed.

Hypothesis uuid4_fresh : forall i j, uuid4 w i = uuid4 w j -> i = j.

Lemma bedrock_outcome (prompts : list Prompt) st o st' evs :
  bedrock_generate_batch_async w prompts st = (o, st', evs) ->
  match o with
  | Returned _ => True
  | Raised e => call_failed_with w (launched st) prompts e
  | Hung => False
  end.
Proof.
  rewrite bedrock_unfold.
  destruct (gather w _ _) as [[[results|e|] st1] evs1] eqn:Hg.
  - destruct (reordering_total w completion_perm uuid4_fresh _ _ _ _ _ Hg)
      as [ordered ->].
    intros H. injection H as <- _ _. exact I.
  - intros H. injection H as <- _ _.
    apply gather_outcome in Hg as [i Hi]. cbn [launched] in Hi.
    destruct (prompts !! i) as [p|] eqn:Hp.
    + rewrite (tasks_outcome w prompts st i p Hp) in Hi.
      exists i, p. split; [exact Hp|].
      destruct (vendor w (launched st + i) p); [congruence|discriminate].
    + unfold task_outcome in Hi. rewrite lookup_zip_with, Hp in Hi. discriminate.
  - apply gather_outcome in Hg. contradiction.
Qed.

Lemma provider_returned provider (prompts : list Prompt) st rs st' evs :
  provider_generate_batch_async provider w prompts st = (Returned rs, st', evs) ->
  answers w (launched st) prompts rs.
Proof.
  destruct provider; cbn [provider_generate_batch_async].
  - apply (bedrock_returned w completion_perm uuid4_fresh).
  - apply (generate_batch_async_returned w completion_perm).
Qed.

Lemma provider_total provider (prompts : list Prompt) st :
  all_calls_return w (launched st) prompts ->
  exists rs st' evs,
    provider_generate_batch_async provider w prompts st = (Returned rs, st', evs).
Proof.
  destruct provider; cbn [provider_generate_batch_async].
  - apply (bedrock_total w completion_perm uuid4_fresh).
  - apply (generate_batch_async_total w completion_perm).
Qed.

(** X17: with either adapter a batch never hangs; it returns exactly when
    every call of the batch returns; and when it raises, the exception is
    the one raised by the call made for one of its prompts: a single
    failing call fails the whole batch and no partial list of responses
    is handed back. *)
Theorem X17_batch_fails_as_a_whole provider (prompts : list Prompt) st o st' evs :
  provider_generate_batch_async provider w prompts st = (o, st', evs) ->
  o <> Hung
  /\ (forall e, o = Raised e ->
        exists i p, prompts !! i = Some p /\ vendor w (launched st + i) p = inl e)
  /\ ((exists rs, o = Returned rs) <-> all_calls_return w (launched st) prompts).
Proof.
  intros H.
  assert (Ho : match o with
               | Returned _ => True
               | Raised e => call_failed_with w (launched st) prompts e
               | Hung => False
               end).
  { destruct provider; cbn [provider_generate_batch_async] in H.
    - eapply bedrock_outcome, H.
    - eapply generate_batch_async_outcome, H. }
  split; [|split].
  - intros ->. exact Ho.
  - intros e ->. exact Ho.
  - split.
    + intros [rs ->]. destruct (provider_returned _ _ _ _ _ _ H) as [_ Hans].
      intros i p Hp. destruct (Hans i p Hp) as (r & _ & Hr). eauto.
    + intros Hall. destruct (provider_total provider prompts st Hall)
        as (rs & st'' & evs' & Hrun).
      rewrite Hrun in H. injection H as <- _ _. eauto.
Qed.

(** *** The sequential batch *)

Lemma generate_batch_spec (prompts : list Prompt) :
  forall st o st' evs,
    generate_batch w prompts st = (o, st', evs) ->
    peak_from 0 evs <= 1
    /\ match o with
       | Returned rs =>
           answers w (launched st) prompts rs
           /\ in_flight_from 0 evs = 0
       | _ => True
       end.
Proof.
  induction prompts as [|prompt rest IH]; intros st o st' evs H; cbn [generate_batch] in H.
  - injection H as <- _ <-. cbn. split; [lia|]. split; [|reflexivity].
    split; [reflexivity|]. intros i p Hp. discriminate.
  - unfold bindA at 1 in H.
    destruct (gather w [generate_async prompt] st) as [[[r|e|] st1] evs1] eqn:Hg.
    + pose proof (peak_gather w _ _ _ _ _ 0 Hg) as Hpk. cbn in Hpk.
      pose proof (in_flight_gather_returned w completion_perm _ _ _ _ _ 0 Hg) as Hfl.
      destruct (gather_shape w (launched st) _ st _ _ _ eq_refl Hg) as (Hst1 & _).
      pose proof (gather_generate_async_returned w completion_perm [prompt] _ _ _ _ Hg)
        as [Hlen Hans].
      unfold bindA in H.
      destruct (generate_batch w rest st1) as [[o2 st2] evs2] eqn:Hrest.
      destruct (IH _ _ _ _ Hrest) as [Hpk2 Ho2].
      assert (Hl1 : launched st1 = launched st + 1) by (rewrite Hst1; reflexivity).
      destruct o2 as [rs|e|].
      * cbn in H. injection H as <- _ <-. rewrite app_nil_r.
        rewrite peak_app, in_flight_app, Hfl. destruct Ho2 as [[Hlen2 Hans2] Hfl2].
        split; [lia|]. split; [|exact Hfl2]. split.
        { rewrite length_app, Hlen, Hlen2. reflexivity. }
        intros i p Hp. destruct i as [|i].
        -- destruct (Hans 0 p Hp) as (x & Hx & Hv). exists x.
           split; [|exact Hv]. apply lookup_app_l_Some. exact Hx.
        -- cbn in Hp. destruct (Hans2 i p Hp) as (x & Hx & Hv). exists x. split.
           ++ rewrite lookup_app_r by (cbn in Hlen; lia).
              replace (S i - List.length r) with i by (cbn in Hlen; lia). exact Hx.
           ++ rewrite Hl1 in Hv. replace (launched st + S i) with (launched st + 1 + i) by lia.
              exact Hv.
      * injection H as <- _ <-. rewrite peak_app, Hfl. split; [lia|exact I].
      * injection H as <- _ <-. rewrite peak_app, Hfl. split; [lia|exact I].
    + injection H as <- _ <-. pose proof (peak_gather w _ _ _ _ _ 0 Hg) as Hpk.
      cbn in Hpk. split; [lia|exact I].
    + injection H as <- _ <-. pose proof (peak_gather w _ _ _ _ _ 0 Hg) as Hpk.
      cbn in Hpk. split; [lia|exact I].
Qed.

Lemma generate_batch_total (prompts : list Prompt) :
  forall st,
    all_calls_return w (launched st) prompts ->
    exists rs st' evs, generate_batch w prompts st = (Returned rs, st', evs).
Proof.
  induction prompts as [|prompt rest IH]; intros st Hall; cbn [generate_batch].
  - unfold retA. eauto.
  - unfold bindA at 1.
    destruct (gather_generate_async_total w completion_perm [prompt] st)
      as (r & st1 & evs1 & Hg).
    { intros i p Hp. destruct i as [|i]; [|discriminate]. apply (Hall 0 p Hp). }
    cbn [map] in Hg. rewrite Hg. unfold bindA.
    destruct (gather_shape w (launched st) _ st _ _ _ eq_refl Hg) as (Hst1 & _).
    destruct (IH st1) as (rs & st2 & evs2 & ->).
    { intros i p Hp. destruct (Hall (S i) p Hp) as [x Hx]. exists x.
      rewrite Hst1. cbn. replace (launched st + 1 + i) with (launched st + S i) by lia.
      exact Hx. }
    cbn. eauto.
Qed.

(** X18: the sequential batch ([generate_batch]) never has more than one
    call in flight; when it returns, the i-th response is what the call
    made for the i-th prompt returned; and it returns whenever every call
    returns. *)
Theorem X18_sequential_batch (prompts : list Prompt) st :
  (forall o st' evs,
      generate_batch w prompts st = (o, st', evs) ->
      peak_in_flight evs <= 1
      /\ forall rs, o = Returned rs -> answers w (launched st) prompts rs)
  /\ (all_calls_return w (launched st) prompts ->
      exists rs st' evs, generate_batch w prompts st = (Returned rs, st', evs)).
Proof.
  split; [|apply generate_batch_total].
  intros o st' evs H. destruct (generate_batch_spec _ _ _ _ _ H) as [Hpk Ho].
  split; [exact Hpk|]. intros rs ->. apply Ho.
Qed.
End BatchOutcomes.

(** ** Runs while the model is unavailable, and the two scores of a result *)

Section EndToEnd.
Import PyStr Py Llm Result Provider Service Spec Store Track Rules.
Local Open Scope list_scope.

Lemma hard_fallback env cfg provider verification_details st results st' :
  (forall prompts, exists e, generate_batch_async env prompts = inl e) ->
  _check_hard_regulations env cfg (get_all_data provider) verification_details st
  = (inr results, st') ->
  map passed results
  = map (fun regulation => typed_verdict regulation provider) (cfg_hard_regulations cfg).
Proof.
  intros Hdown. unfold _check_hard_regulations.
  destruct (Hdown (hard_regulation_prompts env cfg (get_all_data provider)
                     verification_details)) as [e ->].
  unfold bindM at 1, logger at 1.
  match goal with |- context [validate_sequentially _ _ _ _ [] ?s] =>
    destruct (validate_sequentially_returns env provider verification_details
                (cfg_hard_regulations cfg) [] s) as (rs & st1 & -> & HF) end.
  intros H. injection H as <- _. cbn [app].
  induction HF as [|regulation r regs rs [Hv _] _ IH]; [reflexivity|].
  cbn [map]. rewrite validate_typed in Hv. injection Hv as Hv. rewrite IH. congruence.
Qed.

Lemma soft_fallback env cfg provider st results st' :
  (forall prompts, exists e, generate_batch_async env prompts = inl e) ->
  _score_soft_regulations env cfg (get_all_data provider) st = (inr results, st') ->
  map score results
  = map (fun regulation => typed_score regulation provider) (cfg_soft_regulations cfg)
  /\ map weight results = map reg_weight (cfg_soft_regulations cfg).
Proof.
  intros Hdown. rewrite score_soft_unfold.
  destruct (Hdown (soft_regulation_prompts env cfg (get_all_data provider))) as [e ->].
  unfold bindM at 1, logger at 1.
  match goal with |- context [score_sequentially _ _ _ [] ?s] =>
    destruct (score_sequentially_returns env provider (cfg_soft_regulations cfg) [] s)
      as (rs & st1 & -> & HF) end.
  intros H. injection H as <- _. cbn [app].
  induction HF as [|regulation r regs rs [Hv Hr] _ [IH1 IH2]]; [split; reflexivity|].
  cbn [map]. rewrite score_typed in Hv. injection Hv as Hv. rewrite IH1, IH2.
  split; [congruence|]. rewrite Hr. reflexivity.
Qed.

Lemma run_without_model env cfg provider_id provider st :
  open_log_file env (log_file_path env provider_id) = inr tt ->
  providers cfg !! provider_id = Some provider ->
  List.length (cfg_hard_regulations cfg) + List.length (cfg_soft_regulations cfg) <> 0 ->
  (forall prompts, exists e, generate_batch_async env prompts = inl e) ->
  exists result st',
    credential_provider env cfg provider_id st = (inr result, st')
    /\ errors result = []
    /\ map passed (hard_regulation_results result)
       = map (fun regulation => typed_verdict regulation provider) (cfg_hard_regulations cfg)
    /\ map score (soft_regulation_results result)
       = map (fun regulation => typed_score regulation provider) (cfg_soft_regulations cfg)
    /\ map weight (soft_regulation_results result)
       = map reg_weight (cfg_soft_regulations cfg)
    /\ compliance_status result
       = match cfg_hard_regulations cfg with
         | [] => FAILED
         | _ => if forallb (fun regulation => typed_verdict regulation provider)
                           (cfg_hard_regulations cfg)
                then COMPLIANT else NON_COMPLIANT
         end.
Proof.
  intros Hopen Hp Hn Hdown.
  destruct (pipeline_returns env cfg provider_id provider Hp Hn (session_start st))
    as (result & st1 & Hrun).
  destruct (run_returning _ _ _ _ _ _ Hopen Hrun) as (Hr & He & _).
  destruct (pipeline_result _ _ _ _ _ _ Hrun)
    as (provider' & vd & s1 & s2 & s3 & s4 & hrs & srs
        & Hp' & Hh & Hs & Hst & _ & _ & Hhr & Hsr & _).
  rewrite Hp in Hp'. injection Hp' as <-.
  pose proof (hard_fallback _ _ _ _ _ _ _ Hdown Hh) as Hpassed.
  destruct (soft_fallback _ _ _ _ _ _ Hdown Hs) as [Hscore Hweight].
  exists result, st1. rewrite Hhr, Hsr, Hst.
  split; [exact Hr|]. split; [exact He|]. split; [exact Hpassed|].
  split; [exact Hscore|]. split; [exact Hweight|].
  rewrite determine_cases.
  assert (Hall : forallb passed hrs
                 = forallb (fun regulation => typed_verdict regulation provider)
                     (cfg_hard_regulations cfg)).
  { clear -Hpassed. revert Hpassed. generalize (cfg_hard_regulations cfg) as regs.
    induction hrs as [|h hrs IH]; intros [|reg regs] H; try discriminate; [reflexivity|].
    cbn [map] in H. injection H as H1 H2. cbn [forallb]. rewrite H1, (IH _ H2).
    reflexivity. }
  rewrite Hall.
  destruct hrs as [|h hrs], (cfg_hard_regulations cfg) as [|reg regs];
    try discriminate; reflexivity.
Qed.

(** X20: while the batch calls of the model fail, a run for a known
    provider with some regulation configured is decided by the rules
    alone: the hard results carry, regulation by regulation, the verdict
    of the validation rule on the provider's record, the soft results the
    score of the scoring rule and the regulation's weight; the status is
    FAILED without hard regulations, COMPLIANT when every verdict is true
    and NON_COMPLIANT otherwise; the result has no error. *)
Theorem X20_run_without_model env cfg provider_id provider st :
  open_log_file env (log_file_path env provider_id) = inr tt ->
  providers cfg !! provider_id = Some provider ->
  List.length (cfg_hard_regulations cfg) + List.length (cfg_soft_regulations cfg) <> 0 ->
  (forall prompts, exists e, generate_batch_async env prompts = inl e) ->
  exists result st',
    credential_provider env cfg provider_id st = (inr result, st')
    /\ errors result = []
    /\ map passed (hard_regulation_results result)
       = map (fun regulation => typed_verdict regulation provider) (cfg_hard_regulations cfg)
    /\ map score (soft_regulation_results result)
       = map (fun regulation => typed_score regulation provider) (cfg_soft_regulations cfg)
    /\ map weight (soft_regulation_results result)
       = map reg_weight (cfg_soft_regulations cfg)
    /\ compliance_status result
       = match cfg_hard_regulations cfg with
         | [] => FAILED
         | _ => if forallb (fun regulation => typed_verdict regulation provider)
                           (cfg_hard_regulations cfg)
                then COMPLIANT else NON_COMPLIANT
         end.
Proof. apply run_without_model. Qed.

(** X19: the two scores of a result.  Every result a run hands back has
    a [score] from 1 to 5; when it has no soft result, as every failed
    run has, its [score] is 1 while [get_overall_score], which [to_dict]
    reports as "overall_score", is 0. *)
Theorem X19_score_and_overall_score env cfg provider_id st result st' :
  credential_provider env cfg provider_id st = (inr result, st') ->
  (1 <= cr_score result <= 5)%Z
  /\ (errors result <> [] -> soft_regulation_results result = [])
  /\ (soft_regulation_results result = [] ->
      cr_score result = 1%Z
      /\ get_overall_score result = 0%Q
      /\ to_dict result !! "score" = Some (VInt 1)
      /\ to_dict result !! "overall_score" = Some (VFloat 0)).
Proof.
  intros H.
  assert (Hcases : (cr_score result = 1%Z /\ soft_regulation_results result = [])
                   \/ (errors result = []
                       /\ cr_score result
                          = _calculate_overall_score (soft_regulation_results result))).
  { destruct (open_log_file env (log_file_path env provider_id)) as [e|[]] eqn:Hopen.
    { rewrite (logger_failure_propagates _ _ _ _ _ Hopen) in H. discriminate. }
    destruct (pipeline env cfg provider_id (session_start st)) as [[e|r] st1] eqn:Hp.
    - left. rewrite (credential_provider_unfold _ _ _ _ Hopen) in H.
      unfold try_except in H. rewrite Hp in H.
      unfold error_handler, bindM, logger, log_audit_event, liftM, retM in H.
      cbn in H. injection H as <- _. split; reflexivity.
    - right. destruct (run_returning _ _ _ _ _ _ Hopen Hp) as (Hr & He & _).
      rewrite Hr in H. injection H as <- _. split; [exact He|].
      destruct (pipeline_result _ _ _ _ _ _ Hp)
        as (? & ? & ? & ? & ? & ? & hrs & srs & _ & _ & _ & _ & Hsc & _ & _ & Hsr & _).
      rewrite Hsr. exact Hsc. }
  assert (Hone : soft_regulation_results result = [] -> cr_score result = 1%Z).
  { intros Hnil. destruct Hcases as [[H1 _]|[_ H1]]; [exact H1|].
    rewrite H1, Hnil. reflexivity. }
  split; [|split].
  - destruct Hcases as [[H1 _]|[_ H1]]; rewrite H1; [lia|apply calculate_bounds].
  - intros Herr. destruct Hcases as [[_ H1]|[H1 _]]; [exact H1|contradiction].
  - intros Hnil. specialize (Hone Hnil).
    assert (Hov : get_overall_score result = 0%Q)
      by (unfold get_overall_score; rewrite Hnil; reflexivity).
    split; [exact Hone|]. split; [exact Hov|].
    unfold to_dict. rewrite Hone, Hov. split; reflexivity.
Qed.
End EndToEnd.

(** ** The weighted mean on agreeing scores; the verification entry *)

Section MeanFacts.
Import PyStr Py Llm Result Provider Service Spec Rules.
Local Open Scope list_scope.






Lemma verification_truthy env mapped_data :
  truthy_dict (_verify_with_credentialing_api env mapped_data) = true.
Proof.
  unfold truthy_dict. apply negb_true_iff, bool_decide_eq_false.
  intros Hempty.
  assert (H : _verify_with_credentialing_api env mapped_data !! "api_response"
              = Some (VDict api_response)) by reflexivity.
  rewrite Hempty, lookup_empty in H. discriminate.
Qed.

(** X21: the verification step never yields an empty dictionary, so in a
    run the data a hard regulation is checked on always carries the
    verification details under "verification"; the data a soft regulation
    is scored on never has such an entry, whatever its data fields. *)
Theorem X21_verification_entry env mapped_data regulation provider :
  let verification_details := _verify_with_credentialing_api env mapped_data in
  _extract_regulation_data regulation (get_all_data provider) verification_details
    !! "verification" = Some (VDict verification_details)
  /\ _extract_regulation_data regulation (get_all_data provider) ∅ !! "verification" = None.
Proof.
  cbv zeta. rewrite !extract_lookup, verification_truthy. split; [reflexivity|].
  replace (truthy_dict (∅ : gmap string value)) with false by reflexivity.
  cbn [andb]. destruct (bool_decide _); [|reflexivity].
  vm_compute. reflexivity.
Qed.
End MeanFacts.

(** ** The further properties on sample data *)

Section FurtherSamples.
Import PyStr Py Llm Result Provider Service Spec Batch Examples.
Import Store Track Rules Scenarios.
Local Open Scope list_scope.

Lemma X3_witness :
  let r := mk_LLMResponse "ok" 1000 500 1500 "gpt-4o-mini" in
  (0 <= input_cost r)%Q /\ (0 <= output_cost r)%Q /\ (0 <= total_cost r)%Q.
Proof.
  apply (proj1 (proj2 (X3_response_costs "ok" 1000 500 1500 "gpt-4o-mini"))); lia.
Defined.

(** The hard phase of Dr. Smith's run when the model answers. *)
Lemma X8_witness :
  exists results st',
    _check_hard_regulations answering sample_config (get_all_data dr_smith) ∅ empty_state
    = (inr results, st')
    /\ List.length results = 2.
Proof.
  destruct (X8_hard_phase_pairs_responses_with_regulations
              answering sample_config (get_all_data dr_smith) ∅ empty_state
              [passing_answer; passing_answer])
    as (results & st' & Hrun & Hlen & _).
  - reflexivity.
  - cbn. lia.
  - exists results, st'. split; [exact Hrun|exact Hlen].
Defined.

Lemma X9_witness :
  exists results st',
    _score_soft_regulations answering sample_config (get_all_data dr_smith) empty_state
    = (inr results, st')
    /\ Forall2 (fun response result =>
                  score result = default 3%Z (score_search answering (content response))
                  /\ max_score result = 5%Z
                  /\ weighted_score result = (inject_Z (score result) * weight result)%Q)
         [passing_answer] results.
Proof.
  destruct (X9_soft_phase_pairs_responses_with_regulations
              answering sample_config (get_all_data dr_smith) empty_state [passing_answer])
    as (results & st' & Hrun & _ & _ & Hscores).
  - reflexivity.
  - cbn. lia.
  - exists results, st'. split; [exact Hrun|exact Hscores].
Defined.

Lemma X10_witness :
  exists result st',
    credential_provider outage no_regulations_config "P001" empty_state = (inr result, st')
    /\ compliance_status result = FAILED
    /\ cr_score result = 1%Z
    /\ errors result = ["division by zero"]
    /\ get_all_results st' = get_all_results empty_state.
Proof.
  apply (X10_run_without_regulations outage no_regulations_config "P001" dr_smith empty_state).
  - vm_compute. reflexivity.
  - reflexivity.
  - reflexivity.
  - reflexivity.
Defined.


(** The run of an unknown provider leaves the store alone. *)
Lemma X12_witness :
  exists result st',
    credential_provider outage sample_config "P404" empty_state = (inr result, st')
    /\ forall other, other <> "P404" ->
         get_credentialing_result st' other = get_credentialing_result empty_state other.
Proof.
  destruct (credential_provider outage sample_config "P404" empty_state)
    as [[e|result] st'] eqn:H; [vm_compute in H; discriminate|].
  exists result, st'. split; [reflexivity|].
  apply (proj2 (X12_result_stored_iff_no_error outage sample_config "P404" empty_state
                  result st' H)).
Defined.

Lemma X13_witness :
  all_values (hard_regulations_map [hard_result "HR001" true; hard_result "HR002" true])
  = true
  /\ _determine_compliance_status [hard_result "HR001" true; hard_result "HR002" true]
     = COMPLIANT.
Proof.
  split.
  - apply (proj1 (X13_status_and_map_agree _)). reflexivity.
  - apply (proj2 (X13_status_and_map_agree _)).
    + discriminate.
    + apply (bool_decide_unpack _). vm_compute. exact I.
    + vm_compute. reflexivity.
Defined.

(** Dr. Smith's insurance is active: with that single hard regulation
    the run is COMPLIANT, also while the backend is down. *)
Lemma X14_witness :
  exists result st',
    credential_provider outage insured_config "P001" empty_state = (inr result, st')
    /\ compliance_status result = COMPLIANT
    /\ is_compliant result = true.
Proof.
  destruct (run_without_model outage insured_config "P001" dr_smith empty_state)
    as (result & st' & Hrun & _ & _ & _ & _ & Hc).
  - vm_compute. reflexivity.
  - reflexivity.
  - cbn. lia.
  - intros prompts. eexists. reflexivity.
  - assert (Hc' : compliance_status result = COMPLIANT) by (rewrite Hc; reflexivity).
    exists result, st'. split; [exact Hrun|]. split; [exact Hc'|].
    apply (X14_compliant_run_is_compliant outage insured_config "P001" empty_state
             result st' Hrun Hc').
Defined.

Lemma X16_witness :
  is_Some (_map_data_to_regulations outage (get_all_data dr_smith) [HR002; SR001] !! "SR001").
Proof.
  apply (proj1 (X16_mapping_falls_back outage (get_all_data dr_smith) [HR002; SR001]
                  (Exn "ConnectionError" "LLM backend unavailable") eq_refl) "SR001").
  cbn. repeat constructor.
Defined.

(** Three prompts on the GPT adapter. *)
Lemma X17_witness :
  exists o st' evs,
    provider_generate_batch_async GPTLLMProvider reversed_world [7; 8; 9] fresh_loop
    = (o, st', evs)
    /\ o <> Hung.
Proof.
  destruct (provider_generate_batch_async GPTLLMProvider reversed_world [7; 8; 9] fresh_loop)
    as [[o st'] evs] eqn:H.
  exists o, st', evs. split; [reflexivity|].
  apply (X17_batch_fails_as_a_whole reversed_world reversed_world_perm reversed_world_fresh
           GPTLLMProvider [7; 8; 9] fresh_loop o st' evs H).
Defined.

Lemma X18_witness :
  exists rs st' evs,
    generate_batch reversed_world [7; 8; 9] fresh_loop = (Returned rs, st', evs).
Proof.
  apply (proj2 (X18_sequential_batch reversed_world reversed_world_perm [7; 8; 9] fresh_loop)).
  intros i p _. eexists. reflexivity.
Defined.

Lemma X19_witness :
  exists result st',
    credential_provider outage sample_config "P404" empty_state = (inr result, st')
    /\ (1 <= cr_score result <= 5)%Z.
Proof.
  destruct (credential_provider outage sample_config "P404" empty_state)
    as [[e|result] st'] eqn:H; [vm_compute in H; discriminate|].
  exists result, st'. split; [reflexivity|].
  apply (X19_score_and_overall_score outage sample_config "P404" empty_state result st' H).
Defined.

(** Dr. Smith while the backend is down: one disciplinary action fails
    HR002, the active insurance passes HR003, twelve years score 4. *)
Lemma X20_witness :
  exists result st',
    credential_provider outage sample_config "P001" empty_state = (inr result, st')
    /\ map passed (hard_regulation_results result) = [false; true]
    /\ map score (soft_regulation_results result) = [4%Z]
    /\ compliance_status result = NON_COMPLIANT.
Proof.
  destruct (X20_run_without_model outage sample_config "P001" dr_smith empty_state)
    as (result & st' & Hrun & _ & Hp & Hs & _ & Hc).
  - vm_compute. reflexivity.
  - reflexivity.
  - cbn. lia.
  - intros prompts. eexists. reflexivity.
  - exists result, st'. split; [exact Hrun|]. split; [exact Hp|]. split; [exact Hs|exact Hc].
Defined.
End FurtherSamples.
